(** * EventSphere backend: event registration and capacity accounting

  A shallow embedding of the registration subsystem of the backend:
  the Event and Registration models (models/Event.js,
  models/Registration.js), the participation middleware
  (middleware/auth.js), the roster routes of routes/events.js and the
  ledger routes of routes/registrations.js.

  Around it: the rate limiter and the role and permission middleware,
  the other routes of routes/events.js that write an event (update,
  soft delete, publish) or query by status, the reading routes of the
  ledger, the permissions of the User model with login and the user
  administration of routes/auth.js and routes/users.js, and the
  submission route of routes/feedback.js.

  Conventions of the embedding:
  - a Mongo ObjectId is a natural number; a Date is its millisecond
    timestamp, an integer; a Number counter is an integer (the code
    only adds and subtracts one, so no fraction arises);
  - a collection keyed by [_id] is a finite map; the Registration
    collection is a list in insertion order, [findOne] taking the
    first match;
  - [new Date()] is the argument [now] of the operation: the clock
    readings taken while one request is served are one instant;
  - the JWT of a request is represented by what [jwt.verify] makes of
    it: nothing, a failure, or the user id it decodes to;
  - descriptive fields that no modelled operation reads (title, venue,
    tags, ...) are left out of the records. *)

From Stdlib Require Import ZArith.
From stdpp Require Import gmap strings list.

Local Open Scope Z_scope.

Set Warnings "-clear-no-such-hyp".

Abbreviation ObjectId := nat.
Abbreviation Date := Z.

(** ** models/Event.js: the embedded roster entry *)

Module Participant.

Inductive Status := registered | attended | completed | cancelled.

#[global] Instance Status_eq_dec : EqDecision Status.
Proof. solve_decision. Defined.

Record t := mk {
  userId : ObjectId;
  registrationDate : Date;
  status : Status;
  attendanceMarked : bool;
  attendanceDate : option Date
}.

(** The object pushed by [registerUser]; the schema defaults fill the
    other fields. *)
Definition fresh (u : ObjectId) (now : Date) : t :=
  {| userId := u; registrationDate := now; status := registered;
     attendanceMarked := false; attendanceDate := None |}.

(** The three assignments of [markAttendance] on the found entry. *)
Definition mark (now : Date) (p : t) : t :=
  {| userId := userId p; registrationDate := registrationDate p;
     status := attended; attendanceMarked := true;
     attendanceDate := Some now |}.

(** [p => p.userId.toString() === userId.toString()] *)
Definition is_user (u : ObjectId) (p : t) : bool :=
  bool_decide (userId p = u).

End Participant.

(** ** models/Event.js: the event document *)

Module Event.

Inductive Status := Past | Upcoming | Live.

#[global] Instance Status_eq_dec : EqDecision Status.
Proof. solve_decision. Defined.

Record t := mk {
  startDate : Date;
  endDate : Date;
  maxParticipants : Z;
  currentParticipants : Z;
  registrationDeadline : option Date;
  status : Status;
  isActive : bool;
  createdBy : ObjectId;
  organizers : list ObjectId;
  moderators : list ObjectId;
  participants : list Participant.t;
  views : Z;
  registrations : Z;
  attendance : Z
}.

Definition set_status (s : Status) (e : t) : t :=
  mk (startDate e) (endDate e) (maxParticipants e) (currentParticipants e)
     (registrationDeadline e) s (isActive e) (createdBy e) (organizers e)
     (moderators e) (participants e) (views e) (registrations e)
     (attendance e).

Definition set_isActive (b : bool) (e : t) : t :=
  mk (startDate e) (endDate e) (maxParticipants e) (currentParticipants e)
     (registrationDeadline e) (status e) b (createdBy e) (organizers e)
     (moderators e) (participants e) (views e) (registrations e)
     (attendance e).

Definition set_currentParticipants (n : Z) (e : t) : t :=
  mk (startDate e) (endDate e) (maxParticipants e) n
     (registrationDeadline e) (status e) (isActive e) (createdBy e)
     (organizers e) (moderators e) (participants e) (views e)
     (registrations e) (attendance e).

Definition set_participants (ps : list Participant.t) (e : t) : t :=
  mk (startDate e) (endDate e) (maxParticipants e) (currentParticipants e)
     (registrationDeadline e) (status e) (isActive e) (createdBy e)
     (organizers e) (moderators e) ps (views e) (registrations e)
     (attendance e).

Definition set_views (n : Z) (e : t) : t :=
  mk (startDate e) (endDate e) (maxParticipants e) (currentParticipants e)
     (registrationDeadline e) (status e) (isActive e) (createdBy e)
     (organizers e) (moderators e) (participants e) n (registrations e)
     (attendance e).

Definition set_registrations (n : Z) (e : t) : t :=
  mk (startDate e) (endDate e) (maxParticipants e) (currentParticipants e)
     (registrationDeadline e) (status e) (isActive e) (createdBy e)
     (organizers e) (moderators e) (participants e) (views e) n
     (attendance e).

Definition set_attendance (n : Z) (e : t) : t :=
  mk (startDate e) (endDate e) (maxParticipants e) (currentParticipants e)
     (registrationDeadline e) (status e) (isActive e) (createdBy e)
     (organizers e) (moderators e) (participants e) (views e)
     (registrations e) n.

(** [this.participants.find(p => p.userId.toString() === userId.toString())] *)
Definition findParticipant (u : ObjectId) (e : t) : option Participant.t :=
  List.find (Participant.is_user u) (participants e).

(** Virtual [isRegistrationOpen]:
    [if (!this.registrationDeadline) return false;
     return new Date() < this.registrationDeadline && this.status === 'Live';] *)
Definition isRegistrationOpen (now : Date) (e : t) : bool :=
  match registrationDeadline e with
  | None => false
  | Some d => (now <? d) && bool_decide (status e = Live)
  end.

(** The capacity test shared by [canUserRegister] and the ledger route:
    [maxParticipants > 0 && currentParticipants >= maxParticipants]. *)
Definition isFull (e : t) : bool :=
  (0 <? maxParticipants e) && (maxParticipants e <=? currentParticipants e).

(** Method [canUserRegister]: the roster lookup, then the open test,
    then the capacity test. *)
Definition canUserRegister (now : Date) (u : ObjectId) (e : t) : bool :=
  match findParticipant u e with
  | Some _ => false
  | None =>
      if negb (isRegistrationOpen now e) then false
      else if isFull e then false
      else true
  end.

(** Method [registerUser]: [None] is the thrown
    'User cannot register for this event'; otherwise the document as
    saved. *)
Definition registerUser (now : Date) (u : ObjectId) (e : t) : option t :=
  if negb (canUserRegister now u e) then None
  else
    Some (set_registrations (registrations e + 1)
           (set_currentParticipants (currentParticipants e + 1)
             (set_participants
                (participants e ++ [Participant.fresh u now]) e))).

(** The entry returned by [find] is the array's own subdocument: the
    assignments of [markAttendance] land on the first entry of the
    user and on no other. *)
Fixpoint markFirst (now : Date) (u : ObjectId) (ps : list Participant.t)
  : list Participant.t :=
  match ps with
  | [] => []
  | p :: ps' =>
      if Participant.is_user u p then Participant.mark now p :: ps'
      else p :: markFirst now u ps'
  end.

(** Method [markAttendance]: [None] is the thrown
    'User is not registered for this event'. *)
Definition markAttendance (now : Date) (u : ObjectId) (e : t) : option t :=
  match findParticipant u e with
  | None => None
  | Some _ =>
      Some (set_attendance (attendance e + 1)
             (set_participants (markFirst now u (participants e)) e))
  end.

(** The status recomputation of [GET /api/events]:
    [let newStatus = event.status;
     if (event.endDate < now) newStatus = 'Past';
     else if (event.startDate > now) newStatus = 'Upcoming';
     else if (event.startDate <= now && event.endDate >= now) newStatus = 'Live';] *)
Definition newStatus (now start end_ : Date) (stored : Status) : Status :=
  if end_ <? now then Past
  else if now <? start then Upcoming
  else if (start <=? now) && (now <=? end_) then Live
  else stored.

(** The rest of the callback: the stored status is overwritten when it
    differs, and the computed one is attached to the listed object. *)
Definition reconcile (now : Date) (e : t) : t * Status :=
  let s := newStatus now (startDate e) (endDate e) (status e) in
  (if bool_decide (status e = s) then e else set_status s e, s).

(** Virtual [eventStatus]: a stored status of the enum is returned as
    it is, so the date-based fallback below it is never reached for a
    document that passed validation. *)
Definition eventStatus (e : t) : Status :=
  match status e with
  | Past => Past
  | Upcoming => Upcoming
  | Live => Live
  end.

(** The number of roster entries that are not cancelled. *)
Definition activeCount (ps : list Participant.t) : Z :=
  Z.of_nat (length (filter (λ p, Participant.status p ≠ Participant.cancelled) ps)).

End Event.

(** ** models/Registration.js: the ledger entry *)

Module Registration.

(** The values of [registrationType], in a name space of their own
    next to the field [participant]. *)
Module Kind.
Inductive t := participant | coordinator.
End Kind.

Inductive Status := pending | confirmed | rejected | cancelled.

#[global] Instance Status_eq_dec : EqDecision Status.
Proof. solve_decision. Defined.

Record t := mk {
  _id : ObjectId;
  event : ObjectId;
  participant : ObjectId;
  registrationType : Kind.t;
  status : Status;
  registrationDate : Date;
  attended : bool;
  coordinatorNotes : option string;
  isActive : bool
}.

Definition set_status (s : Status) (r : t) : t :=
  mk (_id r) (event r) (participant r) (registrationType r) s
     (registrationDate r) (attended r) (coordinatorNotes r) (isActive r).

Definition set_coordinatorNotes (n : option string) (r : t) : t :=
  mk (_id r) (event r) (participant r) (registrationType r) (status r)
     (registrationDate r) (attended r) n (isActive r).

Definition set_isActive (b : bool) (r : t) : t :=
  mk (_id r) (event r) (participant r) (registrationType r) (status r)
     (registrationDate r) (attended r) (coordinatorNotes r) b.

(** [Registration.findById(id)] *)
Definition findById (id : ObjectId) (l : list t) : option t :=
  List.find (λ r, bool_decide (_id r = id)) l.

(** [Registration.findOne({ event, participant })]: the query names no
    other field, [isActive] in particular. *)
Definition findOne (ev u : ObjectId) (l : list t) : option t :=
  List.find (λ r, bool_decide (event r = ev) && bool_decide (participant r = u)) l.

(** The identifier of a new document: one that no stored document has. *)
Definition freshId (l : list t) : ObjectId :=
  S (foldr (λ r m, Nat.max (_id r) m) 0%nat l).

(** [save()] of a document that is not new: the stored document of the
    same [_id] is replaced. *)
Definition save (r : t) (l : list t) : list t :=
  map (λ x, if bool_decide (_id x = _id r) then r else x) l.

(** [save()] of a new document. The pre-save hook repeats [findOne] and
    throws 'User already registered for this event' ([None]) on a hit;
    the unique index on (event, participant) refuses the same
    documents. *)
Definition create (ev u : ObjectId) (ty : Kind.t) (now : Date) (l : list t)
  : option (t * list t) :=
  match findOne ev u l with
  | Some _ => None
  | None =>
      let r := mk (freshId l) ev u ty pending now false None true in
      Some (r, l ++ [r])
  end.

(** Method [isValid]. *)
Definition isValid (r : t) : bool :=
  bool_decide (status r = confirmed) && isActive r.

End Registration.

(** ** models/User.js, as far as the routes below use it *)

Module User.

Inductive Role := admin | faculty | participant.

#[global] Instance Role_eq_dec : EqDecision Role.
Proof. solve_decision. Defined.

Record t := mk {
  role : Role;
  isActive : bool;
  participatedEvents : list (ObjectId * Participant.Status)
}.

Definition set_participatedEvents (l : list (ObjectId * Participant.Status))
  (u : t) : t :=
  mk (role u) (isActive u) l.

(** [$push: { participatedEvents: { eventId, status: 'registered' } }] *)
Definition pushParticipated (ev : ObjectId) (u : t) : t :=
  set_participatedEvents (participatedEvents u ++ [(ev, Participant.registered)]) u.

(** [$pull: { participatedEvents: { eventId } }] *)
Definition pullParticipated (ev : ObjectId) (u : t) : t :=
  set_participatedEvents (filter (λ pe, pe.1 ≠ ev) (participatedEvents u)) u.

End User.

(** ** The store, requests and responses *)

Record Db := mkDb {
  Events : gmap ObjectId Event.t;
  Registrations : list Registration.t;
  Users : gmap ObjectId User.t
}.

Definition saveEvent (id : ObjectId) (e : Event.t) (db : Db) : Db :=
  mkDb (<[id := e]> (Events db)) (Registrations db) (Users db).

Definition setRegistrations (l : list Registration.t) (db : Db) : Db :=
  mkDb (Events db) l (Users db).

(** [User.findByIdAndUpdate(id, update)]: no effect when the user is
    missing. *)
Definition updateUser (id : ObjectId) (f : User.t → User.t) (db : Db) : Db :=
  mkDb (Events db) (Registrations db) (alter f id (Users db)).

Inductive Token := NoToken | InvalidToken | Decoded (userId : ObjectId).

(** [req.params]: Express fills the names of the route pattern, so a
    route on ['/:id/...'] carries [id] and no [eventId]. *)
Record Request := mkRequest {
  token : Token;
  params_id : option ObjectId;
  params_eventId : option ObjectId
}.

Inductive Response :=
| Json (statusCode : Z) (message : string)
| JsonEvent (e : Event.t)
| JsonParticipants (ps : list Participant.t)
| JsonEvents (l : list (ObjectId * (Event.t * Event.Status))).

(** A middleware either answers the request or hands on to the next
    function with what it attached to the request. *)
Inductive Outcome (A : Type) :=
| Respond (r : Response)
| Next (a : A).

Arguments Respond {A} r.
Arguments Next {A} a.

#[global] Instance Outcome_bind : MBind Outcome := λ A B k m,
  match m with
  | Respond r => Respond r
  | Next a => k a
  end.

(** A route: the middleware chain ends in a response and a store. *)
Definition run (db : Db) (m : Outcome (Response * Db)) : Response * Db :=
  match m with
  | Respond r => (r, db)
  | Next x => x
  end.

(** The authenticated user as the routes see it: [req.user._id] and the
    document. *)
Definition Caller : Type := ObjectId * User.t.

(** ** middleware/auth.js *)

(** [auth] *)
Definition auth (req : Request) (db : Db) : Outcome Caller :=
  match token req with
  | NoToken => Respond (Json 401 "Access denied. No token provided.")
  | InvalidToken => Respond (Json 401 "Invalid token. Please login again.")
  | Decoded uid =>
      match Users db !! uid with
      | None => Respond (Json 401 "Invalid token. User not found.")
      | Some u =>
          if negb (User.isActive u)
          then Respond (Json 401 "Account is deactivated. Please contact administrator.")
          else Next (uid, u)
      end
  end.

(** [requireFaculty] *)
Definition requireFaculty (c : Caller) : Outcome unit :=
  if bool_decide (User.role c.2 = User.admin) || bool_decide (User.role c.2 = User.faculty)
  then Next tt
  else Respond (Json 403 "Faculty or admin access required").

(** [requireOwnershipOrAdmin(Event, 'id')] *)
Definition requireOwnershipOrAdmin (c : Caller) (req : Request) (db : Db)
  : Outcome unit :=
  if bool_decide (User.role c.2 = User.admin) then Next tt
  else
    match params_id req with
    | None => Respond (Json 400 "Resource ID required")
    | Some rid =>
        match Events db !! rid with
        | None => Respond (Json 404 "Resource not found")
        | Some e =>
            if bool_decide (Event.createdBy e = c.1) then Next tt
            else if bool_decide (c.1 ∈ Event.organizers e) then Next tt
            else if bool_decide (c.1 ∈ Event.moderators e) then Next tt
            else Respond (Json 403 "Access denied. You do not own this resource.")
        end
    end.

(** [canParticipateInEvent]: reads [req.params.eventId], and attaches
    the event it found as [req.event]. *)
Definition canParticipateInEvent (now : Date) (c : Caller) (req : Request)
  (db : Db) : Outcome (ObjectId * Event.t) :=
  match params_eventId req with
  | None => Respond (Json 400 "Event ID required")
  | Some eid =>
      match Events db !! eid with
      | None => Respond (Json 404 "Event not found")
      | Some e =>
          if negb (Event.canUserRegister now c.1 e)
          then Respond (Json 400 "Cannot register for this event")
          else Next (eid, e)
      end
  end.

(** [isRegisteredForEvent]: reads [req.params.eventId], and attaches the
    event as [req.event] and the roster entry as [req.participant]. *)
Definition isRegisteredForEvent (c : Caller) (req : Request) (db : Db)
  : Outcome (ObjectId * Event.t * Participant.t) :=
  match params_eventId req with
  | None => Respond (Json 400 "Event ID required")
  | Some eid =>
      match Events db !! eid with
      | None => Respond (Json 404 "Event not found")
      | Some e =>
          match Event.findParticipant c.1 e with
          | None => Respond (Json 400 "You are not registered for this event")
          | Some p => Next (eid, e, p)
          end
      end
  end.

(** ** routes/events.js: the roster path *)

(** [POST /api/events/:id/register], the handler after [auth] and
    [canParticipateInEvent]. [registerUser] repeats [canUserRegister];
    its exception is answered by the catch block. *)
Definition registerHandler (now : Date) (c : Caller) (eid : ObjectId)
  (e : Event.t) (db : Db) : Response * Db :=
  match Event.registerUser now c.1 e with
  | None => (Json 500 "Server error during event registration", db)
  | Some e' =>
      (Json 200 "Successfully registered for event",
       updateUser c.1 (User.pushParticipated eid) (saveEvent eid e' db))
  end.

Definition registerRoute (now : Date) (req : Request) (db : Db) : Response * Db :=
  run db (c ← auth req db;
          '(eid, e) ← canParticipateInEvent now c req db;
          Next (registerHandler now c eid e db)).

(** [POST /api/events/:id/unregister], the handler after [auth] and
    [isRegisteredForEvent]:
    [event.participants = event.participants.filter(p => p.userId.toString() !== req.user._id.toString());
     event.currentParticipants--;
     event.registrations--;] *)
Definition unregisterHandler (c : Caller) (eid : ObjectId) (e : Event.t)
  (db : Db) : Response * Db :=
  let e' :=
    Event.set_registrations (Event.registrations e - 1)
      (Event.set_currentParticipants (Event.currentParticipants e - 1)
        (Event.set_participants
           (filter (λ p, Participant.userId p ≠ c.1) (Event.participants e)) e)) in
  (Json 200 "Successfully unregistered from event",
   updateUser c.1 (User.pullParticipated eid) (saveEvent eid e' db)).

Definition unregisterRoute (req : Request) (db : Db) : Response * Db :=
  run db (c ← auth req db;
          '(eid, e, _) ← isRegisteredForEvent c req db;
          Next (unregisterHandler c eid e db)).

(** [POST /api/events/:id/attendance]; [userId] is the body field. *)
Definition attendanceRoute (now : Date) (req : Request)
  (userId : option ObjectId) (db : Db) : Response * Db :=
  run db (c ← auth req db;
          _ ← requireOwnershipOrAdmin c req db;
          match userId with
          | None => Respond (Json 400 "User ID required")
          | Some u =>
              match params_id req ≫= (λ id, (id,.) <$> Events db !! id) with
              | None => Respond (Json 404 "Event not found")
              | Some (eid, e) =>
                  match Event.markAttendance now u e with
                  | None => Respond (Json 500 "Server error marking attendance")
                  | Some e' =>
                      Next (Json 200 "Attendance marked successfully",
                            saveEvent eid e' db)
                  end
              end
          end).

(** [GET /api/events/:id] *)
Definition getEventRoute (req : Request) (db : Db) : Response * Db :=
  match params_id req ≫= (λ id, (id,.) <$> Events db !! id) with
  | None => (Json 404 "Event not found", db)
  | Some (eid, e) =>
      if negb (Event.isActive e) then (Json 404 "Event not found", db)
      else
        let e' := Event.set_views (Event.views e + 1) e in
        (JsonEvent e', saveEvent eid e' db)
  end.

(** [GET /api/events/:id/participants] *)
Definition participantsRoute (req : Request) (db : Db) : Response * Db :=
  run db (c ← auth req db;
          _ ← requireOwnershipOrAdmin c req db;
          match params_id req ≫= (λ id, Events db !! id) with
          | None => Respond (Json 404 "Event not found")
          | Some e => Next (JsonParticipants (Event.participants e), db)
          end).

(** [GET /api/events] without its optional filters, paging and sort:
    the query [{ isActive: true }], then the status write-through on
    every listed event. *)
Definition listRoute (now : Date) (db : Db) : Response * Db :=
  let listed :=
    Event.reconcile now <$> filter (λ kv, Event.isActive kv.2 = true) (Events db) in
  (JsonEvents (map_to_list listed),
   mkDb ((fst <$> listed) ∪ Events db) (Registrations db) (Users db)).

(** [DELETE /api/events/:id]: the soft delete. The update is issued by
    [findByIdAndUpdate], after [auth] and [requireOwnershipOrAdmin]. *)
Definition deleteEventRoute (req : Request) (db : Db) : Response * Db :=
  run db (c ← auth req db;
          _ ← requireOwnershipOrAdmin c req db;
          match params_id req ≫= (λ id, (id,.) <$> Events db !! id) with
          | None => Respond (Json 404 "Event not found")
          | Some (eid, e) =>
              Next (Json 200 "Event deleted successfully",
                    saveEvent eid (Event.set_isActive false e) db)
          end).

(** ** routes/registrations.js: the ledger path *)

(** [new Date() > event.registrationDeadline]; a missing deadline
    compares false. *)
Definition deadlinePassed (now : Date) (e : Event.t) : bool :=
  match Event.registrationDeadline e with
  | None => false
  | Some d => d <? now
  end.

(** [POST /api/registrations]; [eventId] and [registrationType] are the
    validated body fields. A hit of the pre-save hook is answered by the
    catch block. *)
Definition postRegistration (now : Date) (req : Request) (eventId : ObjectId)
  (registrationType : Registration.Kind.t) (db : Db) : Response * Db :=
  run db (c ← auth req db;
          match Events db !! eventId with
          | None => Respond (Json 404 "Event not found or inactive")
          | Some e =>
              if negb (Event.isActive e)
              then Respond (Json 404 "Event not found or inactive")
              else if Event.isFull e
              then Respond (Json 400 "Event is full")
              else if deadlinePassed now e
              then Respond (Json 400 "Registration deadline has passed")
              else
                match Registration.findOne eventId c.1 (Registrations db) with
                | Some _ => Respond (Json 400 "Already registered for this event")
                | None =>
                    match Registration.create eventId c.1 registrationType now
                            (Registrations db) with
                    | None => Respond (Json 500 "Server error during registration")
                    | Some (_, l) =>
                        Next (Json 201 "Registration successful",
                              saveEvent eventId
                                (Event.set_currentParticipants
                                   (Event.currentParticipants e + 1) e)
                                (setRegistrations l db))
                    end
                end
          end).

(** The counter adjustment of the status route:
    [if (oldStatus === 'confirmed' && status !== 'confirmed')
       event.currentParticipants = Math.max(0, event.currentParticipants - 1);
     else if (oldStatus !== 'confirmed' && status === 'confirmed')
       event.currentParticipants += 1;] *)
Definition adjustCount (oldStatus status : Registration.Status) (e : Event.t)
  : Event.t :=
  if bool_decide (oldStatus = Registration.confirmed)
     && negb (bool_decide (status = Registration.confirmed))
  then Event.set_currentParticipants (Z.max 0 (Event.currentParticipants e - 1)) e
  else if negb (bool_decide (oldStatus = Registration.confirmed))
          && bool_decide (status = Registration.confirmed)
  then Event.set_currentParticipants (Event.currentParticipants e + 1) e
  else e.

(** [if (notes) registration.coordinatorNotes = notes]: an absent or
    empty [notes] leaves the field as it is. *)
Definition applyNotes (notes : option string) (r : Registration.t)
  : Registration.t :=
  match notes with
  | None => r
  | Some EmptyString => r
  | Some n => Registration.set_coordinatorNotes (Some n) r
  end.

(** [PUT /api/registrations/:id/status]; [status] and [notes] are the
    validated body fields. [populate('event')] of a registration whose
    event is gone leaves [null], and reading [createdBy] of it throws
    into the catch block. *)
Definition putStatus (req : Request) (status : Registration.Status)
  (notes : option string) (db : Db) : Response * Db :=
  run db (c ← auth req db;
          _ ← requireFaculty c;
          match params_id req ≫= (λ id, Registration.findById id (Registrations db)) with
          | None => Respond (Json 404 "Registration not found")
          | Some r =>
              match Events db !! Registration.event r with
              | None => Respond (Json 500 "Server error updating registration status")
              | Some e =>
                  if negb (bool_decide (Event.createdBy e = c.1))
                     && negb (bool_decide (User.role c.2 = User.admin))
                  then Respond (Json 403 "Not authorized to update this registration")
                  else
                    let oldStatus := Registration.status r in
                    let r' := applyNotes notes (Registration.set_status status r) in
                    let db1 := setRegistrations (Registration.save r' (Registrations db)) db in
                    let db2 :=
                      if bool_decide (oldStatus = status) then db1
                      else saveEvent (Registration.event r)
                             (adjustCount oldStatus status e) db1 in
                    Next (Json 200 "Registration status updated successfully", db2)
              end
          end).

(** [DELETE /api/registrations/:id]. The event schema has no field
    [date], so [new Date() >= registration.event.date] compares with
    [undefined] and is false whenever the event is there; with the event
    gone the read throws into the catch block. The status of the
    registration is left as it is; only [isActive] is cleared. *)
Definition deleteRegistration (now : Date) (req : Request) (db : Db)
  : Response * Db :=
  run db (c ← auth req db;
          match params_id req ≫= (λ id, Registration.findById id (Registrations db)) with
          | None => Respond (Json 404 "Registration not found")
          | Some r =>
              if negb (bool_decide (Registration.participant r = c.1))
              then Respond (Json 403 "Not authorized to cancel this registration")
              else
                match Events db !! Registration.event r with
                | None => Respond (Json 500 "Server error cancelling registration")
                | Some e =>
                    let db1 :=
                      if bool_decide (Registration.status r = Registration.confirmed)
                      then saveEvent (Registration.event r)
                             (Event.set_currentParticipants
                                (Z.max 0 (Event.currentParticipants e - 1)) e) db
                      else db in
                    Next (Json 200 "Registration cancelled successfully",
                          setRegistrations
                            (Registration.save (Registration.set_isActive false r)
                               (Registrations db1)) db1)
                end
          end).

(** ** Vocabulary of the statements *)

(** The user a request is served for, when [auth] lets it through. *)
Definition callerId (req : Request) (db : Db) : option ObjectId :=
  match auth req db with
  | Next c => Some c.1
  | Respond _ => None
  end.

(** [currentParticipants] of a stored event. *)
Definition countOf (eid : ObjectId) (db : Db) : option Z :=
  Event.currentParticipants <$> Events db !! eid.

(** A request as [canParticipateInEvent] and [isRegisteredForEvent] read
    it, with the event under [req.params.eventId]. *)
Definition withEventId (tok : Token) (eid : ObjectId) : Request :=
  mkRequest tok None (Some eid).

(** A request as Express builds it for a pattern ['/:id'] or
    ['/:id/...']: the event or registration under [req.params.id]. *)
Definition withId (tok : Token) (id : ObjectId) : Request :=
  mkRequest tok (Some id) None.

(** A request of a route with no parameter in its pattern, such as
    [POST /api/registrations]. *)
Definition plain (tok : Token) : Request :=
  mkRequest tok None None.

(** [2xx] *)
Definition succeeded (r : Response) : bool :=
  match r with
  | Json c _ => (200 <=? c) && (c <? 300)
  | _ => true
  end.

(** The two entry points that register a user for an event: the roster
    route and the ledger route. *)
Inductive RegisterCall :=
| ViaRoster (now : Date) (tok : Token)
| ViaLedger (now : Date) (tok : Token) (ty : Registration.Kind.t).

Definition register (eid : ObjectId) (call : RegisterCall) (db : Db)
  : Response * Db :=
  match call with
  | ViaRoster now tok => registerRoute now (withEventId tok eid) db
  | ViaLedger now tok ty => postRegistration now (plain tok) eid ty db
  end.

Definition callToken (call : RegisterCall) : Token :=
  match call with
  | ViaRoster _ tok => tok
  | ViaLedger _ tok _ => tok
  end.

(** The refusal each entry point gives for a full event: the ledger
    route names the cause, the roster route has one answer for every
    failure of [canUserRegister]. *)
Definition fullResponse (call : RegisterCall) : Response :=
  match call with
  | ViaRoster _ _ => Json 400 "Cannot register for this event"
  | ViaLedger _ _ _ => Json 400 "Event is full"
  end.

(** Calls served one after the other, each on the store the previous one
    left. *)
Fixpoint registerAll (eid : ObjectId) (calls : list RegisterCall) (db : Db)
  : list Response * Db :=
  match calls with
  | [] => ([], db)
  | call :: rest =>
      let '(r, db1) := register eid call db in
      let '(rs, db2) := registerAll eid rest db1 in
      (r :: rs, db2)
  end.

(** The roster as the roster routes build it: no user twice, no entry
    cancelled, and the counter equal to the number of entries that are
    not cancelled. *)
Definition rosterCounted (e : Event.t) : Prop :=
  NoDup (Participant.userId <$> Event.participants e) ∧
  Forall (λ p, Participant.status p ≠ Participant.cancelled) (Event.participants e) ∧
  Event.currentParticipants e = Event.activeCount (Event.participants e).

(** The event as the unregistration handler saves it. *)
Definition unregistered (u : ObjectId) (e : Event.t) : Event.t :=
  Event.set_registrations (Event.registrations e - 1)
    (Event.set_currentParticipants (Event.currentParticipants e - 1)
       (Event.set_participants
          (filter (λ p, Participant.userId p ≠ u) (Event.participants e)) e)).

(** The calls of the roster path. *)
Inductive RosterCall :=
| Register (now : Date) (req : Request)
| Unregister (req : Request)
| MarkAttendance (now : Date) (req : Request) (userId : option ObjectId).

Definition rosterCall (call : RosterCall) (db : Db) : Response * Db :=
  match call with
  | Register now req => registerRoute now req db
  | Unregister req => unregisterRoute req db
  | MarkAttendance now req u => attendanceRoute now req u db
  end.

(** The calls that move the counter in the specification's account of
    it: registration by either entry point, unregistration, and the
    status update of the ledger. *)
Inductive CounterCall :=
| CRegister (eid : ObjectId) (call : RegisterCall)
| CUnregister (req : Request)
| CStatus (req : Request) (status : Registration.Status) (notes : option string).

Definition counterCall (call : CounterCall) (db : Db) : Response * Db :=
  match call with
  | CRegister eid c => register eid c db
  | CUnregister req => unregisterRoute req db
  | CStatus req status notes => putStatus req status notes db
  end.

Definition counterCalls (calls : list CounterCall) (db : Db) : Db :=
  foldl (λ d call, (counterCall call d).2) db calls.

(** The number of confirmed registrations of an event. *)
Definition isConfirmedFor (eid : ObjectId) (r : Registration.t) : bool :=
  bool_decide (Registration.event r = eid)
  && bool_decide (Registration.status r = Registration.confirmed).

Definition weight (eid : ObjectId) (r : Registration.t) : Z :=
  if isConfirmedFor eid r then 1 else 0.

Definition confirmedCount (eid : ObjectId) (l : list Registration.t) : Z :=
  Z.of_nat (length (List.filter (isConfirmedFor eid) l)).

(** Every increment still stands behind the counter: the registrations
    have distinct identifiers, and the counter of each event is at least
    its roster entries plus its confirmed registrations. *)
Definition backed (db : Db) : Prop :=
  NoDup (Registration._id <$> Registrations db) ∧
  ∀ eid e, Events db !! eid = Some e →
    Z.of_nat (length (Event.participants e)) + confirmedCount eid (Registrations db)
    <= Event.currentParticipants e.

(** ** Sample data for the closed statements *)

Module Sample.

Definition alice : ObjectId := 7%nat.
Definition bob : ObjectId := 8%nat.
Definition carol : ObjectId := 9%nat.
Definition root : ObjectId := 10%nat.

Definition users : gmap ObjectId User.t :=
  list_to_map
    [(alice, User.mk User.participant true []);
     (bob, User.mk User.participant true []);
     (carol, User.mk User.faculty true []);
     (root, User.mk User.admin true [])].

(** An event made by carol: it starts at 1000, ends at 2000, takes
    registrations until 500 and has room for [cap] participants. *)
Definition event (cap : Z) (st : Event.Status) : Event.t :=
  Event.mk 1000 2000 cap 0 (Some 500) st true carol [carol] [] [] 0 0 0.

Definition db (cap : Z) (st : Event.Status) : Db :=
  mkDb {[ 1%nat := event cap st ]} [] users.

(** A full event: one place, taken. *)
Definition full : Db :=
  mkDb {[ 1%nat := Event.set_currentParticipants 1 (event 1 Event.Live) ]} [] users.

(** A pending registration of alice for the event. *)
Definition pendingReg : Registration.t :=
  Registration.mk 1%nat 1%nat alice Registration.Kind.participant
    Registration.pending 100 false None true.

Definition withPending : Db :=
  mkDb {[ 1%nat := Event.set_currentParticipants 1 (event 0 Event.Live) ]}
       [pendingReg] users.

(** No limit, and a counter of five. *)
Definition crowded : Db :=
  mkDb {[ 1%nat := Event.set_currentParticipants 5 (event 0 Event.Live) ]} [] users.

(** Alice on the roster of the event, counted, and her registration in
    the ledger. *)
Definition listed : Event.t :=
  Event.set_registrations 1
    (Event.set_currentParticipants 1
       (Event.set_participants [Participant.fresh alice 100]
          (event 0 Event.Live))).

Definition both : Db :=
  mkDb {[ 1%nat := listed ]} [pendingReg] users.

(** The same store after the soft delete of the event. *)
Definition deleted : Db :=
  mkDb {[ 1%nat := Event.set_isActive false listed ]} [pendingReg] users.

End Sample.

(** ** middleware/auth.js: the rate limiter *)

Module RateLimit.

(** The value kept per address in the [Map] of the closure. *)
Record Entry := mkEntry {
  count : Z;
  resetTime : Date
}.

(** The middleware returned by [rateLimit(maxRequests, windowMs)], on a
    request from [ip] at [now]; the [Map] is threaded through. [Next] is
    the call of [next()]. *)
Definition limiter (maxRequests windowMs : Z) (now : Date) (ip : string)
  (requests : gmap string Entry) : Outcome unit * gmap string Entry :=
  match requests !! ip with
  | None => (Next tt, <[ip := mkEntry 1 (now + windowMs)]> requests)
  | Some userRequests =>
      if resetTime userRequests <? now
      then (Next tt, <[ip := mkEntry 1 (now + windowMs)]> requests)
      else if maxRequests <=? count userRequests
      then (Respond (Json 429 "Too many requests. Please try again later."), requests)
      else (Next tt,
            <[ip := mkEntry (count userRequests + 1) (resetTime userRequests)]> requests)
  end.

(** The default arguments: a hundred requests in fifteen minutes. *)
Definition defaultLimiter := limiter 100 (15 * 60 * 1000).

Definition passed (o : Outcome unit) : bool :=
  match o with
  | Next _ => true
  | Respond _ => false
  end.

(** Requests, each an address and an instant, served one after the
    other; the answers in the same order. *)
Fixpoint serve (maxRequests windowMs : Z) (reqs : list (string * Date))
  (requests : gmap string Entry) : list (string * bool) * gmap string Entry :=
  match reqs with
  | [] => ([], requests)
  | (ip, now) :: rest =>
      let '(o, requests1) := limiter maxRequests windowMs now ip requests in
      let '(os, requests2) := serve maxRequests windowMs rest requests1 in
      ((ip, passed o) :: os, requests2)
  end.

(** How many requests of [ip] were let through. *)
Definition passedFor (ip : string) (answers : list (string * bool)) : Z :=
  Z.of_nat (length (filter (λ a, a.1 = ip ∧ a.2 = true) answers)).

(** How many requests came from [ip]. *)
Definition sentBy (ip : string) (reqs : list (string * Date)) : Z :=
  Z.of_nat (length (filter (λ r, r.1 = ip) reqs)).

End RateLimit.

(** ** Vocabulary of the further statements *)

(** Attendance marked for one user at each of the instants, in order;
    [None] once a call has thrown. *)
Definition markAll (u : ObjectId) (ts : list Date) (e : Event.t) : option Event.t :=
  foldl (λ oe t, oe ≫= Event.markAttendance t u) (Some e) ts.

(** The store after the same detail request served [n] times. *)
Definition reads (n : nat) (req : Request) (db : Db) : Db :=
  Nat.iter n (λ d, (getEventRoute req d).2) db.

(** The store after the same cancellation request served at each of the
    instants. *)
Definition cancels (ts : list Date) (req : Request) (db : Db) : Db :=
  foldl (λ d t, (deleteRegistration t req d).2) db ts.

(** The store after status updates of one request path, one per listed
    status and note. *)
Definition statusUpdates (req : Request)
  (ss : list (Registration.Status * option string)) (db : Db) : Db :=
  foldl (λ d s, (putStatus req s.1 s.2 d).2) db ss.

(** The calls of routes/registrations.js that write. *)
Inductive LedgerCall :=
| LPost (now : Date) (req : Request) (eventId : ObjectId) (ty : Registration.Kind.t)
| LStatus (req : Request) (status : Registration.Status) (notes : option string)
| LCancel (now : Date) (req : Request).

Definition ledgerCall (call : LedgerCall) (db : Db) : Response * Db :=
  match call with
  | LPost now req ev ty => postRegistration now req ev ty db
  | LStatus req status notes => putStatus req status notes db
  | LCancel now req => deleteRegistration now req db
  end.

Definition ledgerCalls (calls : list LedgerCall) (db : Db) : Db :=
  foldl (λ d call, (ledgerCall call d).2) db calls.

(** The key of the unique index of the Registration collection. *)
Definition pairOf (r : Registration.t) : ObjectId * ObjectId :=
  (Registration.event r, Registration.participant r).

(** No identifier twice, and no (event, participant) pair twice. *)
Definition ledgerUnique (l : list Registration.t) : Prop :=
  NoDup (Registration._id <$> l) ∧ NoDup (pairOf <$> l).

(** [GET /api/events] with its optional parts: the query
    [{ isActive: true }] narrowed by the filters on category, status and
    search text, then sort, skip and limit. Which of the active events
    end up on the page is taken as the predicate [onPage] on the stored
    documents; the status write-through runs on the events of the page. *)
Definition listPage (onPage : ObjectId * Event.t → bool) (now : Date) (db : Db)
  : Response * Db :=
  let listed :=
    Event.reconcile now <$>
      filter (λ kv, Event.isActive kv.2 = true ∧ onPage kv = true) (Events db) in
  (JsonEvents (map_to_list listed),
   mkDb ((fst <$> listed) ∪ Events db) (Registrations db) (Users db)).

(** ** More sample data *)

Module More.

(** Alice's registration, confirmed, and the event counting it twice:
    once for the registration and once for the confirmation. *)
Definition confirmedReg : Registration.t :=
  Registration.set_status Registration.confirmed Sample.pendingReg.

Definition counted : Event.t :=
  Event.set_currentParticipants 2 (Sample.event 0 Event.Live).

Definition withConfirmed : Db :=
  mkDb {[ 1%nat := counted ]} [confirmedReg] Sample.users.

End More.

(** One for [confirmed], nothing for the other statuses: what a
    registration of that status keeps in the counter of its event. *)
Definition confirmedBit (s : Registration.Status) : Z :=
  if bool_decide (s = Registration.confirmed) then 1 else 0.

(** ** The registration routes as the router mounts them *)

(** [router.post('/:id/register', ...)] and
    [router.post('/:id/unregister', ...)]: the handler gets the path
    segment as [req.params.id]. *)
Inductive MountedCall :=
| PostRegister (now : Date) (tok : Token) (id : ObjectId)
| PostUnregister (tok : Token) (id : ObjectId).

Definition mountedRequest (call : MountedCall) : Request :=
  match call with
  | PostRegister _ tok id => withId tok id
  | PostUnregister tok id => withId tok id
  end.

Definition mountedCall (call : MountedCall) (db : Db) : Response * Db :=
  match call with
  | PostRegister now _ _ => registerRoute now (mountedRequest call) db
  | PostUnregister _ _ => unregisterRoute (mountedRequest call) db
  end.

Fixpoint mountedCalls (calls : list MountedCall) (db : Db) : list Response * Db :=
  match calls with
  | [] => ([], db)
  | call :: rest =>
      let '(r, db1) := mountedCall call db in
      let '(rs, db2) := mountedCalls rest db1 in
      (r :: rs, db2)
  end.

(** ** The routes that write events or registrations *)

(** The modelled routes that write events or registrations, apart from
    the cancellation of a registration and the update of an event. *)
Inductive StoreCall :=
| Counter (call : CounterCall)
| Attendance (now : Date) (req : Request) (userId : option ObjectId)
| Detail (req : Request)
| Listing (onPage : ObjectId * Event.t → bool) (now : Date)
| DeleteEvent (req : Request).

Definition storeCall (call : StoreCall) (db : Db) : Response * Db :=
  match call with
  | Counter c => counterCall c db
  | Attendance now req u => attendanceRoute now req u db
  | Detail req => getEventRoute req db
  | Listing onPage now => listPage onPage now db
  | DeleteEvent req => deleteEventRoute req db
  end.

Definition storeCalls (calls : list StoreCall) (db : Db) : Db :=
  foldl (λ d call, (storeCall call d).2) db calls.

(** What a mounted roster route can answer: the refusal of [auth], or
    the missing identifier. *)
Definition mountedAnswer (call : MountedCall) (db : Db) : Response :=
  match auth (mountedRequest call) db with
  | Respond r => r
  | Next _ => Json 400 "Event ID required"
  end.

(** ** The calls of the claims as the server receives them *)

(** A registration or an unregistration on the routes of
    routes/events.js as they are mounted, or a call of one of the writing
    routes of routes/registrations.js. *)
Inductive ServedCall :=
| OnRoster (call : MountedCall)
| OnLedger (call : LedgerCall).

Definition servedCall (call : ServedCall) (db : Db) : Response * Db :=
  match call with
  | OnRoster c => mountedCall c db
  | OnLedger c => ledgerCall c db
  end.

Definition servedCalls (calls : list ServedCall) (db : Db) : Db :=
  foldl (λ d call, (servedCall call d).2) db calls.

(** ** models/User.js: the permissions of a role *)

Module Permissions.

Record t := mk {
  canCreateEvents : bool;
  canManageUsers : bool;
  canManageFaculty : bool;
  canViewAnalytics : bool;
  canManageFeedback : bool
}.

#[global] Instance t_eq_dec : EqDecision t.
Proof. solve_decision. Defined.

(** The schema's defaults. *)
Definition none : t := mk false false false false false.

(** The stored string of a role. *)
Definition roleName (r : User.Role) : string :=
  match r with
  | User.admin => "admin"
  | User.faculty => "faculty"
  | User.participant => "participant"
  end.

(** Method [setRolePermissions], as a function of [this.role]. *)
Definition setRolePermissions (role : string) : t :=
  if bool_decide (role = "admin") then mk true true true true true
  else if bool_decide (role = "faculty") then mk true false false true true
  else if bool_decide (role = "coordinator") then mk true false false false false
  else mk false false false false false.

(** Method [hasPermission]: [this.permissions[permission] || false];
    [None] is [undefined]. *)
Definition hasPermission (p : t) (permission : option string) : bool :=
  match permission with
  | None => false
  | Some name =>
      if bool_decide (name = "canCreateEvents") then canCreateEvents p
      else if bool_decide (name = "canManageUsers") then canManageUsers p
      else if bool_decide (name = "canManageFaculty") then canManageFaculty p
      else if bool_decide (name = "canViewAnalytics") then canViewAnalytics p
      else if bool_decide (name = "canManageFeedback") then canManageFeedback p
      else false
  end.

(** [permissionMap[action]] of method [can]. An action outside the map
    gives [undefined], or a member of [Object.prototype] whose string is
    no key of [permissions]; both end in [false]. *)
Definition permissionMap (action : string) : option string :=
  if bool_decide (action = "create:events") then Some "canCreateEvents"
  else if bool_decide (action = "manage:users") then Some "canManageUsers"
  else if bool_decide (action = "manage:faculty") then Some "canManageFaculty"
  else if bool_decide (action = "view:analytics") then Some "canViewAnalytics"
  else if bool_decide (action = "manage:feedback") then Some "canManageFeedback"
  else None.

(** Method [can]. *)
Definition can (p : t) (action : string) : bool :=
  hasPermission p (permissionMap action).

End Permissions.

(** ** The user documents with their permissions *)

(** The [permissions] of each user document, kept beside the store. *)
Record Accounts := mkAccounts {
  store : Db;
  permissions : gmap ObjectId Permissions.t
}.

Definition permissionsOf (uid : ObjectId) (acc : Accounts) : Permissions.t :=
  default Permissions.none (permissions acc !! uid).

(** A route on the user documents: the middleware chain ends in a
    response and the documents. *)
Definition runAccounts (acc : Accounts) (m : Outcome (Response * Accounts))
  : Response * Accounts :=
  match m with
  | Respond r => (r, acc)
  | Next x => x
  end.

(** [requirePermission(permission)] *)
Definition requirePermission (permission : string) (c : Caller) (acc : Accounts)
  : Outcome unit :=
  if Permissions.can (permissionsOf c.1 acc) permission then Next tt
  else Respond (Json 403 ("Permission denied. " +:+ permission +:+ " access required.")).

(** ** routes/users.js, and the deactivation route of routes/auth.js *)

(** [requireAdmin] *)
Definition requireAdmin (c : Caller) : Outcome unit :=
  if bool_decide (User.role c.2 = User.admin) then Next tt
  else Respond (Json 403 "Admin access required").

Module Users.

Definition set_isActive (b : bool) (u : User.t) : User.t :=
  User.mk (User.role u) b (User.participatedEvents u).

Definition set_role (r : User.Role) (u : User.t) : User.t :=
  User.mk r (User.isActive u) (User.participatedEvents u).

Definition saveUser (id : ObjectId) (u : User.t) (db : Db) : Db :=
  mkDb (Events db) (Registrations db) (<[id := u]> (Users db)).

(** [save()] of a user document: the pre-save hook calls
    [setRolePermissions] on it before it is written. *)
Definition saveAccount (uid : ObjectId) (u : User.t) (acc : Accounts) : Accounts :=
  mkAccounts (saveUser uid u (store acc))
    (<[uid := Permissions.setRolePermissions (Permissions.roleName (User.role u))]>
       (permissions acc)).

(** [User.findByIdAndUpdate] with fields other than [permissions]: no
    hook runs. *)
Definition updateAccount (uid : ObjectId) (u : User.t) (acc : Accounts) : Accounts :=
  mkAccounts (saveUser uid u (store acc)) (permissions acc).

(** The path segment [:id] is a string. [findById] and
    [findByIdAndUpdate] cast it to an identifier, reading its
    hexadecimal digits in either case; [toString()] of an identifier
    writes them in lower case. The routes take the identifier the
    segment names as [params_id] of the request and, in [canonical],
    whether the segment is spelled as [toString()] spells that
    identifier. [id === userId.toString()] compares the strings. *)
Definition isSelf (canonical : bool) (req : Request) (c : Caller) : bool :=
  canonical && bool_decide (params_id req = Some c.1).

(** A [role] sent in a body: a name of the schema's enum, or any other
    value, which the validation of [save()] rejects. *)
Inductive BodyRole := InEnum (r : User.Role) | OutOfEnum.

(** The keys [isActive] and [role] of the body of [PUT /api/users/:id],
    [isActive] as the boolean the schema casts it to; [None] is an
    absent key. The other keys are taken to pass the validation chain of
    the route and to name no modelled field; a key [permissions] is
    assigned like the others and overwritten by the pre-save hook. *)
Record Body := mkBody {
  isActive : option bool;
  role : option BodyRole
}.

(** [delete updates.isActive; delete updates.role] for a participant,
    [delete updates.role] for faculty. *)
Definition allowed (callerRole : User.Role) (body : Body) : Body :=
  match callerRole with
  | User.participant => mkBody None None
  | User.faculty => mkBody (isActive body) None
  | User.admin => body
  end.

(** [user[key] = updates[key]] over the keys of the body. *)
Definition assign (updates : Body) (u : User.t) : option User.t :=
  let u1 := from_option (λ b, set_isActive b u) u (isActive updates) in
  match role updates with
  | None => Some u1
  | Some (InEnum r) => Some (set_role r u1)
  | Some OutOfEnum => None
  end.

(** [PUT /api/users/:id] *)
Definition putUser (canonical : bool) (req : Request) (body : Body) (acc : Accounts)
  : Response * Accounts :=
  runAccounts acc
    (c ← auth req (store acc);
     if negb (isSelf canonical req c)
        && negb (bool_decide (User.role c.2 = User.admin))
        && negb (bool_decide (User.role c.2 = User.faculty))
     then Respond (Json 403 "Not authorized to update this profile")
     else
       match params_id req ≫= (λ id, (id,.) <$> Users (store acc) !! id) with
       | None => Respond (Json 404 "User not found")
       | Some (id, u) =>
           match assign (allowed (User.role c.2) body) u with
           | None => Respond (Json 500 "Server error updating user")
           | Some u' => Next (Json 200 "User updated successfully", saveAccount id u' acc)
           end
       end).

(** [DELETE /api/users/:id] *)
Definition deleteUser (canonical : bool) (req : Request) (acc : Accounts)
  : Response * Accounts :=
  runAccounts acc
    (c ← auth req (store acc);
     _ ← requireFaculty c;
     if isSelf canonical req c
     then Respond (Json 400 "Cannot deactivate your own account")
     else
       match params_id req ≫= (λ id, (id,.) <$> Users (store acc) !! id) with
       | None => Respond (Json 404 "User not found")
       | Some (id, u) =>
           if bool_decide (User.role c.2 = User.faculty)
              && bool_decide (User.role u = User.admin)
           then Respond (Json 403 "Faculty cannot deactivate admin accounts")
           else Next (Json 200 "User deactivated successfully",
                      saveAccount id (set_isActive false u) acc)
       end).

(** [POST /api/users/:id/reactivate] *)
Definition reactivateUser (req : Request) (acc : Accounts) : Response * Accounts :=
  runAccounts acc
    (c ← auth req (store acc);
     _ ← requireAdmin c;
     match params_id req ≫= (λ id, (id,.) <$> Users (store acc) !! id) with
     | None => Respond (Json 404 "User not found")
     | Some (id, u) =>
         Next (Json 200 "User reactivated successfully",
               saveAccount id (set_isActive true u) acc)
     end).

(** [DELETE /api/auth/users/:id], which writes with
    [findByIdAndUpdate]. *)
Definition authDeleteUser (canonical : bool) (req : Request) (acc : Accounts)
  : Response * Accounts :=
  runAccounts acc
    (c ← auth req (store acc);
     if negb (bool_decide (User.role c.2 = User.admin))
     then Respond (Json 403 "Only admins can deactivate users")
     else if isSelf canonical req c
     then Respond (Json 400 "Cannot deactivate your own account")
     else
       match params_id req ≫= (λ id, (id,.) <$> Users (store acc) !! id) with
       | None => Respond (Json 404 "User not found")
       | Some (id, u) =>
           Next (Json 200 "User deactivated successfully",
                 updateAccount id (set_isActive false u) acc)
       end).

(** The value of [isActive] in the body of the bulk route, among those
    [isBoolean()] lets through: a boolean, the number 1 or 0, or one of
    the strings 'true', '1', 'false' and '0'. [b] is the boolean the
    value stands for. *)
Inductive Flag :=
| JsonBool (b : bool)
| JsonNumber (b : bool)
| JsonString (b : bool).

(** The value as a condition, in [!isActive] and in
    [isActive ? 'activated' : 'deactivated']: a string that is not empty
    counts as true. *)
Definition truthy (flag : Flag) : bool :=
  match flag with
  | JsonBool b => b
  | JsonNumber b => b
  | JsonString _ => true
  end.

(** The value as the schema casts it in [$set: { isActive }]. *)
Definition cast (flag : Flag) : bool :=
  match flag with
  | JsonBool b => b
  | JsonNumber b => b
  | JsonString b => b
  end.

(** The answer of the bulk route: a refusal, or the message built from
    the flag and [result.modifiedCount]. *)
Inductive BulkAnswer :=
| Refused (r : Response)
| Updated (activated : bool) (modifiedCount : nat).

(** [User.find({ _id: { $in: userIds }, role: 'admin' })] *)
Definition adminsAmong (userIds : list ObjectId) (db : Db) : gmap ObjectId User.t :=
  filter (λ kv, kv.1 ∈ userIds ∧ User.role kv.2 = User.admin) (Users db).

(** [User.updateMany({ _id: { $in: userIds } }, { $set: { isActive } })]:
    the documents after it. *)
Definition updateMany (userIds : list ObjectId) (flag : bool)
  (users : gmap ObjectId User.t) : gmap ObjectId User.t :=
  (set_isActive flag <$> filter (λ kv, kv.1 ∈ userIds) users) ∪ users.

(** [result.modifiedCount]. The schema has [timestamps], so the update
    sets [updatedAt] beside the flag and modifies every document it
    matches. *)
Definition modifiedCount (userIds : list ObjectId) (users : gmap ObjectId User.t)
  : nat :=
  size (filter (λ kv, kv.1 ∈ userIds) users).

(** [POST /api/users/bulk/update-status]; no hook runs on
    [updateMany]. *)
Definition bulkUpdateStatus (req : Request) (userIds : list ObjectId)
  (flag : Flag) (acc : Accounts) : BulkAnswer * Accounts :=
  match (c ← auth req (store acc); requireAdmin c) with
  | Respond r => (Refused r, acc)
  | Next _ =>
      match userIds with
      | [] => (Refused (Json 400 "User IDs array is required"), acc)
      | _ =>
          if negb (truthy flag)
             && negb (bool_decide (adminsAmong userIds (store acc) = ∅))
          then (Refused (Json 400 "Cannot deactivate admin accounts"), acc)
          else (Updated (truthy flag) (modifiedCount userIds (Users (store acc))),
                mkAccounts
                  (mkDb (Events (store acc)) (Registrations (store acc))
                        (updateMany userIds (cast flag) (Users (store acc))))
                  (permissions acc))
      end
  end.

End Users.

(** ** models/Event.js: the finders by status *)

Module Finders.

(** The statics [findUpcoming], [findOngoing] and [findCompleted], each
    with its own [new Date()]: the documents the query matches. The
    order given by [sort] is not modelled. *)
Definition findUpcoming (now : Date) (db : Db) : gmap ObjectId Event.t :=
  filter (λ kv, now < Event.startDate kv.2
                ∧ Event.status kv.2 = Event.Upcoming
                ∧ Event.isActive kv.2 = true) (Events db).

Definition findOngoing (now : Date) (db : Db) : gmap ObjectId Event.t :=
  filter (λ kv, Event.startDate kv.2 <= now
                ∧ now <= Event.endDate kv.2
                ∧ Event.status kv.2 = Event.Live
                ∧ Event.isActive kv.2 = true) (Events db).

Definition findCompleted (now : Date) (db : Db) : gmap ObjectId Event.t :=
  filter (λ kv, Event.endDate kv.2 < now
                ∧ Event.status kv.2 = Event.Past
                ∧ Event.isActive kv.2 = true) (Events db).

End Finders.

(** ** The status names the routes compare with *)

(** The stored string of a status: the schema's
    [enum: ['Past', 'Upcoming', 'Live']]. *)
Definition statusName (s : Event.Status) : string :=
  match s with
  | Event.Past => "Past"
  | Event.Upcoming => "Upcoming"
  | Event.Live => "Live"
  end.

(** The enum validator of [status], as [save()] runs it: the status a
    string names, if any. *)
Definition parseStatus (s : string) : option Event.Status :=
  if bool_decide (s = "Past") then Some Event.Past
  else if bool_decide (s = "Upcoming") then Some Event.Upcoming
  else if bool_decide (s = "Live") then Some Event.Live
  else None.

(** [GET /api/events/featured/current]: the documents its query
    matches; the answer is the first six of them in the order of the
    sort. *)
Definition featuredQuery (now : Date) (db : Db) : gmap ObjectId Event.t :=
  filter (λ kv, Event.isActive kv.2 = true
                ∧ statusName (Event.status kv.2) ∈ ["published"; "ongoing"; "upcoming"]
                ∧ now <= Event.endDate kv.2) (Events db).

(** [GET /api/events/completed]: the [total] of its pagination, counted
    by a query of its own beside [findCompleted]. *)
Definition completedTotal (now : Date) (db : Db) : nat :=
  size (filter (λ kv, Event.endDate kv.2 < now
                      ∧ statusName (Event.status kv.2) ∈ ["published"; "completed"]
                      ∧ Event.isActive kv.2 = true) (Events db)).

(** [POST /api/events/:id/publish]: [event.status = 'published'] and
    [save()], which validates the new value against the enum and throws
    for a name outside it. *)
Definition publishRoute (req : Request) (db : Db) : Response * Db :=
  run db (c ← auth req db;
          _ ← requireOwnershipOrAdmin c req db;
          match params_id req ≫= (λ id, (id,.) <$> Events db !! id) with
          | None => Respond (Json 404 "Event not found")
          | Some (eid, e) =>
              if bool_decide (statusName (Event.status e) = "published")
              then Respond (Json 400 "Event is already published")
              else
                match parseStatus "published" with
                | None => Respond (Json 500 "Server error publishing event")
                | Some s =>
                    Next (Json 200 "Event published successfully",
                          saveEvent eid (Event.set_status s e) db)
                end
          end).

(** ** models/Feedback.js and the submission route of routes/feedback.js *)

Module Feedback.

Record Categories := mkCategories {
  content : Z;
  organization : Z;
  venue : Z;
  overall : Z
}.

Record t := mk {
  _id : ObjectId;
  event : ObjectId;
  participant : ObjectId;
  registration : ObjectId;
  rating : Z;
  comments : string;
  categories : Categories;
  suggestions : option string;
  isAnonymous : bool;
  isApproved : bool;
  isPublic : bool
}.

(** The body of a submission. [eventId] is [None] when the string sent
    is not a Mongo identifier; [comments] and [suggestions] hold the
    strings as [trim()] leaves them, [isAnonymous] the boolean the schema
    casts the value to. *)
Record Body := mkBody {
  b_eventId : option ObjectId;
  b_rating : Z;
  b_comments : string;
  b_categories : Categories;
  b_suggestions : option string;
  b_isAnonymous : option bool
}.

(** [Feedback.findOne({ event, participant })] *)
Definition findOne (ev u : ObjectId) (l : list t) : option t :=
  List.find (λ f, bool_decide (event f = ev) && bool_decide (participant f = u)) l.

Definition freshId (l : list t) : ObjectId :=
  S (foldr (λ f m, Nat.max (_id f) m) 0%nat l).

(** What the route answers: a response of the usual shape, the array of
    validation errors, or the feedback created. *)
Inductive Answer :=
| Plain (r : Response)
| Errors (messages : list string)
| Created (f : t).

(** [Registration.findOne({ event, participant, status: 'confirmed',
    attended: true })] *)
Definition attendedRegistration (ev u : ObjectId) (l : list Registration.t)
  : option Registration.t :=
  List.find (λ r, bool_decide (Registration.event r = ev)
                  && bool_decide (Registration.participant r = u)
                  && bool_decide (Registration.status r = Registration.confirmed)
                  && Registration.attended r) l.

(** [POST /api/feedback]. [errors] is the array [validationResult(req)]
    gives for the body, the messages of the validators of the chain that
    failed. An [eventId] that is no identifier makes [findById] throw
    into the catch block. *)
Definition postFeedback (req : Request) (errors : list string) (b : Body) (db : Db)
  (feedbacks : list t) : Answer * list t :=
  match auth req db with
  | Respond r => (Plain r, feedbacks)
  | Next c =>
      match errors, b_eventId b with
      | _ :: _, _ => (Errors errors, feedbacks)
      | [], None => (Plain (Json 404 "Event not found"), feedbacks)
      | [], Some eid =>
          match Events db !! eid with
          | None => (Plain (Json 404 "Event not found or inactive"), feedbacks)
          | Some e =>
              if negb (Event.isActive e)
              then (Plain (Json 404 "Event not found or inactive"), feedbacks)
              else if negb (bool_decide (statusName (Event.status e) = "completed"))
              then (Plain (Json 400 "Feedback can only be submitted for completed events"),
                    feedbacks)
              else
                match attendedRegistration eid c.1 (Registrations db) with
                | None =>
                    (Plain (Json 400 "You must attend the event to submit feedback"),
                     feedbacks)
                | Some r =>
                    match findOne eid c.1 feedbacks with
                    | Some _ =>
                        (Plain (Json 400
                                  "You have already submitted feedback for this event"),
                         feedbacks)
                    | None =>
                        let f := mk (freshId feedbacks) eid c.1 (Registration._id r)
                                   (b_rating b) (b_comments b) (b_categories b)
                                   (b_suggestions b)
                                   (default false (b_isAnonymous b)) false true in
                        (Created f, feedbacks ++ [f])
                    end
                end
          end
      end
  end.

End Feedback.

(** ** routes/auth.js: login and the update of a user *)

Module Auth.

(** [POST /api/auth/login]. [found] is the user [findOne({ email })]
    gives, [passwordOk] the result of [comparePassword]. *)
Definition login (found : option ObjectId) (passwordOk : bool) (acc : Accounts)
  : Response * Accounts :=
  match found ≫= (λ uid, (uid,.) <$> Users (store acc) !! uid) with
  | None => (Json 400 "Invalid credentials", acc)
  | Some (uid, u) =>
      if negb (User.isActive u) then (Json 400 "Account is deactivated", acc)
      else if negb passwordOk then (Json 400 "Invalid credentials", acc)
      else (Json 200 "Login successful", Users.saveAccount uid u acc)
  end.

(** A [role] in the body of [PUT /api/auth/users/:id]: a name of the
    schema's enum, 'coordinator', which the validation chain of the
    route lets through, or anything else. *)
Inductive BodyRole := Named (r : User.Role) | Coordinator | Unlisted.

#[global] Instance BodyRole_eq_dec : EqDecision BodyRole.
Proof. solve_decision. Defined.

(** What a body carries for [permissions]: nothing, the key
    [permissions] with an object, whose absent members the document
    reads as false, or keys of the form ['permissions.canManageUsers']
    for single members, [None] being an absent one. A body with keys of
    both forms is not modelled. *)
Inductive PermissionKeys :=
| Absent
| Whole (p : Permissions.t)
| Members (canCreateEvents canManageUsers canManageFaculty canViewAnalytics
           canManageFeedback : option bool).

(** The stored permissions after [$set] with these keys. *)
Definition write (k : PermissionKeys) (p : Permissions.t) : Permissions.t :=
  match k with
  | Absent => p
  | Whole q => q
  | Members a b c d e =>
      Permissions.mk
        (default (Permissions.canCreateEvents p) a)
        (default (Permissions.canManageUsers p) b)
        (default (Permissions.canManageFaculty p) c)
        (default (Permissions.canViewAnalytics p) d)
        (default (Permissions.canManageFeedback p) e)
  end.

Definition setPermissions (id : ObjectId) (k : PermissionKeys) (acc : Accounts)
  : gmap ObjectId Permissions.t :=
  match k with
  | Absent => permissions acc
  | _ => <[id := write k (permissionsOf id acc)]> (permissions acc)
  end.

(** The keys of the body that name a modelled field, [isActive] as the
    boolean the schema casts it to; [None] is an absent key. The route
    passes the whole body to [$set]. *)
Record Body := mkBody {
  isActive : option bool;
  role : option BodyRole;
  permissions : PermissionKeys;
  participatedEvents : option (list (ObjectId * Participant.Status))
}.

(** The role a body assigns, when the enum of the schema has it. *)
Definition named (updates : Body) : option User.Role :=
  match role updates with
  | Some (Named r) => Some r
  | _ => None
  end.

(** [{ $set: updates }] on the fields of the document found that the
    store holds. *)
Definition set (updates : Body) (u : User.t) : User.t :=
  let u1 := from_option (λ b, Users.set_isActive b u) u (isActive updates) in
  let u2 := from_option (λ r, Users.set_role r u1) u1 (named updates) in
  from_option (λ l, User.set_participatedEvents l u2) u2 (participatedEvents updates).

(** [User.findByIdAndUpdate(id, { $set: updates })]: no hook runs, and
    the permissions are written where the body names them. *)
Definition update (id : ObjectId) (updates : Body) (u : User.t) (acc : Accounts)
  : Accounts :=
  mkAccounts (Users.saveUser id (set updates u) (store acc))
    (setPermissions id (permissions updates) acc).

(** [PUT /api/auth/users/:id]. The update runs with [runValidators], so
    a role outside the enum of the schema throws before any document is
    written. *)
Definition putUser (req : Request) (body : Body) (acc : Accounts)
  : Response * Accounts :=
  match auth req (store acc) with
  | Respond r => (r, acc)
  | Next c =>
      if negb (Permissions.can (permissionsOf c.1 acc) "manage:users")
         && negb (bool_decide (User.role c.2 = User.admin))
      then (Json 403 "You do not have permission to update users", acc)
      else if bool_decide (role body = Some Unlisted)
      then (Json 400 "Invalid value", acc)
      else if bool_decide (role body = Some (Named User.admin))
              && negb (bool_decide (User.role c.2 = User.admin))
      then (Json 403 "Only admins can assign admin role", acc)
      else if bool_decide (role body = Some Coordinator)
      then (Json 500 "Server error updating user", acc)
      else
        match params_id req ≫= (λ id, (id,.) <$> Users (store acc) !! id) with
        | None => (Json 404 "User not found", acc)
        | Some (id, u) =>
            (Json 200 "User updated successfully", update id body u acc)
        end
  end.

End Auth.

(** ** routes/registrations.js: the reading routes of an event *)

#[global] Instance Kind_eq_dec : EqDecision Registration.Kind.t.
Proof. solve_decision. Defined.

Module Ledger.

(** The access test both routes make after [auth] and [requireFaculty]:
    the event of [req.params.eventId] exists, and the caller created it
    or is an admin. *)
Definition access (req : Request) (db : Db) (denied : string)
  : Outcome (ObjectId * Event.t) :=
  c ← auth req db;
  _ ← requireFaculty c;
  match params_eventId req ≫= (λ id, (id,.) <$> Events db !! id) with
  | None => Respond (Json 404 "Event not found")
  | Some (eid, e) =>
      if negb (bool_decide (Event.createdBy e = c.1))
         && negb (bool_decide (User.role c.2 = User.admin))
      then Respond (Json 403 denied)
      else Next (eid, e)
  end.

(** [{ event: eventId }], with [status] when the query string has it. *)
Definition matches (eid : ObjectId) (status : option Registration.Status)
  (r : Registration.t) : bool :=
  bool_decide (Registration.event r = eid)
  && from_option (λ s, bool_decide (Registration.status r = s)) true status.

(** [sort({ registrationDate: -1 })]: insertion sort, the latest first.
    Documents of one date come out in the reverse of their order in the
    collection; the database promises no order among them. *)
Fixpoint insertByDate (r : Registration.t) (l : list Registration.t)
  : list Registration.t :=
  match l with
  | [] => [r]
  | x :: l' =>
      if Registration.registrationDate x <? Registration.registrationDate r
      then r :: x :: l'
      else x :: insertByDate r l'
  end.

Definition sortByDate (l : list Registration.t) : list Registration.t :=
  foldr insertByDate [] l.

(** [Registration.find(filter).sort(...)] *)
Definition found (eid : ObjectId) (status : option Registration.Status) (db : Db)
  : list Registration.t :=
  sortByDate (List.filter (matches eid status) (Registrations db)).

Record Page := mkPage {
  registrations : list Registration.t;
  currentPage : positive;
  totalPages : nat;
  totalRegistrations : nat;
  hasNext : bool;
  hasPrev : bool
}.

Inductive Listing :=
| NoListing (r : Response)
| Listed (p : Page).

(** [Math.ceil(total / limit)] *)
Definition ceilDiv (total : nat) (limit : positive) : nat :=
  Nat.div (total + Pos.to_nat limit - 1) (Pos.to_nat limit).

(** [GET /api/registrations/event/:eventId], for [page] and [limit] of
    the query string that parse to positive integers. *)
Definition eventRegistrations (req : Request) (page limit : positive)
  (status : option Registration.Status) (db : Db) : Listing :=
  match access req db "Not authorized to view this event's registrations" with
  | Respond r => NoListing r
  | Next (eid, _) =>
      let skip := ((Pos.to_nat page - 1) * Pos.to_nat limit)%nat in
      let all := found eid status db in
      let rs := take (Pos.to_nat limit) (drop skip all) in
      let total := length all in
      Listed (mkPage rs page (ceilDiv total limit) total
                (bool_decide (skip + length rs < total)%nat)
                (bool_decide (1 < Pos.to_nat page)%nat))
  end.

(** The documents of a page, none when the route refuses. *)
Definition pageOf (l : Listing) : list Registration.t :=
  match l with
  | NoListing _ => []
  | Listed p => registrations p
  end.

(** [$group: { _id: key, count: { $sum: 1 } }]: one document for each
    value that occurs, taken here in the order of [values]. *)
Definition groupBy {A} `{EqDecision A} (key : Registration.t → A)
  (values : list A) (l : list Registration.t) : list (A * nat) :=
  List.filter (λ kc, negb (Nat.eqb kc.2 0))
    ((λ v, (v, length (List.filter (λ r, bool_decide (key r = v)) l))) <$> values).

(** The statistics answered, the department breakdown apart. *)
Record Stats := mkStats {
  statsTotal : nat;
  statusBreakdown : list (Registration.Status * nat);
  typeBreakdown : list (Registration.Kind.t * nat);
  maxParticipants : Z;
  currentParticipants : Z
}.

Inductive StatsAnswer :=
| NoStats (r : Response)
| Counted (s : Stats).

(** [$match: { event: event._id, isActive: true }] *)
Definition activeOf (eid : ObjectId) (l : list Registration.t)
  : list Registration.t :=
  List.filter (λ r, bool_decide (Registration.event r = eid) && Registration.isActive r) l.

(** [stats.reduce((sum, stat) => sum + stat.count, 0)] *)
Definition sumCounts {A} (l : list (A * nat)) : nat :=
  fold_left (λ sum stat, (sum + stat.2)%nat) l 0%nat.

(** [GET /api/registrations/stats/event/:eventId] *)
Definition eventStats (req : Request) (db : Db) : StatsAnswer :=
  match access req db "Not authorized to view this event's statistics" with
  | Respond r => NoStats r
  | Next (eid, e) =>
      let active := activeOf eid (Registrations db) in
      let stats :=
        groupBy Registration.status
          [Registration.pending; Registration.confirmed; Registration.rejected;
           Registration.cancelled] active in
      let typeStats :=
        groupBy Registration.registrationType
          [Registration.Kind.participant; Registration.Kind.coordinator] active in
      Counted (mkStats (sumCounts stats) stats typeStats
                 (Event.maxParticipants e) (Event.currentParticipants e))
  end.

End Ledger.

(** ** routes/events.js: the update of an event *)

Module EventUpdate.

(** The keys of the body that name a modelled field of the document;
    [None] is an absent key. The route passes the whole body to [$set]. *)
Record Body := mkBody {
  startDate : option Date;
  endDate : option Date;
  maxParticipants : option Z;
  currentParticipants : option Z;
  registrationDeadline : option Date;
  status : option string;
  isActive : option bool;
  createdBy : option ObjectId;
  organizers : option (list ObjectId);
  moderators : option (list ObjectId);
  participants : option (list Participant.t);
  views : option Z;
  registrations : option Z;
  attendance : option Z
}.

Definition empty : Body :=
  mkBody None None None None None None None None None None None None None None.

(** [{ $set: req.body }] on the document found, [s] being the status the
    body names, if it has one. *)
Definition set (b : Body) (s : option Event.Status) (e : Event.t) : Event.t :=
  Event.mk
    (default (Event.startDate e) (startDate b))
    (default (Event.endDate e) (endDate b))
    (default (Event.maxParticipants e) (maxParticipants b))
    (default (Event.currentParticipants e) (currentParticipants b))
    (from_option Some (Event.registrationDeadline e) (registrationDeadline b))
    (default (Event.status e) s)
    (default (Event.isActive e) (isActive b))
    (default (Event.createdBy e) (createdBy b))
    (default (Event.organizers e) (organizers b))
    (default (Event.moderators e) (moderators b))
    (default (Event.participants e) (participants b))
    (default (Event.views e) (views b))
    (default (Event.registrations e) (registrations b))
    (default (Event.attendance e) (attendance b)).

(** [PUT /api/events/:id]: after [auth] and [requireOwnershipOrAdmin]
    the validation chain, of which [maxParticipants] reaches a modelled
    field, then [findByIdAndUpdate] with [runValidators], which throws
    for a status outside the enum. *)
Definition putEvent (req : Request) (b : Body) (db : Db) : Response * Db :=
  run db (c ← auth req db;
          _ ← requireOwnershipOrAdmin c req db;
          if from_option (λ m, m <? 0) false (maxParticipants b)
          then Respond (Json 400 "Max participants must be a positive number")
          else
            match status b, status b ≫= parseStatus with
            | Some _, None => Respond (Json 500 "Server error updating event")
            | _, s =>
                match params_id req ≫= (λ id, (id,.) <$> Events db !! id) with
                | None => Respond (Json 404 "Event not found")
                | Some (eid, e) =>
                    Next (Json 200 "Event updated successfully",
                          saveEvent eid (set b s e) db)
                end
            end).

(** Bodies of one key. *)
Definition withIsActive (flag : bool) : Body :=
  mkBody None None None None None None (Some flag) None None None None None None None.

Definition withCurrentParticipants (n : Z) : Body :=
  mkBody None None None (Some n) None None None None None None None None None None.

End EventUpdate.

(** * Properties *)

(** ** The caller of a request *)

Section Store.

Context (db : Db).

(** What [auth] attaches for a caller it lets through. *)
Lemma callerId_auth req uid :
  callerId req db = Some uid →
  ∃ u, auth req db = Next (uid, u) ∧ Users db !! uid = Some u.
Proof.
  unfold callerId, auth. destruct (token req) as [| |v]; try discriminate.
  destruct (Users db !! v) as [u|] eqn:Hu; try discriminate.
  destruct (negb (User.isActive u)); try discriminate.
  simpl. intros [= <-]. eauto.
Qed.

(** The token decides the caller: two requests with one token are
    served for the same user. *)
Lemma callerId_same_token req req' :
  token req' = token req → callerId req' db = callerId req db.
Proof. unfold callerId, auth. by intros ->. Qed.

(** A user update that keeps [isActive] keeps every caller. *)
Lemma callerId_updateUser req id f :
  (∀ u, User.isActive (f u) = User.isActive u) →
  callerId req (updateUser id f db) = callerId req db.
Proof.
  intros Hf. unfold callerId, auth, updateUser. simpl.
  destruct (token req) as [| |v]; try reflexivity.
  rewrite lookup_alter. case_decide as Hv.
  - subst v. destruct (Users db !! id) as [u|]; simpl; [|reflexivity].
    rewrite Hf. by destruct (User.isActive u).
  - reflexivity.
Qed.

End Store.

Lemma countOf_saveEvent id e db :
  countOf id (saveEvent id e db) = Some (Event.currentParticipants e).
Proof. unfold countOf, saveEvent. simpl. by rewrite lookup_insert_eq. Qed.

(** ** Lists: [find], [filter] and [save] *)


Lemma find_is_user_None u ps :
  List.find (Participant.is_user u) ps = None ↔
  u ∉ Participant.userId <$> ps.
Proof.
  induction ps as [|p ps IH]; simpl.
  - split; [intros _; apply not_elem_of_nil | done].
  - unfold Participant.is_user at 1. case_bool_decide as Hp.
    + split; [done|]. intros Hn. exfalso. apply Hn. subst u. left.
    + rewrite IH, not_elem_of_cons. naive_solver.
Qed.

Lemma find_is_user_app u ps qs :
  List.find (Participant.is_user u) ps = None →
  List.find (Participant.is_user u) (ps ++ qs) = List.find (Participant.is_user u) qs.
Proof.
  induction ps as [|p ps IH]; simpl; [done|].
  destruct (Participant.is_user u p); [done|]. exact IH.
Qed.

Lemma find_filter_other u ps :
  List.find (Participant.is_user u) (filter (λ p, Participant.userId p ≠ u) ps) = None.
Proof.
  apply find_is_user_None. intros Hin.
  apply list_elem_of_fmap in Hin as (p & -> & Hp).
  apply list_elem_of_filter in Hp as [Hne _]. by apply Hne.
Qed.

Lemma filter_absent u ps :
  List.find (Participant.is_user u) ps = None →
  filter (λ p, Participant.userId p ≠ u) ps = ps.
Proof.
  induction ps as [|p ps IH]; simpl; [done|].
  unfold Participant.is_user at 1. case_bool_decide as Hp; [done|].
  intros Hf. rewrite filter_cons_True by done. by rewrite IH.
Qed.

Lemma findById_id id l r :
  Registration.findById id l = Some r → Registration._id r = id.
Proof.
  unfold Registration.findById. intros H. apply find_some in H as [_ H].
  by apply bool_decide_eq_true in H.
Qed.

Lemma findById_save id l r r' :
  Registration.findById id l = Some r →
  Registration._id r' = id →
  Registration.findById id (Registration.save r' l) = Some r'.
Proof.
  unfold Registration.findById, Registration.save. intros H <-.
  induction l as [|x l IH]; simpl in *; [discriminate|].
  case_bool_decide as Hx; simpl.
  - by rewrite bool_decide_eq_true_2.
  - rewrite bool_decide_eq_false_2 by done. auto.
Qed.

(** ** The roster routes, step by step *)

Lemma registerRoute_accepts now req db uid eid e :
  callerId req db = Some uid →
  params_eventId req = Some eid →
  Events db !! eid = Some e →
  Event.canUserRegister now uid e = true →
  registerRoute now req db =
    (Json 200 "Successfully registered for event",
     updateUser uid (User.pushParticipated eid)
       (saveEvent eid
          (Event.set_registrations (Event.registrations e + 1)
             (Event.set_currentParticipants (Event.currentParticipants e + 1)
                (Event.set_participants
                   (Event.participants e ++ [Participant.fresh uid now]) e)))
          db)).
Proof.
  intros Hc Hp He Hcan. apply callerId_auth in Hc as (u & Ha & _).
  unfold registerRoute, canParticipateInEvent, registerHandler, Event.registerUser.
  rewrite Ha. simpl. rewrite Hp, He, Hcan. simpl. by rewrite Hcan.
Qed.

Lemma registerRoute_refuses now req db uid eid e :
  callerId req db = Some uid →
  params_eventId req = Some eid →
  Events db !! eid = Some e →
  Event.canUserRegister now uid e = false →
  registerRoute now req db = (Json 400 "Cannot register for this event", db).
Proof.
  intros Hc Hp He Hcan. apply callerId_auth in Hc as (u & Ha & _).
  unfold registerRoute, canParticipateInEvent.
  rewrite Ha. simpl. by rewrite Hp, He, Hcan.
Qed.

Lemma unregisterRoute_accepts req db uid eid e p :
  callerId req db = Some uid →
  params_eventId req = Some eid →
  Events db !! eid = Some e →
  Event.findParticipant uid e = Some p →
  unregisterRoute req db =
    (Json 200 "Successfully unregistered from event",
     updateUser uid (User.pullParticipated eid)
       (saveEvent eid
          (Event.set_registrations (Event.registrations e - 1)
             (Event.set_currentParticipants (Event.currentParticipants e - 1)
                (Event.set_participants
                   (filter (λ p, Participant.userId p ≠ uid) (Event.participants e))
                   e)))
          db)).
Proof.
  intros Hc Hp He Hf. apply callerId_auth in Hc as (u & Ha & _).
  unfold unregisterRoute, isRegisteredForEvent, unregisterHandler.
  rewrite Ha. simpl. by rewrite Hp, He, Hf.
Qed.

(** Neither roster route writes the ledger. *)
Lemma registerRoute_ledger now req db :
  Registrations (registerRoute now req db).2 = Registrations db.
Proof.
  unfold registerRoute, canParticipateInEvent, registerHandler.
  destruct (auth req db) as [r|c]; simpl; [done|].
  destruct (params_eventId req) as [eid|]; simpl; [|done].
  destruct (Events db !! eid) as [e|]; simpl; [|done].
  destruct (negb (Event.canUserRegister now c.1 e)); simpl; [done|].
  by destruct (Event.registerUser now c.1 e).
Qed.

Lemma unregisterRoute_ledger req db :
  Registrations (unregisterRoute req db).2 = Registrations db.
Proof.
  unfold unregisterRoute, isRegisteredForEvent, unregisterHandler.
  destruct (auth req db) as [r|c]; simpl; [done|].
  destruct (params_eventId req) as [eid|]; simpl; [|done].
  destruct (Events db !! eid) as [e|]; simpl; [|done].
  by destruct (Event.findParticipant c.1 e).
Qed.

(** ** The checks of [canUserRegister] *)

Lemma isRegistrationOpen_true now e :
  Event.isRegistrationOpen now e = true ↔
  ∃ d, Event.registrationDeadline e = Some d ∧ now < d ∧ Event.status e = Event.Live.
Proof.
  unfold Event.isRegistrationOpen.
  destruct (Event.registrationDeadline e) as [d|].
  - rewrite andb_true_iff, Z.ltb_lt, bool_decide_eq_true. naive_solver.
  - naive_solver.
Qed.

Lemma isFull_true e :
  Event.isFull e = true ↔
  0 < Event.maxParticipants e ∧ Event.maxParticipants e <= Event.currentParticipants e.
Proof. unfold Event.isFull. by rewrite andb_true_iff, Z.ltb_lt, Z.leb_le. Qed.

(** Room in the words of the specification: no limit, or the counter
    below the limit. *)
Lemma isFull_false_room e :
  Event.maxParticipants e = 0 ∨ Event.currentParticipants e < Event.maxParticipants e →
  Event.isFull e = false.
Proof.
  intros H. apply not_true_is_false. rewrite isFull_true. lia.
Qed.

Lemma canUserRegister_true now u e :
  Event.canUserRegister now u e = true ↔
  Event.findParticipant u e = None ∧
  Event.isRegistrationOpen now e = true ∧
  Event.isFull e = false.
Proof.
  unfold Event.canUserRegister.
  destruct (Event.findParticipant u e); [naive_solver|].
  destruct (Event.isRegistrationOpen now e); simpl; [|naive_solver].
  destruct (Event.isFull e); naive_solver.
Qed.

(** ** The unregistration route *)

(** Claim C10. For a user with an active ledger registration for the
    event, the unregistration route, whatever the request it is given,
    leaves the ledger the list it was: the registration is found after
    the call as before it, with its status and with [isActive] still
    true. A request that comes through the router carries the event in
    [params.id] and none in [params.eventId], and the whole store is
    left as it was. Where the middleware is given [params.eventId] and
    the caller has a roster entry, the handler answers 200, removes the
    entry and takes one off both counters, and the ledger is still the
    list it was. *)
Theorem unregister_leaves_ledger
  (db : Db) (req : Request) (uid eid : ObjectId) (r : Registration.t) :
  Registration.findOne eid uid (Registrations db) = Some r →
  Registration.isActive r = true →
  let s := unregisterRoute req db in
  Registrations s.2 = Registrations db ∧
  (∃ r', Registration.findOne eid uid (Registrations s.2) = Some r' ∧
         r' = r ∧
         Registration.status r' = Registration.status r ∧
         Registration.isActive r' = true) ∧
  (params_eventId req = None → s.2 = db) ∧
  (∀ e p,
     callerId req db = Some uid →
     params_eventId req = Some eid →
     Events db !! eid = Some e →
     Event.findParticipant uid e = Some p →
     s.1 = Json 200 "Successfully unregistered from event" ∧
     ∃ e', Events s.2 !! eid = Some e' ∧
           Event.findParticipant uid e' = None ∧
           Event.currentParticipants e' = Event.currentParticipants e - 1 ∧
           Event.registrations e' = Event.registrations e - 1).
Proof.
  intros Hr Hact s.
  pose proof (unregisterRoute_ledger req db) as Hl. fold s in Hl.
  split; [exact Hl|]. split; [exists r; by rewrite Hl|]. split.
  - intros Hn. subst s. unfold unregisterRoute, isRegisteredForEvent.
    destruct (auth req db) as [x|c]; simpl; [done|]. by rewrite Hn.
  - intros e p Hc Hp He Hf.
    pose proof (unregisterRoute_accepts req db uid eid e p Hc Hp He Hf) as E.
    fold s in E. split; [by rewrite E|].
    rewrite E. simpl. eexists. split; [apply lookup_insert_eq|].
    split; [|done]. unfold Event.findParticipant. simpl. apply find_filter_other.
Qed.

Lemma unregister_leaves_ledger_witness :
  let s := unregisterRoute (withId (Decoded Sample.alice) 1%nat) Sample.both in
  (Registrations s.2 = Registrations Sample.both ∧
   ∃ r', Registration.findOne 1%nat Sample.alice (Registrations s.2) = Some r' ∧
         r' = Sample.pendingReg ∧
         Registration.status r' = Registration.pending ∧
         Registration.isActive r' = true) ∧
  s = (Json 400 "Event ID required", Sample.both).
Proof.
  split; [|reflexivity].
  destruct (unregister_leaves_ledger Sample.both
              (withId (Decoded Sample.alice) 1%nat) Sample.alice 1%nat
              Sample.pendingReg eq_refl eq_refl) as (H1 & H2 & _).
  split; [exact H1 | exact H2].
Defined.

(** The two ledger routes that take one off the counter stop at zero. *)
Lemma adjustCount_floor old new e :
  0 <= Event.currentParticipants e →
  0 <= Event.currentParticipants (adjustCount old new e).
Proof.
  intros H. unfold adjustCount.
  repeat case_match; simpl; lia.
Qed.

(** ** The ledger registration route *)


Lemma postRegistration_accepts now req db uid eid ty e :
  callerId req db = Some uid →
  Events db !! eid = Some e →
  Event.isActive e = true →
  Event.isFull e = false →
  deadlinePassed now e = false →
  Registration.findOne eid uid (Registrations db) = None →
  postRegistration now req eid ty db =
    (Json 201 "Registration successful",
     saveEvent eid
       (Event.set_currentParticipants (Event.currentParticipants e + 1) e)
       (setRegistrations
          (Registrations db ++
             [Registration.mk (Registration.freshId (Registrations db)) eid uid ty
                Registration.pending now false None true]) db)).
Proof.
  intros Hc He Ha Hfull Hd Hone. apply callerId_auth in Hc as (u & Hau & _).
  unfold postRegistration, Registration.create. rewrite Hau. simpl.
  by rewrite He, Ha, Hfull, Hd, Hone.
Qed.


Lemma deadlinePassed_true now e :
  deadlinePassed now e = true ↔
  ∃ d, Event.registrationDeadline e = Some d ∧ d < now.
Proof.
  unfold deadlinePassed. destruct (Event.registrationDeadline e) as [d|].
  - rewrite Z.ltb_lt. naive_solver.
  - naive_solver.
Qed.

(** The refusals of the ledger route, in the order of its checks. *)
Lemma postRegistration_missing now req db uid eid ty :
  callerId req db = Some uid →
  Events db !! eid = None ∨
  (∃ e, Events db !! eid = Some e ∧ Event.isActive e = false) →
  postRegistration now req eid ty db = (Json 404 "Event not found or inactive", db).
Proof.
  intros Hc H. apply callerId_auth in Hc as (u & Hau & _).
  unfold postRegistration. rewrite Hau. simpl.
  by destruct H as [-> | (e & -> & ->)].
Qed.

Lemma postRegistration_full now req db uid eid ty e :
  callerId req db = Some uid →
  Events db !! eid = Some e →
  Event.isActive e = true →
  Event.isFull e = true →
  postRegistration now req eid ty db = (Json 400 "Event is full", db).
Proof.
  intros Hc He Ha Hfull. apply callerId_auth in Hc as (u & Hau & _).
  unfold postRegistration. rewrite Hau. simpl. by rewrite He, Ha, Hfull.
Qed.

Lemma postRegistration_closed now req db uid eid ty e :
  callerId req db = Some uid →
  Events db !! eid = Some e →
  Event.isActive e = true →
  Event.isFull e = false →
  deadlinePassed now e = true →
  postRegistration now req eid ty db =
    (Json 400 "Registration deadline has passed", db).
Proof.
  intros Hc He Ha Hfull Hd. apply callerId_auth in Hc as (u & Hau & _).
  unfold postRegistration. rewrite Hau. simpl. by rewrite He, Ha, Hfull, Hd.
Qed.

Lemma postRegistration_duplicate now req db uid eid ty e r :
  callerId req db = Some uid →
  Events db !! eid = Some e →
  Event.isActive e = true →
  Event.isFull e = false →
  deadlinePassed now e = false →
  Registration.findOne eid uid (Registrations db) = Some r →
  postRegistration now req eid ty db =
    (Json 400 "Already registered for this event", db).
Proof.
  intros Hc He Ha Hfull Hd Hr. apply callerId_auth in Hc as (u & Hau & _).
  unfold postRegistration. rewrite Hau. simpl. by rewrite He, Ha, Hfull, Hd, Hr.
Qed.

(** Claim C5, refuted as stated. The event is active, its one place is
    taken and its deadline of 500 has passed at 600: the ledger route
    answers that the event is full, not that registration is closed. The
    roster route gives its one refusal, which names neither cause. *)
Lemma register_order_counterexample :
  let e := Event.set_currentParticipants 1 (Sample.event 1 Event.Live) in
  Events Sample.full !! 1%nat = Some e ∧
  Event.isActive e = true ∧
  Event.isFull e = true ∧
  deadlinePassed 600 e = true ∧
  (register 1%nat (ViaLedger 600 (Decoded Sample.alice) Registration.Kind.participant)
     Sample.full).1 = Json 400 "Event is full" ∧
  (register 1%nat (ViaRoster 600 (Decoded Sample.alice)) Sample.full).1
    = Json 400 "Cannot register for this event".
Proof. vm_compute. repeat split. Qed.

(** Claim C5, as amended. The ledger route checks, in this order: the
    event exists and is active (404), the event has room (400, 'Event is
    full'), the deadline has not passed (400, 'Registration deadline has
    passed'), the user has no registration for the event (400, 'Already
    registered for this event'). The first check that fails gives the
    answer and the store is left as it was; with none failing the answer
    is 201. An event that is full and past its deadline is answered as
    full. *)
Theorem register_order
  (db : Db) (req : Request) (uid eid : ObjectId) (now : Date)
  (ty : Registration.Kind.t) :
  callerId req db = Some uid →
  let s := postRegistration now req eid ty db in
  (Events db !! eid = None ∨
   (∃ e, Events db !! eid = Some e ∧ Event.isActive e = false) →
   s = (Json 404 "Event not found or inactive", db)) ∧
  (∀ e, Events db !! eid = Some e → Event.isActive e = true →
     (Event.isFull e = true → s = (Json 400 "Event is full", db)) ∧
     (Event.isFull e = false → deadlinePassed now e = true →
      s = (Json 400 "Registration deadline has passed", db)) ∧
     (Event.isFull e = false → deadlinePassed now e = false →
      is_Some (Registration.findOne eid uid (Registrations db)) →
      s = (Json 400 "Already registered for this event", db)) ∧
     (Event.isFull e = false → deadlinePassed now e = false →
      Registration.findOne eid uid (Registrations db) = None →
      s.1 = Json 201 "Registration successful")).
Proof.
  intros Hc s. subst s. split.
  - by apply postRegistration_missing with uid.
  - intros e He Ha. repeat split.
    + intros Hfull. by apply postRegistration_full with uid e.
    + intros Hfull Hd. by apply postRegistration_closed with uid e.
    + intros Hfull Hd [r Hr]. by apply postRegistration_duplicate with uid e r.
    + intros Hfull Hd Hone.
      by rewrite (postRegistration_accepts now req db uid eid ty e Hc He Ha Hfull Hd Hone).
Qed.

Lemma register_order_witness :
  postRegistration 600 (plain (Decoded Sample.alice)) 1%nat
    Registration.Kind.participant Sample.full
  = (Json 400 "Event is full", Sample.full) ∧
  postRegistration 600 (plain (Decoded Sample.alice)) 1%nat
    Registration.Kind.participant (Sample.db 0 Event.Live)
  = (Json 400 "Registration deadline has passed", Sample.db 0 Event.Live) ∧
  postRegistration 100 (plain (Decoded Sample.alice)) 1%nat
    Registration.Kind.participant Sample.withPending
  = (Json 400 "Already registered for this event", Sample.withPending) ∧
  (postRegistration 100 (plain (Decoded Sample.alice)) 1%nat
     Registration.Kind.participant (Sample.db 0 Event.Live)).1
  = Json 201 "Registration successful" ∧
  postRegistration 100 (plain (Decoded Sample.alice)) 2%nat
    Registration.Kind.participant Sample.full
  = (Json 404 "Event not found or inactive", Sample.full).
Proof.
  pose proof (λ db now eid,
                register_order db (plain (Decoded Sample.alice)) Sample.alice eid now
                  Registration.Kind.participant) as H.
  destruct (H Sample.full 600 1%nat eq_refl) as [_ H1].
  destruct (H1 (Event.set_currentParticipants 1 (Sample.event 1 Event.Live))
              eq_refl eq_refl) as (Hfull & _).
  destruct (H (Sample.db 0 Event.Live) 600 1%nat eq_refl) as [_ H2].
  destruct (H2 (Sample.event 0 Event.Live) eq_refl eq_refl) as (_ & Hclosed & _).
  destruct (H Sample.withPending 100 1%nat eq_refl) as [_ H3].
  destruct (H3 (Event.set_currentParticipants 1 (Sample.event 0 Event.Live))
              eq_refl eq_refl) as (_ & _ & Hdup & _).
  destruct (H (Sample.db 0 Event.Live) 100 1%nat eq_refl) as [_ H4].
  destruct (H4 (Sample.event 0 Event.Live) eq_refl eq_refl) as (_ & _ & _ & Hok).
  destruct (H Sample.full 100 2%nat eq_refl) as [Hmissing _].
  split; [apply Hfull; reflexivity|].
  split; [apply Hclosed; reflexivity|].
  split; [apply Hdup; [reflexivity | reflexivity | by eexists]|].
  split; [apply Hok; reflexivity|].
  apply Hmissing. by left.
Defined.
(** ** Capacity *)

(** A registration that succeeds, by either entry point, adds one to the
    counter of the event and leaves its limit and its [isActive]. *)
Lemma register_success_counts eid call db e :
  Events db !! eid = Some e →
  succeeded (register eid call db).1 = true →
  ∃ e', Events (register eid call db).2 !! eid = Some e' ∧
        Event.currentParticipants e' = Event.currentParticipants e + 1 ∧
        Event.maxParticipants e' = Event.maxParticipants e ∧
        Event.isActive e' = Event.isActive e.
Proof.
  intros He. destruct call as [now tok|now tok ty]; simpl.
  - unfold registerRoute, canParticipateInEvent, registerHandler, Event.registerUser.
    destruct (auth (withEventId tok eid) db) as [r|c] eqn:Ha; simpl.
    { unfold auth in Ha. repeat case_match; simplify_eq; done. }
    rewrite He.
    destruct (Event.canUserRegister now c.1 e) eqn:Hcan; simpl; [|done].
    rewrite Hcan. simpl. intros _. eexists. split; [apply lookup_insert_eq|done].
  - unfold postRegistration, Registration.create.
    destruct (auth (plain tok) db) as [r|c] eqn:Ha; simpl.
    { unfold auth in Ha. repeat case_match; simplify_eq; done. }
    rewrite He.
    destruct (Event.isActive e) eqn:Hact; simpl; [|done].
    destruct (Event.isFull e); simpl; [done|].
    destruct (deadlinePassed now e); simpl; [done|].
    destruct (Registration.findOne eid c.1 (Registrations db)) eqn:Hone; simpl; [done|].
    intros _. eexists. split; [apply lookup_insert_eq|done].
Qed.

Lemma registerAll_cons eid call calls db :
  registerAll eid (call :: calls) db =
    ((register eid call db).1 :: (registerAll eid calls (register eid call db).2).1,
     (registerAll eid calls (register eid call db).2).2).
Proof.
  simpl. destruct (register eid call db) as [r db1]. simpl.
  by destruct (registerAll eid calls db1).
Qed.

Lemma registerAll_counts eid calls : ∀ db e,
  Events db !! eid = Some e →
  Forall (λ r, succeeded r = true) (registerAll eid calls db).1 →
  ∃ e', Events (registerAll eid calls db).2 !! eid = Some e' ∧
        Event.currentParticipants e' =
          Event.currentParticipants e + Z.of_nat (length calls) ∧
        Event.maxParticipants e' = Event.maxParticipants e ∧
        Event.isActive e' = Event.isActive e.
Proof.
  induction calls as [|call calls IH]; intros db e He Hall.
  - simpl. exists e. repeat split; [done|lia].
  - rewrite registerAll_cons in *. simpl in Hall.
    apply Forall_cons in Hall as [H1 Hrest].
    destruct (register_success_counts eid call db e He H1) as (e1 & He1 & Hc1 & Hm1 & Ha1).
    destruct (IH _ e1 He1 Hrest) as (e' & He' & Hc' & Hm' & Ha').
    exists e'. simpl. repeat split; [done|lia|congruence|congruence].
Qed.

(** A call on a full event is refused, by the answer of its entry
    point, and changes nothing. *)
Lemma register_full eid call db e :
  Events db !! eid = Some e →
  Event.isActive e = true →
  Event.isFull e = true →
  is_Some (callerId (plain (callToken call)) db) →
  register eid call db = (fullResponse call, db).
Proof.
  intros He Ha Hfull [uid Hc]. destruct call as [now tok|now tok ty]; simpl in *.
  - apply (registerRoute_refuses now _ db uid eid e); [|done|done|].
    + by rewrite (callerId_same_token db (plain tok)).
    + apply not_true_is_false. rewrite canUserRegister_true.
      intros (_ & _ & H). congruence.
  - by apply postRegistration_full with uid e.
Qed.

(** Claim C7. An active event with a limit of N > 0 and a counter that
    is not negative: after N registrations that all succeeded, by either
    entry point and with no other call in between, the registration of
    any further authenticated user is refused for lack of room (the
    ledger route says 'Event is full', the roster route gives its one
    refusal) and changes nothing. An event with a limit of 0 is never
    full, whatever its counter: the ledger route never answers 'Event is
    full', and the roster route refuses only a user already on the
    roster or a closed registration. *)
Theorem capacity_limit (db : Db) (eid : ObjectId) (e : Event.t) :
  Events db !! eid = Some e →
  (Event.isActive e = true →
   0 < Event.maxParticipants e →
   0 <= Event.currentParticipants e →
   ∀ (calls : list RegisterCall) (next : RegisterCall),
     Z.of_nat (length calls) = Event.maxParticipants e →
     let s := registerAll eid calls db in
     Forall (λ r, succeeded r = true) s.1 →
     is_Some (callerId (plain (callToken next)) s.2) →
     register eid next s.2 = (fullResponse next, s.2)) ∧
  (Event.maxParticipants e = 0 →
   Event.isFull e = false ∧
   (∀ call, (register eid call db).1 ≠ Json 400 "Event is full") ∧
   (∀ now u, Event.canUserRegister now u e = false →
      is_Some (Event.findParticipant u e) ∨ Event.isRegistrationOpen now e = false)).
Proof.
  intros He. split.
  - intros Ha Hmax Hcp calls next Hlen s Hall Hnext.
    destruct (registerAll_counts eid calls db e He Hall) as (e' & He' & Hc' & Hm' & Ha').
    apply (register_full eid next s.2 e'); [done|congruence| |done].
    apply isFull_true. lia.
  - intros Hmax.
    assert (Hfull : Event.isFull e = false) by (apply isFull_false_room; by left).
    split; [done|]. split.
    + intros [now tok|now tok ty]; simpl.
      * unfold registerRoute, canParticipateInEvent, registerHandler.
        destruct (auth (withEventId tok eid) db) as [r|c] eqn:Hau; simpl.
        { unfold auth in Hau. repeat case_match; simplify_eq; done. }
        rewrite He.
        destruct (negb (Event.canUserRegister now c.1 e)); simpl; [discriminate|].
        destruct (Event.registerUser now c.1 e); simpl; discriminate.
      * unfold postRegistration.
        destruct (auth (plain tok) db) as [r|c] eqn:Hau; simpl.
        { unfold auth in Hau. repeat case_match; simplify_eq; done. }
        rewrite He, Hfull.
        destruct (negb (Event.isActive e)); simpl; [discriminate|].
        destruct (deadlinePassed now e); simpl; [discriminate|].
        destruct (Registration.findOne eid c.1 (Registrations db)); simpl; [discriminate|].
        destruct (Registration.create eid c.1 ty now (Registrations db)) as [[? ?]|];
          simpl; discriminate.
    + intros now u Hcan.
      destruct (Event.findParticipant u e) as [p|] eqn:Hf; [left; by eexists|].
      right. apply not_true_is_false. intros Hopen.
      assert (Event.canUserRegister now u e = true)
        by (by apply canUserRegister_true).
      congruence.
Qed.

Lemma capacity_limit_witness :
  let calls := [ViaRoster 100 (Decoded Sample.alice);
                ViaLedger 100 (Decoded Sample.bob) Registration.Kind.participant] in
  let s := registerAll 1%nat calls (Sample.db 2 Event.Live) in
  register 1%nat (ViaLedger 100 (Decoded Sample.carol) Registration.Kind.participant) s.2
    = (Json 400 "Event is full", s.2) ∧
  register 1%nat (ViaRoster 100 (Decoded Sample.carol)) s.2
    = (Json 400 "Cannot register for this event", s.2) ∧
  Event.isFull (Event.set_currentParticipants 5 (Sample.event 0 Event.Live)) = false.
Proof.
  intros calls s.
  destruct (capacity_limit (Sample.db 2 Event.Live) 1%nat (Sample.event 2 Event.Live)
              eq_refl) as [Hlimit _].
  specialize (Hlimit eq_refl ltac:(simpl; lia) ltac:(simpl; lia)).
  destruct (capacity_limit Sample.crowded 1%nat
              (Event.set_currentParticipants 5 (Sample.event 0 Event.Live))
              eq_refl) as [_ Hnone].
  split; [|split].
  - apply (Hlimit calls (ViaLedger 100 (Decoded Sample.carol) Registration.Kind.participant)
             eq_refl).
    + repeat constructor.
    + eexists. reflexivity.
  - apply (Hlimit calls (ViaRoster 100 (Decoded Sample.carol)) eq_refl).
    + repeat constructor.
    + eexists. reflexivity.
  - apply (Hnone eq_refl).
Defined.

(** ** The status route of the ledger *)

Lemma applyNotes_id notes r :
  Registration._id (applyNotes notes r) = Registration._id r.
Proof. unfold applyNotes. by repeat case_match. Qed.

Lemma applyNotes_event notes r :
  Registration.event (applyNotes notes r) = Registration.event r.
Proof. unfold applyNotes. by repeat case_match. Qed.

Lemma applyNotes_status notes r :
  Registration.status (applyNotes notes r) = Registration.status r.
Proof. unfold applyNotes. by repeat case_match. Qed.

Lemma adjustCount_createdBy old new e :
  Event.createdBy (adjustCount old new e) = Event.createdBy e.
Proof. unfold adjustCount. by repeat case_match. Qed.

(** The route for a caller it lets through: the registration is saved
    with its new status, and the event with its adjusted counter when
    the status changed. *)
Lemma putStatus_accepts req db c rid r e status notes :
  auth req db = Next c →
  requireFaculty c = Next tt →
  params_id req = Some rid →
  Registration.findById rid (Registrations db) = Some r →
  Events db !! Registration.event r = Some e →
  Event.createdBy e = c.1 ∨ User.role c.2 = User.admin →
  putStatus req status notes db =
    (Json 200 "Registration status updated successfully",
     let r' := applyNotes notes (Registration.set_status status r) in
     let db1 := setRegistrations (Registration.save r' (Registrations db)) db in
     if bool_decide (Registration.status r = status) then db1
     else saveEvent (Registration.event r)
            (adjustCount (Registration.status r) status e) db1).
Proof.
  intros Ha Hf Hp Hr He Hown. unfold putStatus. rewrite Ha. simpl.
  rewrite Hf. simpl. rewrite Hp. simpl. rewrite Hr, He.
  destruct Hown as [Hown|Hown].
  - by rewrite (bool_decide_eq_true_2 _ Hown).
  - rewrite (bool_decide_eq_true_2 _ Hown). by rewrite andb_false_r.
Qed.

(** Leaving [confirmed] takes one off the counter and stops at zero. *)
Lemma adjustCount_leaves_confirmed new e :
  new ≠ Registration.confirmed →
  Event.currentParticipants (adjustCount Registration.confirmed new e) =
    Z.max 0 (Event.currentParticipants e - 1).
Proof.
  intros Hn. unfold adjustCount. simpl.
  by rewrite (bool_decide_eq_false_2 _ Hn).
Qed.

(** Claim C8. For a pending registration and a caller the status route
    lets through: confirming it adds exactly one to the counter of its
    event; rejecting it next takes exactly one off again, the counter
    having been at least zero before the two calls; rejecting the pending
    registration directly leaves the counter as it is. *)
Theorem status_transitions
  (db : Db) (req : Request) (c : Caller) (rid : ObjectId)
  (r : Registration.t) (e : Event.t) (n1 n2 : option string) :
  auth req db = Next c →
  requireFaculty c = Next tt →
  params_id req = Some rid →
  Registration.findById rid (Registrations db) = Some r →
  Registration.status r = Registration.pending →
  Events db !! Registration.event r = Some e →
  Event.createdBy e = c.1 ∨ User.role c.2 = User.admin →
  0 <= Event.currentParticipants e →
  let ev := Registration.event r in
  let s1 := putStatus req Registration.confirmed n1 db in
  let s2 := putStatus req Registration.rejected n2 s1.2 in
  let s3 := putStatus req Registration.rejected n1 db in
  (s1.1 = Json 200 "Registration status updated successfully" ∧
   countOf ev s1.2 = Some (Event.currentParticipants e + 1)) ∧
  (s2.1 = Json 200 "Registration status updated successfully" ∧
   countOf ev s2.2 = Some (Event.currentParticipants e + 1 - 1)) ∧
  (s3.1 = Json 200 "Registration status updated successfully" ∧
   countOf ev s3.2 = Some (Event.currentParticipants e)).
Proof.
  intros Ha Hf Hp Hr Hst He Hown Hcp ev s1 s2 s3.
  pose proof (putStatus_accepts req db c rid r e Registration.confirmed n1
                Ha Hf Hp Hr He Hown) as E1.
  pose proof (putStatus_accepts req db c rid r e Registration.rejected n1
                Ha Hf Hp Hr He Hown) as E3.
  rewrite Hst in E1, E3. simpl in E1, E3.
  set (r1 := applyNotes n1 (Registration.set_status Registration.confirmed r)) in *.
  set (e1 := adjustCount Registration.pending Registration.confirmed e) in *.
  assert (Hr1 : Registration.findById rid (Registrations s1.2) = Some r1).
  { subst s1. rewrite E1. simpl. apply findById_save with r; [done|].
    unfold r1. rewrite applyNotes_id. simpl. by apply findById_id with (Registrations db). }
  assert (Hev1 : Registration.event r1 = ev) by (unfold r1; by rewrite applyNotes_event).
  assert (Hst1 : Registration.status r1 = Registration.confirmed)
    by (unfold r1; by rewrite applyNotes_status).
  assert (He1 : Events s1.2 !! Registration.event r1 = Some e1).
  { rewrite Hev1. subst s1. rewrite E1. simpl. apply lookup_insert_eq. }
  assert (Ha1 : auth req s1.2 = Next c) by (subst s1; by rewrite E1).
  assert (Hown1 : Event.createdBy e1 = c.1 ∨ User.role c.2 = User.admin)
    by (unfold e1; by rewrite adjustCount_createdBy).
  pose proof (putStatus_accepts req s1.2 c rid r1 e1 Registration.rejected n2
                Ha1 Hf Hp Hr1 He1 Hown1) as E2.
  rewrite Hst1, Hev1 in E2. simpl in E2.
  repeat split.
  - subst s1. by rewrite E1.
  - subst s1. rewrite E1. cbn [snd]. unfold ev. by rewrite countOf_saveEvent.
  - subst s2. by rewrite E2.
  - subst s2. rewrite E2. cbn [snd]. rewrite countOf_saveEvent.
    rewrite adjustCount_leaves_confirmed by done. unfold e1, adjustCount. simpl.
    f_equal. lia.
  - subst s3. by rewrite E3.
  - subst s3. rewrite E3. cbn [snd]. unfold ev. by rewrite countOf_saveEvent.
Qed.

Lemma status_transitions_witness :
  let req := withId (Decoded Sample.carol) 1%nat in
  let s1 := putStatus req Registration.confirmed None Sample.withPending in
  let s2 := putStatus req Registration.rejected None s1.2 in
  let s3 := putStatus req Registration.rejected None Sample.withPending in
  (s1.1 = Json 200 "Registration status updated successfully" ∧
   countOf 1%nat s1.2 = Some (1 + 1)) ∧
  (s2.1 = Json 200 "Registration status updated successfully" ∧
   countOf 1%nat s2.2 = Some (1 + 1 - 1)) ∧
  (s3.1 = Json 200 "Registration status updated successfully" ∧
   countOf 1%nat s3.2 = Some 1).
Proof.
  apply (status_transitions Sample.withPending (withId (Decoded Sample.carol) 1%nat)
           (Sample.carol, User.mk User.faculty true []) 1%nat Sample.pendingReg
           (Event.set_currentParticipants 1 (Sample.event 0 Event.Live)) None None);
    first [reflexivity | (left; reflexivity) | (simpl; lia)].
Defined.


(** ** Reading a soft-deleted event *)

(** [GET /api/events/:id] answers 404 for an event that is not active
    and writes nothing. *)
Lemma getEventRoute_inactive req db eid e :
  params_id req = Some eid →
  Events db !! eid = Some e →
  Event.isActive e = false →
  getEventRoute req db = (Json 404 "Event not found", db).
Proof.
  intros Hp He Ha. unfold getEventRoute. rewrite Hp. simpl. rewrite He. simpl.
  by rewrite Ha.
Qed.

(** [GET /api/events/:id/participants] answers with the roster of the
    stored event, whatever its [isActive]. *)
Lemma participantsRoute_roster req db c eid e :
  auth req db = Next c →
  requireOwnershipOrAdmin c req db = Next tt →
  params_id req = Some eid →
  Events db !! eid = Some e →
  participantsRoute req db = (JsonParticipants (Event.participants e), db).
Proof.
  intros Ha Ho Hp He. unfold participantsRoute. rewrite Ha. simpl.
  rewrite Ho. simpl. rewrite Hp. simpl. by rewrite He.
Qed.

(** The listing leaves out every event that is not active. *)
Lemma listRoute_active now db l :
  (listRoute now db).1 = JsonEvents l →
  ∀ eid x, (eid, x) ∈ l →
    ∃ e, Events db !! eid = Some e ∧ Event.isActive e = true.
Proof.
  unfold listRoute. simpl. intros [= <-] eid x Hin.
  apply elem_of_map_to_list in Hin.
  apply lookup_fmap_Some in Hin as (e & _ & He).
  apply map_lookup_filter_Some in He as [He Hact]. eauto.
Qed.

(** Claim C9, the code at the failing input. The creator soft-deletes
    an event that has alice on its roster. The detail route and the
    listing leave the event out; the participants route, asked by the
    creator or by an administrator, answers with its roster. *)
Theorem participants_of_deleted_event :
  deleteEventRoute (withId (Decoded Sample.carol) 1%nat) Sample.both
    = (Json 200 "Event deleted successfully", Sample.deleted) ∧
  (Event.isActive <$> Events Sample.deleted !! 1%nat) = Some false ∧
  (getEventRoute (withId NoToken 1%nat) Sample.deleted).1 = Json 404 "Event not found" ∧
  (listRoute 100 Sample.deleted).1 = JsonEvents [] ∧
  (participantsRoute (withId (Decoded Sample.carol) 1%nat) Sample.deleted).1
    = JsonParticipants [Participant.fresh Sample.alice 100] ∧
  (participantsRoute (withId (Decoded Sample.root) 1%nat) Sample.deleted).1
    = JsonParticipants [Participant.fresh Sample.alice 100].
Proof. vm_compute. repeat split. Qed.

(** ** The counter and the roster *)

Lemma activeCount_all ps :
  Forall (λ p, Participant.status p ≠ Participant.cancelled) ps →
  Event.activeCount ps = Z.of_nat (length ps).
Proof.
  unfold Event.activeCount. intros H. f_equal. f_equal.
  induction H as [|p ps Hp _ IH]; [done|].
  rewrite filter_cons_True by done. by rewrite IH.
Qed.

Lemma markFirst_userIds now u ps :
  Participant.userId <$> Event.markFirst now u ps = Participant.userId <$> ps.
Proof.
  induction ps as [|p ps IH]; csimpl; [done|].
  destruct (Participant.is_user u p); csimpl; [done|]. by rewrite IH.
Qed.

Lemma markFirst_length now u ps :
  length (Event.markFirst now u ps) = length ps.
Proof.
  induction ps as [|p ps IH]; simpl; [done|].
  destruct (Participant.is_user u p); simpl; [done|]. by rewrite IH.
Qed.

Lemma markFirst_not_cancelled now u ps :
  Forall (λ p, Participant.status p ≠ Participant.cancelled) ps →
  Forall (λ p, Participant.status p ≠ Participant.cancelled) (Event.markFirst now u ps).
Proof.
  induction 1 as [|p ps Hp H IH]; simpl; [constructor|].
  destruct (Participant.is_user u p); constructor; done.
Qed.

(** Without a user twice, filtering a listed user out takes exactly one
    entry off. *)
Lemma filter_user_length u ps :
  NoDup (Participant.userId <$> ps) →
  u ∈ Participant.userId <$> ps →
  S (length (filter (λ p, Participant.userId p ≠ u) ps)) = length ps.
Proof.
  induction ps as [|p ps IH]; simpl.
  - intros _ H. by apply elem_of_nil in H.
  - intros Hnd Hin. apply NoDup_cons in Hnd as [Hp Hnd].
    destruct (decide (Participant.userId p = u)) as [Heq|Hne].
    + rewrite filter_cons_False by tauto.
      f_equal. f_equal. apply filter_absent. apply find_is_user_None. by rewrite <- Heq.
    + rewrite filter_cons_True by done. simpl. f_equal. apply IH; [done|].
      apply elem_of_cons in Hin as [Hin|Hin]; [congruence|done].
Qed.

Lemma rosterCounted_register now u e e' :
  rosterCounted e → Event.registerUser now u e = Some e' → rosterCounted e'.
Proof.
  intros (Hnd & Hall & Hcp). unfold Event.registerUser.
  destruct (Event.canUserRegister now u e) eqn:Hcan; simpl; [|discriminate].
  intros [= <-]. apply canUserRegister_true in Hcan as (Hf & _).
  apply find_is_user_None in Hf.
  assert (Hall' : Forall (λ p, Participant.status p ≠ Participant.cancelled)
                    (Event.participants e ++ [Participant.fresh u now])).
  { apply Forall_app. split; [done|]. by repeat constructor. }
  repeat split; simpl.
  - rewrite fmap_app. simpl. apply NoDup_app. repeat split; [done| |apply NoDup_singleton].
    intros x Hx Hx'. apply list_elem_of_singleton in Hx'. by subst x.
  - done.
  - rewrite Hcp, !activeCount_all by done. rewrite length_app. simpl. lia.
Qed.

Lemma rosterCounted_unregister u e p :
  rosterCounted e → Event.findParticipant u e = Some p →
  rosterCounted (unregistered u e).
Proof.
  intros (Hnd & Hall & Hcp) Hf.
  assert (Hin : u ∈ Participant.userId <$> Event.participants e).
  { destruct (decide (u ∈ Participant.userId <$> Event.participants e)) as [|Hn]; [done|].
    apply find_is_user_None in Hn. unfold Event.findParticipant in Hf. congruence. }
  assert (Hall' : Forall (λ p, Participant.status p ≠ Participant.cancelled)
                    (filter (λ p, Participant.userId p ≠ u) (Event.participants e))).
  { apply Forall_forall. intros x Hx. apply list_elem_of_filter in Hx as [_ Hx].
    rewrite Forall_forall in Hall. by apply Hall. }
  repeat split; simpl.
  - eapply sublist_NoDup; [exact Hnd|]. apply fmap_sublist, sublist_filter.
  - done.
  - rewrite Hcp, !activeCount_all by done.
    pose proof (filter_user_length u _ Hnd Hin). lia.
Qed.

Lemma rosterCounted_mark now u e e' :
  rosterCounted e → Event.markAttendance now u e = Some e' → rosterCounted e'.
Proof.
  intros (Hnd & Hall & Hcp). unfold Event.markAttendance.
  destruct (Event.findParticipant u e); [|discriminate]. intros [= <-].
  pose proof (markFirst_not_cancelled now u _ Hall) as Hall'.
  repeat split; simpl.
  - by rewrite markFirst_userIds.
  - done.
  - rewrite Hcp, !activeCount_all by done.
    by rewrite markFirst_length.
Qed.

(** A call of the roster path writes at most one event, and the event it
    writes is counted when the one it read was. *)
Lemma rosterCall_events call db :
  Events (rosterCall call db).2 = Events db ∨
  ∃ eid e e', Events db !! eid = Some e ∧
              Events (rosterCall call db).2 = <[eid := e']> (Events db) ∧
              (rosterCounted e → rosterCounted e').
Proof.
  destruct call as [now req|req|now req u]; simpl.
  - unfold registerRoute, canParticipateInEvent, registerHandler.
    destruct (auth req db) as [r|c]; simpl; [by left|].
    destruct (params_eventId req) as [eid|]; simpl; [|by left].
    destruct (Events db !! eid) as [e|] eqn:He; simpl; [|by left].
    destruct (negb (Event.canUserRegister now c.1 e)); simpl; [by left|].
    destruct (Event.registerUser now c.1 e) as [e'|] eqn:Hreg; simpl; [|by left].
    right. exists eid, e, e'. split; [done|]. split; [reflexivity|].
    intros H. by apply rosterCounted_register with now c.1 e.
  - unfold unregisterRoute, isRegisteredForEvent, unregisterHandler.
    destruct (auth req db) as [r|c]; simpl; [by left|].
    destruct (params_eventId req) as [eid|]; simpl; [|by left].
    destruct (Events db !! eid) as [e|] eqn:He; simpl; [|by left].
    destruct (Event.findParticipant c.1 e) as [p|] eqn:Hf; simpl; [|by left].
    right. exists eid, e, (unregistered c.1 e). split; [done|]. split; [reflexivity|].
    intros H. by apply rosterCounted_unregister with p.
  - unfold attendanceRoute.
    destruct (auth req db) as [r|c]; simpl; [by left|].
    destruct (requireOwnershipOrAdmin c req db) as [r|[]]; simpl; [by left|].
    destruct u as [u|]; simpl; [|by left].
    destruct (params_id req) as [eid|]; simpl; [|by left].
    destruct (Events db !! eid) as [e|] eqn:He; simpl; [|by left].
    destruct (Event.markAttendance now u e) as [e'|] eqn:Hm; simpl; [|by left].
    right. exists eid, e, e'. split; [done|]. split; [reflexivity|].
    intros H. by apply rosterCounted_mark with now u e.
Qed.

(** The two ledger routes that move the counter write no roster. *)
Lemma postRegistration_roster now req ev ty db eid :
  Event.participants <$> Events (postRegistration now req ev ty db).2 !! eid
  = Event.participants <$> Events db !! eid.
Proof.
  unfold postRegistration, Registration.create.
  destruct (auth req db) as [r|c]; simpl; [done|].
  destruct (Events db !! ev) as [e|] eqn:He; simpl; [|done].
  destruct (negb (Event.isActive e)); simpl; [done|].
  destruct (Event.isFull e); simpl; [done|].
  destruct (deadlinePassed now e); simpl; [done|].
  destruct (Registration.findOne ev c.1 (Registrations db)); simpl; [done|].
  destruct (decide (ev = eid)) as [->|Hne].
  - by rewrite lookup_insert_eq, He.
  - by rewrite lookup_insert_ne.
Qed.

Lemma putStatus_roster req status notes db eid :
  Event.participants <$> Events (putStatus req status notes db).2 !! eid
  = Event.participants <$> Events db !! eid.
Proof.
  unfold putStatus.
  destruct (auth req db) as [r|c]; simpl; [done|].
  destruct (requireFaculty c) as [r|[]]; simpl; [done|].
  destruct (params_id req) as [rid|]; simpl; [|done].
  destruct (Registration.findById rid (Registrations db)) as [r|]; simpl; [|done].
  destruct (Events db !! Registration.event r) as [e|] eqn:He; simpl; [|done].
  destruct (_ && _); simpl; [done|].
  case_bool_decide; simpl; [done|].
  destruct (decide (Registration.event r = eid)) as [<-|Hne].
  - rewrite lookup_insert_eq, He. simpl. unfold adjustCount. by repeat case_match.
  - by rewrite lookup_insert_ne.
Qed.

(** Claim C2, refuted as stated. The event has an empty roster and a
    counter of zero; the ledger registration of alice succeeds and
    leaves the counter at one and the roster empty. Confirming a pending
    registration moves the counter from one to two and leaves the roster
    empty as well. *)
Lemma counter_equals_roster_counterexample :
  let count db := Event.activeCount <$> (Event.participants <$> Events db !! 1%nat) in
  let s := postRegistration 100 (plain (Decoded Sample.alice)) 1%nat
             Registration.Kind.participant (Sample.db 0 Event.Live) in
  let t := putStatus (withId (Decoded Sample.carol) 1%nat) Registration.confirmed None
             Sample.withPending in
  (countOf 1%nat (Sample.db 0 Event.Live) = Some 0 ∧
   count (Sample.db 0 Event.Live) = Some 0 ∧
   s.1 = Json 201 "Registration successful" ∧
   countOf 1%nat s.2 = Some 1 ∧ count s.2 = Some 0) ∧
  (t.1 = Json 200 "Registration status updated successfully" ∧
   countOf 1%nat t.2 = Some 2 ∧ count t.2 = Some 0).
Proof. vm_compute. repeat split. Qed.

(** Claim C2, as amended. In a store where every event has no user
    twice on its roster, no cancelled entry, and a counter equal to the
    number of roster entries that are not cancelled, every call of the
    roster path (register, unregister, mark attendance) leaves a store
    with the same property. The ledger registration and the status
    update write no roster, so the counter they move leaves the number of
    roster entries behind. *)
Theorem roster_calls_keep_count (db : Db) :
  (∀ eid e, Events db !! eid = Some e → rosterCounted e) →
  (∀ call eid e, Events (rosterCall call db).2 !! eid = Some e → rosterCounted e) ∧
  (∀ now req ev ty eid,
     Event.participants <$> Events (postRegistration now req ev ty db).2 !! eid
     = Event.participants <$> Events db !! eid) ∧
  (∀ req status notes eid,
     Event.participants <$> Events (putStatus req status notes db).2 !! eid
     = Event.participants <$> Events db !! eid).
Proof.
  intros Hall. split; [|split].
  - intros call eid e.
    destruct (rosterCall_events call db) as [-> | (k & e0 & e' & He0 & -> & Hkeep)].
    + apply Hall.
    + destruct (decide (k = eid)) as [->|Hne].
      * rewrite lookup_insert_eq. intros [= <-]. apply Hkeep. by apply Hall with eid.
      * rewrite lookup_insert_ne by done. apply Hall.
  - intros. apply postRegistration_roster.
  - intros. apply putStatus_roster.
Qed.

Lemma roster_calls_keep_count_witness :
  let req := withEventId (Decoded Sample.alice) 1%nat in
  ∃ e, Events (rosterCall (Unregister req) Sample.both).2 !! 1%nat = Some e ∧
       rosterCounted e ∧ Event.currentParticipants e = 0.
Proof.
  assert (H : ∀ eid e, Events Sample.both !! eid = Some e → rosterCounted e).
  { intros eid e He. unfold Sample.both in He. simpl in He.
    apply lookup_singleton_Some in He as [_ <-].
    split; [apply NoDup_singleton|]. split; [|reflexivity].
    repeat constructor. discriminate. }
  destruct (roster_calls_keep_count Sample.both H) as [Hkeep _].
  eexists. split; [reflexivity|]. split; [|reflexivity].
  apply (Hkeep (Unregister (withEventId (Decoded Sample.alice) 1%nat)) 1%nat).
  reflexivity.
Defined.

(** ** The status derived from the dates *)

(** Claim C6. For every now, start and end with start <= end the
    recomputed status is Past exactly when end < now, Upcoming exactly
    when start > now and Live exactly when start <= now <= end; the three
    cases exclude one another and cover every instant, and
    start = now = end gives Live. The stored status plays no part. *)
Theorem newStatus_phase (now start end_ : Date) (stored : Event.Status) :
  start <= end_ →
  (Event.newStatus now start end_ stored = Event.Past ↔ end_ < now) ∧
  (Event.newStatus now start end_ stored = Event.Upcoming ↔ now < start) ∧
  (Event.newStatus now start end_ stored = Event.Live ↔ start <= now <= end_) ∧
  (now = start → now = end_ →
   Event.newStatus now start end_ stored = Event.Live).
Proof.
  intros Hse. unfold Event.newStatus.
  destruct (Z.ltb_spec end_ now) as [H1|H1];
    destruct (Z.ltb_spec now start) as [H2|H2];
    destruct (Z.leb_spec start now) as [H3|H3];
    destruct (Z.leb_spec now end_) as [H4|H4]; simpl;
    repeat split; intros; try discriminate; try lia; try reflexivity.
Qed.

Lemma newStatus_phase_witness :
  Event.newStatus 5 5 5 Event.Past = Event.Live ∧
  Event.newStatus 6 5 5 Event.Live = Event.Past ∧
  Event.newStatus 4 5 5 Event.Live = Event.Upcoming.
Proof.
  destruct (newStatus_phase 5 5 5 Event.Past ltac:(lia)) as (_ & _ & _ & Hlive).
  destruct (newStatus_phase 6 5 5 Event.Live ltac:(lia)) as (Hpast & _).
  destruct (newStatus_phase 4 5 5 Event.Live ltac:(lia)) as (_ & Hup & _).
  split; [apply Hlive; reflexivity|]. split; [apply Hpast; lia | apply Hup; lia].
Defined.

(** The virtual [eventStatus] is the stored status. *)
Lemma eventStatus_stored e : Event.eventStatus e = Event.status e.
Proof. unfold Event.eventStatus. by destruct (Event.status e). Qed.

(** The write-through of the listing stores the derived status, and a
    second pass at the same instant writes nothing. *)
Lemma reconcile_status now e :
  Event.status (Event.reconcile now e).1 = (Event.reconcile now e).2.
Proof.
  unfold Event.reconcile. simpl. by case_bool_decide.
Qed.

Lemma reconcile_idempotent now e :
  Event.startDate e <= Event.endDate e →
  Event.reconcile now (Event.reconcile now e).1 =
    ((Event.reconcile now e).1, (Event.reconcile now e).2).
Proof.
  intros Hse. unfold Event.reconcile. simpl.
  set (s := Event.newStatus now (Event.startDate e) (Event.endDate e) (Event.status e)).
  assert (Hs : ∀ st, Event.newStatus now (Event.startDate e) (Event.endDate e) st = s).
  { intros st. unfold s, Event.newStatus. repeat case_match; try done; lia. }
  destruct (decide (Event.status e = s)) as [H|H].
  - rewrite (bool_decide_eq_true_2 _ H). fold s. by rewrite (bool_decide_eq_true_2 _ H).
  - rewrite (bool_decide_eq_false_2 _ H). simpl. rewrite Hs.
    by rewrite bool_decide_eq_true_2.
Qed.

(** ** The roster routes as they are mounted *)



(** ** Counters backed by the roster and the ledger *)

Lemma freshId_above l r :
  r ∈ l → (Registration._id r < Registration.freshId l)%nat.
Proof.
  unfold Registration.freshId. induction l as [|x l IH]; simpl.
  - intros H. by apply elem_of_nil in H.
  - intros [->|H]%elem_of_cons; [lia|]. specialize (IH H). lia.
Qed.

Lemma freshId_fresh l :
  Registration.freshId l ∉ Registration._id <$> l.
Proof.
  intros (r & Heq & Hr)%list_elem_of_fmap.
  pose proof (freshId_above l r Hr). lia.
Qed.

Lemma save_ids r l :
  Registration._id <$> Registration.save r l = Registration._id <$> l.
Proof.
  unfold Registration.save. induction l as [|x l IH]; csimpl; [done|].
  rewrite IH. f_equal. by case_bool_decide.
Qed.

Lemma save_absent r l :
  Registration._id r ∉ Registration._id <$> l → Registration.save r l = l.
Proof.
  unfold Registration.save. induction l as [|x l IH]; csimpl; [done|].
  intros [Hx Hl]%not_elem_of_cons. rewrite IH by done.
  by rewrite bool_decide_eq_false_2.
Qed.

Lemma confirmedCount_cons eid x l :
  confirmedCount eid (x :: l) = weight eid x + confirmedCount eid l.
Proof.
  unfold confirmedCount, weight. simpl.
  destruct (isConfirmedFor eid x); simpl; lia.
Qed.

Lemma confirmedCount_app eid l1 l2 :
  confirmedCount eid (l1 ++ l2) = confirmedCount eid l1 + confirmedCount eid l2.
Proof.
  induction l1 as [|x l1 IH]; simpl.
  - unfold confirmedCount. simpl. lia.
  - rewrite !confirmedCount_cons, IH. lia.
Qed.

Lemma confirmedCount_nonneg eid l : 0 <= confirmedCount eid l.
Proof. unfold confirmedCount. lia. Qed.

(** With distinct identifiers, saving a stored registration exchanges
    its weight for the weight of what is saved. *)
Lemma confirmedCount_save eid rid r r' l :
  NoDup (Registration._id <$> l) →
  Registration.findById rid l = Some r →
  Registration._id r' = rid →
  confirmedCount eid (Registration.save r' l)
  = confirmedCount eid l - weight eid r + weight eid r'.
Proof.
  intros Hnd Hf <-. induction l as [|x l IH]; [discriminate|].
  csimpl in Hnd. apply NoDup_cons in Hnd as [Hx Hnd].
  unfold Registration.findById in *. simpl in Hf.
  change (Registration.save r' (x :: l))
    with ((if bool_decide (Registration._id x = Registration._id r') then r' else x)
            :: Registration.save r' l).
  rewrite !confirmedCount_cons.
  case_bool_decide as Hid.
  - injection Hf as <-. rewrite save_absent by (by rewrite <- Hid). lia.
  - rewrite IH by done. lia.
Qed.

(** What each call writes, when it writes. *)
Lemma registerRoute_effect now req db :
  (registerRoute now req db).2 = db ∨
  ∃ uid eid e,
    Events db !! eid = Some e ∧
    (registerRoute now req db).2 =
      updateUser uid (User.pushParticipated eid)
        (saveEvent eid
           (Event.set_registrations (Event.registrations e + 1)
              (Event.set_currentParticipants (Event.currentParticipants e + 1)
                 (Event.set_participants
                    (Event.participants e ++ [Participant.fresh uid now]) e)))
           db).
Proof.
  unfold registerRoute, canParticipateInEvent, registerHandler, Event.registerUser.
  destruct (auth req db) as [r|c]; simpl; [by left|].
  destruct (params_eventId req) as [eid|]; simpl; [|by left].
  destruct (Events db !! eid) as [e|] eqn:He; simpl; [|by left].
  destruct (Event.canUserRegister now c.1 e) eqn:Hcan; simpl; [|by left].
  rewrite Hcan. simpl. right. by exists c.1, eid, e.
Qed.

Lemma unregisterRoute_effect req db :
  (unregisterRoute req db).2 = db ∨
  ∃ uid eid e p,
    Events db !! eid = Some e ∧
    Event.findParticipant uid e = Some p ∧
    (unregisterRoute req db).2 =
      updateUser uid (User.pullParticipated eid) (saveEvent eid (unregistered uid e) db).
Proof.
  unfold unregisterRoute, isRegisteredForEvent, unregisterHandler.
  destruct (auth req db) as [r|c]; simpl; [by left|].
  destruct (params_eventId req) as [eid|]; simpl; [|by left].
  destruct (Events db !! eid) as [e|] eqn:He; simpl; [|by left].
  destruct (Event.findParticipant c.1 e) as [p|] eqn:Hf; simpl; [|by left].
  right. by exists c.1, eid, e, p.
Qed.

Lemma postRegistration_effect now req ev ty db :
  (postRegistration now req ev ty db).2 = db ∨
  ∃ uid e,
    Events db !! ev = Some e ∧
    (postRegistration now req ev ty db).2 =
      saveEvent ev
        (Event.set_currentParticipants (Event.currentParticipants e + 1) e)
        (setRegistrations
           (Registrations db ++
              [Registration.mk (Registration.freshId (Registrations db)) ev uid ty
                 Registration.pending now false None true]) db).
Proof.
  unfold postRegistration, Registration.create.
  destruct (auth req db) as [r|c]; simpl; [by left|].
  destruct (Events db !! ev) as [e|] eqn:He; simpl; [|by left].
  destruct (negb (Event.isActive e)); simpl; [by left|].
  destruct (Event.isFull e); simpl; [by left|].
  destruct (deadlinePassed now e); simpl; [by left|].
  destruct (Registration.findOne ev c.1 (Registrations db)); simpl; [by left|].
  right. by exists c.1, e.
Qed.

Lemma putStatus_effect req status notes db :
  (putStatus req status notes db).2 = db ∨
  ∃ rid r e,
    Registration.findById rid (Registrations db) = Some r ∧
    Events db !! Registration.event r = Some e ∧
    (putStatus req status notes db).2 =
      let r' := applyNotes notes (Registration.set_status status r) in
      let db1 := setRegistrations (Registration.save r' (Registrations db)) db in
      if bool_decide (Registration.status r = status) then db1
      else saveEvent (Registration.event r)
             (adjustCount (Registration.status r) status e) db1.
Proof.
  unfold putStatus.
  destruct (auth req db) as [x|c]; simpl; [by left|].
  destruct (requireFaculty c) as [x|[]]; simpl; [by left|].
  destruct (params_id req) as [rid|]; simpl; [|by left].
  destruct (Registration.findById rid (Registrations db)) as [r|] eqn:Hr; simpl; [|by left].
  destruct (Events db !! Registration.event r) as [e|] eqn:He; simpl; [|by left].
  destruct (_ && _); simpl; [by left|].
  right. by exists rid, r, e.
Qed.

Lemma backed_register eid call db : backed db → backed (register eid call db).2.
Proof.
  intros [Hnd Hle]. destruct call as [now tok|now tok ty]; simpl.
  - destruct (registerRoute_effect now (withEventId tok eid) db)
      as [-> | (uid & k & e & He & ->)]; [done|].
    split; [done|]. simpl. intros j e' Hj.
    destruct (decide (k = j)) as [->|Hne].
    + rewrite lookup_insert_eq in Hj. injection Hj as <-. simpl.
      specialize (Hle j e He). rewrite length_app. simpl. lia.
    + rewrite lookup_insert_ne in Hj by done. by apply Hle.
  - destruct (postRegistration_effect now (plain tok) eid ty db)
      as [-> | (uid & e & He & ->)]; [done|].
    split; simpl.
    + rewrite fmap_app. apply NoDup_app. split; [done|]. split; [|apply NoDup_singleton].
      intros x Hx [->|[]%elem_of_nil]%elem_of_cons. simpl in Hx.
      by apply freshId_fresh in Hx.
    + intros j e' Hj. rewrite confirmedCount_app, confirmedCount_cons.
      unfold weight at 1, isConfirmedFor. simpl. rewrite andb_false_r.
      change (confirmedCount j []) with 0.
      destruct (decide (eid = j)) as [->|Hne].
      * rewrite lookup_insert_eq in Hj. injection Hj as <-. simpl.
        specialize (Hle j e He). lia.
      * rewrite lookup_insert_ne in Hj by done. specialize (Hle j e' Hj). lia.
Qed.

Lemma backed_unregister req db : backed db → backed (unregisterRoute req db).2.
Proof.
  intros [Hnd Hle].
  destruct (unregisterRoute_effect req db) as [-> | (uid & k & e & p & He & Hf & ->)];
    [done|].
  split; [done|]. simpl. intros j e' Hj.
  destruct (decide (k = j)) as [->|Hne].
  - rewrite lookup_insert_eq in Hj. injection Hj as <-. simpl.
    specialize (Hle j e He).
    apply find_some in Hf as [Hin Hp]. apply bool_decide_eq_true in Hp.
    apply list_elem_of_In in Hin.
    pose proof (length_filter_lt (λ q, Participant.userId q ≠ uid) _ p Hin) as Hlt.
    specialize (Hlt ltac:(tauto)). lia.
  - rewrite lookup_insert_ne in Hj by done. by apply Hle.
Qed.

Lemma backed_status req status notes db :
  backed db → backed (putStatus req status notes db).2.
Proof.
  intros [Hnd Hle].
  destruct (putStatus_effect req status notes db)
    as [-> | (rid & r & e & Hr & He & ->)]; [done|].
  set (r' := applyNotes notes (Registration.set_status status r)).
  assert (Hid : Registration._id r' = rid).
  { unfold r'. rewrite applyNotes_id. simpl. by apply findById_id with (Registrations db). }
  assert (Hev : Registration.event r' = Registration.event r)
    by (unfold r'; by rewrite applyNotes_event).
  assert (Hst : Registration.status r' = status)
    by (unfold r'; by rewrite applyNotes_status).
  assert (Hcount : ∀ j, confirmedCount j (Registration.save r' (Registrations db))
                        = confirmedCount j (Registrations db) - weight j r + weight j r')
    by (intros j; by apply confirmedCount_save with rid).
  cbv zeta. case_bool_decide as Hsame.
  - split; simpl; [by rewrite save_ids|].
    intros j e' Hj. rewrite Hcount. specialize (Hle j e' Hj).
    unfold weight, isConfirmedFor. rewrite Hev, Hst, Hsame. lia.
  - split; simpl; [by rewrite save_ids|].
    intros j e' Hj. rewrite Hcount.
    destruct (decide (Registration.event r = j)) as [<-|Hne].
    + rewrite lookup_insert_eq in Hj. injection Hj as <-.
      specialize (Hle _ e He). revert Hle.
      unfold weight, isConfirmedFor, adjustCount. rewrite Hev, Hst.
      repeat case_bool_decide; simpl; try lia; congruence.
    + rewrite lookup_insert_ne in Hj by done. specialize (Hle j e' Hj).
      unfold weight, isConfirmedFor. rewrite Hev.
      rewrite !(bool_decide_eq_false_2 (Registration.event r = j)) by done.
      simpl. lia.
Qed.

Lemma backed_calls calls : ∀ db, backed db → backed (counterCalls calls db).
Proof.
  unfold counterCalls. induction calls as [|call calls IH]; intros db H; simpl; [done|].
  apply IH. destruct call as [eid c|req|req status notes]; simpl.
  - by apply backed_register.
  - by apply backed_unregister.
  - by apply backed_status.
Qed.

(** ** The routes of the registrations, and the roster routes as mounted *)

Lemma deleteRegistration_accepts now req db uid rid r e :
  callerId req db = Some uid →
  params_id req = Some rid →
  Registration.findById rid (Registrations db) = Some r →
  Registration.participant r = uid →
  Events db !! Registration.event r = Some e →
  deleteRegistration now req db =
    (Json 200 "Registration cancelled successfully",
     let db1 :=
       if bool_decide (Registration.status r = Registration.confirmed)
       then saveEvent (Registration.event r)
              (Event.set_currentParticipants
                 (Z.max 0 (Event.currentParticipants e - 1)) e) db
       else db in
     setRegistrations
       (Registration.save (Registration.set_isActive false r) (Registrations db1)) db1).
Proof.
  intros Hc Hp Hr Hu He. apply callerId_auth in Hc as (u & Ha & _).
  unfold deleteRegistration. rewrite Ha. simpl. rewrite Hp. simpl. rewrite Hr.
  rewrite (bool_decide_eq_true_2 _ Hu). simpl. by rewrite He.
Qed.

Lemma deleteRegistration_effect now req db :
  (deleteRegistration now req db).2 = db ∨
  ∃ rid r e,
    Registration.findById rid (Registrations db) = Some r ∧
    Events db !! Registration.event r = Some e ∧
    (deleteRegistration now req db).2 =
      let db1 :=
        if bool_decide (Registration.status r = Registration.confirmed)
        then saveEvent (Registration.event r)
               (Event.set_currentParticipants
                  (Z.max 0 (Event.currentParticipants e - 1)) e) db
        else db in
      setRegistrations
        (Registration.save (Registration.set_isActive false r) (Registrations db1)) db1.
Proof.
  unfold deleteRegistration.
  destruct (auth req db) as [x|c]; simpl; [by left|].
  destruct (params_id req) as [rid|]; simpl; [|by left].
  destruct (Registration.findById rid (Registrations db)) as [r|] eqn:Hr; simpl; [|by left].
  destruct (negb _); simpl; [by left|].
  destruct (Events db !! Registration.event r) as [e|] eqn:He; simpl; [|by left].
  right. by exists rid, r, e.
Qed.

Lemma mountedCall_refuses call db :
  mountedCall call db = (mountedAnswer call db, db) ∧
  succeeded (mountedAnswer call db) = false.
Proof.
  unfold mountedAnswer.
  destruct call as [now tok id|tok id]; simpl;
    unfold registerRoute, unregisterRoute, canParticipateInEvent, isRegisteredForEvent;
    unfold auth; simpl;
    destruct tok as [| |uid]; simpl; try done;
    destruct (Users db !! uid) as [u|]; simpl; try done;
    destruct (negb (User.isActive u)); simpl; done.
Qed.

(** ** The counter under the calls the server receives *)

Lemma saveEvent_nonneg db eid e' :
  0 <= Event.currentParticipants e' →
  (∀ k e, Events db !! k = Some e → 0 <= Event.currentParticipants e) →
  ∀ k e, Events (saveEvent eid e' db) !! k = Some e → 0 <= Event.currentParticipants e.
Proof.
  intros He' Hall k e. simpl. destruct (decide (eid = k)) as [<-|Hne].
  - rewrite lookup_insert_eq. by intros [= <-].
  - rewrite lookup_insert_ne by done. apply Hall.
Qed.

Lemma servedCall_nonneg call db :
  (∀ k e, Events db !! k = Some e → 0 <= Event.currentParticipants e) →
  ∀ k e, Events (servedCall call db).2 !! k = Some e → 0 <= Event.currentParticipants e.
Proof.
  intros Hall. destruct call as [c|[now req ev ty|req status notes|now req]]; simpl.
  - by destruct (mountedCall_refuses c db) as [-> _].
  - destruct (postRegistration_effect now req ev ty db) as [-> | (uid & e0 & He0 & ->)];
      [done|].
    apply saveEvent_nonneg; [|done]. simpl. specialize (Hall _ _ He0). lia.
  - destruct (putStatus_effect req status notes db)
      as [-> | (rid & r & e0 & Hr & He0 & ->)]; [done|].
    cbv zeta. case_bool_decide; [done|].
    apply saveEvent_nonneg; [|done]. apply adjustCount_floor. by apply Hall with (Registration.event r).
  - destruct (deleteRegistration_effect now req db)
      as [-> | (rid & r & e0 & Hr & He0 & ->)]; [done|].
    cbv zeta. case_bool_decide; [|done]. simpl.
    apply saveEvent_nonneg; [simpl; lia|done].
Qed.

(** Claim C1. From a store in which no counter is negative (a counter of
    zero is the case of the claim), after any sequence of the calls the
    server receives (a registration or an unregistration on the routes
    of the events as mounted, a registration, a status update or a
    cancellation on the routes of the registrations) no counter is
    negative. An unregistration that meets a counter of zero leaves it at
    zero: the mounted route writes nothing, and the cancellation takes
    one off with [Math.max(0, ...)]. *)
Theorem counter_never_negative (db : Db) (calls : list ServedCall) :
  (∀ eid e, Events db !! eid = Some e → 0 <= Event.currentParticipants e) →
  (∀ eid e, Events (servedCalls calls db) !! eid = Some e →
            0 <= Event.currentParticipants e) ∧
  (∀ eid tok id now req,
     countOf eid (servedCalls calls db) = Some 0 →
     countOf eid (servedCall (OnRoster (PostUnregister tok id)) (servedCalls calls db)).2
       = Some 0 ∧
     countOf eid (servedCall (OnLedger (LCancel now req)) (servedCalls calls db)).2
       = Some 0).
Proof.
  intros Hall.
  assert (Hafter : ∀ k e, Events (servedCalls calls db) !! k = Some e →
                          0 <= Event.currentParticipants e).
  { revert db Hall. unfold servedCalls.
    induction calls as [|call calls IH]; intros db Hall; simpl; [done|].
    by apply IH, servedCall_nonneg. }
  split; [done|]. intros eid tok id now req Hzero.
  set (db' := servedCalls calls db) in *. split.
  - cbn [servedCall].
    by destruct (mountedCall_refuses (PostUnregister tok id) db') as [-> _].
  - cbn [servedCall ledgerCall]. destruct (deleteRegistration_effect now req db')
      as [-> | (rid & r & e0 & Hr & He0 & ->)]; [done|].
    cbv zeta. case_bool_decide; [|done]. unfold countOf in *. simpl.
    destruct (decide (Registration.event r = eid)) as [<-|Hne].
    + rewrite lookup_insert_eq. rewrite He0 in Hzero.
      simpl in *. injection Hzero as ->. done.
    + by rewrite lookup_insert_ne.
Qed.

Lemma counter_never_negative_witness :
  let alice := Decoded Sample.alice in
  let calls :=
    [OnRoster (PostUnregister alice 1%nat);
     OnLedger (LPost 100 (plain alice) 1%nat Registration.Kind.participant);
     OnLedger (LStatus (withId (Decoded Sample.carol) 1%nat) Registration.confirmed None);
     OnLedger (LCancel 110 (withId alice 1%nat));
     OnLedger (LCancel 120 (withId alice 1%nat));
     OnLedger (LCancel 130 (withId alice 1%nat))] in
  let db := servedCalls calls (Sample.db 0 Event.Live) in
  countOf 1%nat db = Some 0 ∧
  countOf 1%nat (servedCall (OnRoster (PostUnregister alice 1%nat)) db).2 = Some 0 ∧
  countOf 1%nat (servedCall (OnLedger (LCancel 140 (withId alice 1%nat))) db).2 = Some 0.
Proof.
  intros alice calls db.
  assert (Hzero : countOf 1%nat db = Some 0) by reflexivity.
  split; [exact Hzero|].
  refine (proj2 (counter_never_negative (Sample.db 0 Event.Live) calls _)
            1%nat alice 1%nat 140 (withId alice 1%nat) Hzero).
  simpl. intros eid e [<- <-]%lookup_singleton_Some. by vm_compute.
Defined.

(** ** Register, cancel, register *)






(** * Further properties of the modelled code *)

(** ** The rate limiter *)

Lemma passedFor_cons ip a answers :
  RateLimit.passedFor ip (a :: answers) =
    (if bool_decide (a.1 = ip ∧ a.2 = true) then 1 else 0)
    + RateLimit.passedFor ip answers.
Proof.
  unfold RateLimit.passedFor. case_bool_decide.
  - rewrite filter_cons_True by done. simpl. lia.
  - rewrite filter_cons_False by done. lia.
Qed.

Lemma sentBy_cons ip r reqs :
  RateLimit.sentBy ip (r :: reqs) =
    (if bool_decide (r.1 = ip) then 1 else 0) + RateLimit.sentBy ip reqs.
Proof.
  unfold RateLimit.sentBy. case_bool_decide.
  - rewrite filter_cons_True by done. simpl. lia.
  - rewrite filter_cons_False by done. lia.
Qed.

Lemma serve_cons M W ip now rest requests :
  RateLimit.serve M W ((ip, now) :: rest) requests =
    ((ip, RateLimit.passed (RateLimit.limiter M W now ip requests).1)
       :: (RateLimit.serve M W rest (RateLimit.limiter M W now ip requests).2).1,
     (RateLimit.serve M W rest (RateLimit.limiter M W now ip requests).2).2).
Proof.
  simpl. destruct (RateLimit.limiter M W now ip requests) as [o r1]. simpl.
  by destruct (RateLimit.serve M W rest r1).
Qed.

(** A request leaves the entries of the other addresses. *)
Lemma limiter_other M W now ip ip' requests :
  ip' ≠ ip →
  (RateLimit.limiter M W now ip' requests).2 !! ip = requests !! ip.
Proof.
  intros Hne. unfold RateLimit.limiter.
  repeat case_match; simpl; by rewrite ?lookup_insert_ne.
Qed.

(** Inside a window the remaining quota passes, and nothing more. *)
Lemma serve_in_window M W ip reqs : ∀ requests c R,
  requests !! ip = Some (RateLimit.mkEntry c R) →
  (∀ t, (ip, t) ∈ reqs → t <= R) →
  RateLimit.passedFor ip (RateLimit.serve M W reqs requests).1
    = Z.min (RateLimit.sentBy ip reqs) (Z.max 0 (M - c)) ∧
  (RateLimit.serve M W reqs requests).2 !! ip
    = Some (RateLimit.mkEntry
              (c + RateLimit.passedFor ip (RateLimit.serve M W reqs requests).1) R).
Proof.
  induction reqs as [|[ip' t] rest IH]; intros requests c R He Hin.
  - simpl. unfold RateLimit.passedFor, RateLimit.sentBy. simpl.
    rewrite He. split; [lia|]. do 2 f_equal. lia.
  - rewrite serve_cons. cbn [fst snd].
    rewrite passedFor_cons, sentBy_cons. cbn [fst snd].
    assert (Hrest : ∀ t0, (ip, t0) ∈ rest → t0 <= R)
      by (intros t0 H0; apply Hin; by right).
    assert (Hnn : 0 <= RateLimit.sentBy ip rest) by (unfold RateLimit.sentBy; lia).
    destruct (decide (ip' = ip)) as [->|Hne].
    + assert (Ht : t <= R) by (apply Hin; left).
      rewrite (bool_decide_eq_true_2 (ip = ip)) by done.
      destruct (Z.leb_spec M c) as [Hfull|Hroom].
      * assert (Hl : RateLimit.limiter M W t ip requests
                     = (Respond (Json 429 "Too many requests. Please try again later."),
                        requests)).
        { unfold RateLimit.limiter. rewrite He. cbn [RateLimit.resetTime RateLimit.count].
          destruct (Z.ltb_spec R t); [lia|].
          by destruct (Z.leb_spec M c); [|lia]. }
        rewrite Hl. cbn [fst snd RateLimit.passed].
        rewrite bool_decide_eq_false_2 by (intros [_ [=]]).
        destruct (IH requests c R He Hrest) as [Hp Hs].
        rewrite Hs, Hp. split; [lia|]. do 3 f_equal.
      * assert (Hl : RateLimit.limiter M W t ip requests
                     = (Next tt, <[ip := RateLimit.mkEntry (c + 1) R]> requests)).
        { unfold RateLimit.limiter. rewrite He. cbn [RateLimit.resetTime RateLimit.count].
          destruct (Z.ltb_spec R t); [lia|].
          by destruct (Z.leb_spec M c); [lia|]. }
        rewrite Hl. cbn [fst snd RateLimit.passed].
        rewrite bool_decide_eq_true_2 by done.
        destruct (IH (<[ip := RateLimit.mkEntry (c + 1) R]> requests) (c + 1) R
                    (lookup_insert_eq _ _ _) Hrest) as [Hp Hs].
        rewrite Hs, Hp. split; [lia|]. do 2 f_equal. lia.
    + rewrite (bool_decide_eq_false_2 (ip' = ip)) by done.
      rewrite bool_decide_eq_false_2 by (intros [? _]; done).
      assert (He' : (RateLimit.limiter M W t ip' requests).2 !! ip
                    = Some (RateLimit.mkEntry c R))
        by (by rewrite limiter_other).
      destruct (IH _ c R He' Hrest) as [Hp Hs].
      rewrite Hs, Hp. split; [lia|]. do 2 f_equal.
Qed.

(** Extra X1. A request of an address that has no entry, or whose entry
    has expired, opens a window of [windowMs] and is let through whatever
    the limit is. Of the requests of that address that follow within the
    window, mixed with requests of other addresses, exactly as many are
    let through as the limit leaves: the number let through is the
    smaller of the number sent and the larger of one and [maxRequests].
    The others are answered 429. *)
Theorem limiter_window_quota
  (maxRequests windowMs : Z) (ip : string) (t1 : Date)
  (rest : list (string * Date)) (requests : gmap string RateLimit.Entry) :
  (requests !! ip = None ∨
   ∃ u, requests !! ip = Some u ∧ RateLimit.resetTime u < t1) →
  (∀ t, (ip, t) ∈ rest → t <= t1 + windowMs) →
  RateLimit.passedFor ip
    (RateLimit.serve maxRequests windowMs ((ip, t1) :: rest) requests).1
  = Z.min (1 + RateLimit.sentBy ip rest) (Z.max 1 maxRequests).
Proof.
  intros Hopen Hin. rewrite serve_cons. cbn [fst snd]. rewrite passedFor_cons.
  cbn [fst snd].
  assert (Hfirst : RateLimit.limiter maxRequests windowMs t1 ip requests
                   = (Next tt, <[ip := RateLimit.mkEntry 1 (t1 + windowMs)]> requests)).
  { unfold RateLimit.limiter. destruct Hopen as [-> | (u & -> & Hu)]; [done|].
    destruct (Z.ltb_spec (RateLimit.resetTime u) t1); [done|lia]. }
  rewrite Hfirst. cbn [fst snd RateLimit.passed].
  rewrite bool_decide_eq_true_2 by done.
  destruct (serve_in_window maxRequests windowMs ip rest
              (<[ip := RateLimit.mkEntry 1 (t1 + windowMs)]> requests) 1 (t1 + windowMs)
              (lookup_insert_eq _ _ _) Hin) as [Hp _].
  assert (Hnn : 0 <= RateLimit.sentBy ip rest) by (unfold RateLimit.sentBy; lia).
  rewrite Hp. lia.
Qed.

Lemma limiter_window_quota_witness :
  RateLimit.passedFor "a"
    (RateLimit.serve 2 10 [("a", 0); ("b", 1); ("a", 5); ("a", 10); ("a", 3)] ∅).1 = 2 ∧
  RateLimit.passedFor "a"
    (RateLimit.serve 0 10 [("a", 0); ("a", 5)] ∅).1 = 1.
Proof.
  split.
  - apply (limiter_window_quota 2 10 "a" 0 [("b", 1); ("a", 5); ("a", 10); ("a", 3)] ∅).
    + by left.
    + intros t Ht. repeat (apply elem_of_cons in Ht as [Ht|Ht]; [simplify_eq; lia|]).
      by apply elem_of_nil in Ht.
  - apply (limiter_window_quota 0 10 "a" 0 [("a", 5)] ∅).
    + by left.
    + intros t Ht. repeat (apply elem_of_cons in Ht as [Ht|Ht]; [simplify_eq; lia|]).
      by apply elem_of_nil in Ht.
Defined.

(** ** Who is given a roster *)

(** Extra X2. The participants route hands out a roster only to an
    authenticated, active user who is an administrator or the creator, an
    organizer or a moderator of the event whose roster it is; the roster
    is the stored one, and the store is left as it was. *)
Theorem participants_only_for_owners
  (req : Request) (db : Db) (ps : list Participant.t) :
  (participantsRoute req db).1 = JsonParticipants ps →
  (participantsRoute req db).2 = db ∧
  ∃ uid u eid e,
    token req = Decoded uid ∧
    Users db !! uid = Some u ∧ User.isActive u = true ∧
    params_id req = Some eid ∧
    Events db !! eid = Some e ∧
    ps = Event.participants e ∧
    (User.role u = User.admin ∨ Event.createdBy e = uid ∨
     uid ∈ Event.organizers e ∨ uid ∈ Event.moderators e).
Proof.
  unfold participantsRoute, auth, requireOwnershipOrAdmin.
  destruct (token req) as [| |uid]; simpl; try discriminate.
  destruct (Users db !! uid) as [u|] eqn:Hu; simpl; [|discriminate].
  destruct (User.isActive u) eqn:Hact; simpl; [|discriminate].
  case_bool_decide as Hadmin; simpl.
  - destruct (params_id req) as [eid|]; simpl; [|discriminate].
    destruct (Events db !! eid) as [e|] eqn:He; simpl; [|discriminate].
    intros [= <-]. split; [done|]. exists uid, u, eid, e. naive_solver.
  - destruct (params_id req) as [eid|]; simpl; [|discriminate].
    destruct (Events db !! eid) as [e|] eqn:He; simpl; [|discriminate].
    repeat case_bool_decide; simpl; try discriminate;
      (intros [= <-]; split; [done|]; exists uid, u, eid, e; naive_solver).
Qed.

Lemma participants_only_for_owners_witness :
  (participantsRoute (withId (Decoded Sample.carol) 1%nat) Sample.both).2 = Sample.both ∧
  ∃ uid u eid e,
    token (withId (Decoded Sample.carol) 1%nat) = Decoded uid ∧
    Users Sample.both !! uid = Some u ∧ User.isActive u = true ∧
    params_id (withId (Decoded Sample.carol) 1%nat) = Some eid ∧
    Events Sample.both !! eid = Some e ∧
    [Participant.fresh Sample.alice 100] = Event.participants e ∧
    (User.role u = User.admin ∨ Event.createdBy e = uid ∨
     uid ∈ Event.organizers e ∨ uid ∈ Event.moderators e).
Proof.
  apply (participants_only_for_owners (withId (Decoded Sample.carol) 1%nat) Sample.both
           [Participant.fresh Sample.alice 100]).
  reflexivity.
Defined.

(** ** Attendance marked more than once *)

Lemma markFirst_again t1 t2 u ps :
  Event.markFirst t2 u (Event.markFirst t1 u ps) = Event.markFirst t2 u ps.
Proof.
  induction ps as [|p ps IH]; simpl; [done|].
  destruct (Participant.is_user u p) eqn:Hp; simpl.
  - unfold Participant.is_user in *. simpl. by rewrite Hp.
  - by rewrite Hp, IH.
Qed.

Lemma find_markFirst t u ps p :
  List.find (Participant.is_user u) ps = Some p →
  List.find (Participant.is_user u) (Event.markFirst t u ps)
    = Some (Participant.mark t p).
Proof.
  induction ps as [|q ps IH]; simpl; [discriminate|].
  destruct (Participant.is_user u q) eqn:Hq; simpl.
  - intros [= <-]. unfold Participant.is_user in *. simpl. by rewrite Hq.
  - rewrite Hq. exact IH.
Qed.

Lemma last_cons_default {A} (ts : list A) : ∀ a d,
  List.last (a :: ts) d = List.last ts a.
Proof.
  induction ts as [|b ts IH]; intros a d; [done|].
  change (List.last (a :: b :: ts) d) with (List.last (b :: ts) d).
  rewrite (IH b d). symmetry. apply IH.
Qed.

Lemma markAll_cons u t ts e :
  markAll u (t :: ts) e
  = match Event.markAttendance t u e with
    | Some e1 => markAll u ts e1
    | None => None
    end.
Proof.
  unfold markAll. simpl. destruct (Event.markAttendance t u e); [done|].
  simpl. induction ts as [|t' ts IH]; simpl; [done|exact IH].
Qed.

(** Extra X3. Marking the attendance of a user who is on the roster
    never refuses a repetition: after the calls at the instants
    [t :: ts] the counter [attendance] has grown by the number of calls,
    while the roster is the one a single call at the last instant leaves
    (the first entry of the user marked, with that date). For a user who
    is not on the roster the first call throws and nothing is counted. *)
Theorem attendance_counts_every_call
  (u : ObjectId) (ts : list Date) : ∀ (t : Date) (e : Event.t),
  (is_Some (Event.findParticipant u e) →
   markAll u (t :: ts) e =
     Some (Event.set_attendance (Event.attendance e + 1 + Z.of_nat (length ts))
             (Event.set_participants
                (Event.markFirst (List.last ts t) u (Event.participants e)) e))) ∧
  (Event.findParticipant u e = None → markAll u (t :: ts) e = None).
Proof.
  induction ts as [|t' ts IH]; intros t e; split.
  - intros [p Hp]. rewrite markAll_cons. unfold Event.markAttendance. rewrite Hp.
    unfold markAll. simpl. f_equal. unfold Event.set_attendance. simpl. f_equal. lia.
  - intros Hn. rewrite markAll_cons. unfold Event.markAttendance. by rewrite Hn.
  - intros [p Hp]. rewrite markAll_cons. unfold Event.markAttendance at 1. rewrite Hp.
    destruct (IH t' (Event.set_attendance (Event.attendance e + 1)
                       (Event.set_participants
                          (Event.markFirst t u (Event.participants e)) e))) as [Hsome _].
    rewrite Hsome.
    + f_equal. rewrite last_cons_default.
      unfold Event.set_attendance, Event.set_participants. simpl.
      rewrite markFirst_again. rewrite Nat2Z.inj_succ. f_equal. lia.
    + unfold Event.findParticipant in *. simpl. rewrite (find_markFirst t u _ p Hp). by eexists.
  - intros Hn. rewrite markAll_cons. unfold Event.markAttendance. by rewrite Hn.
Qed.

Lemma attendance_counts_every_call_witness :
  markAll Sample.alice [150; 200; 300] Sample.listed =
    Some (Event.set_attendance (0 + 1 + 2)
            (Event.set_participants
               [Participant.mark 300 (Participant.fresh Sample.alice 100)] Sample.listed)) ∧
  markAll Sample.bob [150; 200; 300] Sample.listed = None.
Proof.
  destruct (attendance_counts_every_call Sample.alice [200; 300] 150 Sample.listed)
    as [Hon _].
  destruct (attendance_counts_every_call Sample.bob [200; 300] 150 Sample.listed)
    as [_ Hoff].
  split; [apply Hon; by eexists | apply Hoff; reflexivity].
Defined.

(** ** Reading an event counts a view *)

Lemma reads_succ n req db :
  reads (S n) req db = (getEventRoute req (reads n req db)).2.
Proof. reflexivity. Qed.

(** Extra X4. The detail route is a read that writes: every request for
    an active event adds one to its [views] and changes nothing else, so
    after [n] requests the stored event differs from the first one by
    [n] views, and every other event, the ledger and the users are the
    same. A soft-deleted event is answered 404 and keeps its count. *)
Theorem detail_reads_count_views
  (n : nat) (req : Request) (db : Db) (eid : ObjectId) (e : Event.t) :
  params_id req = Some eid →
  Events db !! eid = Some e →
  (Event.isActive e = true →
   Events (reads n req db)
     = <[eid := Event.set_views (Event.views e + Z.of_nat n) e]> (Events db) ∧
   Registrations (reads n req db) = Registrations db ∧
   Users (reads n req db) = Users db) ∧
  (Event.isActive e = false → reads n req db = db).
Proof.
  intros Hp He. split.
  - intros Hact. induction n as [|n (IHe & IHr & IHu)].
    + simpl. repeat split. symmetry. apply insert_id. rewrite He. f_equal.
      destruct e. unfold Event.set_views. simpl. f_equal. lia.
    + rewrite reads_succ. unfold getEventRoute. rewrite Hp. simpl.
      rewrite IHe, lookup_insert_eq. simpl. rewrite Hact. simpl.
      rewrite IHe, IHr, IHu. repeat split.
      rewrite insert_insert_eq. f_equal. unfold Event.set_views. simpl. f_equal. lia.
  - intros Hact. induction n as [|n IH]; [done|].
    rewrite reads_succ, IH. by rewrite (getEventRoute_inactive req db eid e).
Qed.

Lemma detail_reads_count_views_witness :
  Events (reads 3 (withId NoToken 1%nat) Sample.both)
    = <[1%nat := Event.set_views (0 + 3) Sample.listed]> (Events Sample.both) ∧
  reads 3 (withId NoToken 1%nat) Sample.deleted = Sample.deleted.
Proof.
  destruct (detail_reads_count_views 3 (withId NoToken 1%nat) Sample.both 1%nat
              Sample.listed eq_refl eq_refl) as [Hact _].
  destruct (detail_reads_count_views 3 (withId NoToken 1%nat) Sample.deleted 1%nat
              (Event.set_isActive false Sample.listed) eq_refl eq_refl) as [_ Hoff].
  split; [apply Hact; reflexivity | apply Hoff; reflexivity].
Defined.

(** ** The listing and the stored status *)

(** On integer instants one of the three tests of the recomputation
    always holds: the stored status is never the result by default. *)
Lemma newStatus_ignores_stored now start end_ st st' :
  Event.newStatus now start end_ st = Event.newStatus now start end_ st'.
Proof.
  unfold Event.newStatus.
  destruct (Z.ltb_spec end_ now); [done|].
  destruct (Z.ltb_spec now start); [done|].
  destruct (Z.leb_spec start now); [|lia].
  destruct (Z.leb_spec now end_); [done|lia].
Qed.

Lemma reconcile_fst now e :
  (Event.reconcile now e).1
  = Event.set_status
      (Event.newStatus now (Event.startDate e) (Event.endDate e) (Event.status e)) e.
Proof.
  unfold Event.reconcile. simpl. case_bool_decide as H; [|done].
  rewrite <- H. by destruct e.
Qed.

Lemma reconcile_isActive now e :
  Event.isActive (Event.reconcile now e).1 = Event.isActive e.
Proof. by rewrite reconcile_fst. Qed.

Lemma reconcile_again now e :
  Event.reconcile now (Event.reconcile now e).1 = Event.reconcile now e.
Proof.
  rewrite reconcile_fst. unfold Event.reconcile. simpl.
  set (s := Event.newStatus now (Event.startDate e) (Event.endDate e) (Event.status e)).
  rewrite (newStatus_ignores_stored now _ _ s (Event.status e)). fold s.
  rewrite (bool_decide_eq_true_2 (s = s)) by done.
  case_bool_decide as H; [|done]. f_equal. rewrite <- H. by destruct e.
Qed.

(** The listing of the first sections is the page that holds every
    active event. *)
Lemma listRoute_listPage now db : listRoute now db = listPage (λ _, true) now db.
Proof.
  unfold listRoute, listPage.
  assert (H : filter (λ kv, Event.isActive kv.2 = true) (Events db)
              = filter (λ kv, Event.isActive kv.2 = true ∧ true = true) (Events db)).
  { apply map_filter_ext. naive_solver. }
  by rewrite H.
Qed.

Lemma listPage_lookup onPage now db eid :
  Events (listPage onPage now db).2 !! eid
  = (λ e, if Event.isActive e && onPage (eid, e) then (Event.reconcile now e).1 else e)
      <$> Events db !! eid.
Proof.
  unfold listPage. simpl. rewrite lookup_union, !lookup_fmap, map_lookup_filter.
  destruct (Events db !! eid) as [e|]; simpl; [|done].
  case_guard as Hg; simpl in *.
  - destruct Hg as [-> ->]. done.
  - destruct (Event.isActive e), (onPage (eid, e)); simpl; try done. by destruct Hg.
Qed.

Lemma listed_lookup now db eid :
  (Event.reconcile now <$> filter (λ kv, Event.isActive kv.2 = true) (Events db)) !! eid
  = Events db !! eid ≫= λ e, if Event.isActive e then Some (Event.reconcile now e) else None.
Proof.
  rewrite lookup_fmap, map_lookup_filter.
  destruct (Events db !! eid) as [e|]; simpl; [|done].
  case_guard as Hg; simpl in *.
  - by rewrite Hg.
  - by destruct (Event.isActive e).
Qed.

(** Extra X5. The listing sets the stored status of every event on its
    page to the phase of the instant of the request (Past after the end,
    Upcoming before the start, Live in between) and changes no other
    field; the events that are not on the page, soft-deleted ones among
    them, the ledger and the users are left as they are. With every
    active event on the page, a second listing at the same instant gives
    the same answer and writes nothing more. *)
Theorem listing_reconciles
  (onPage : ObjectId * Event.t → bool) (now : Date) (db : Db) :
  (∀ eid e, Events db !! eid = Some e →
     Events (listPage onPage now db).2 !! eid
     = Some (if Event.isActive e && onPage (eid, e)
             then Event.set_status
                    (Event.newStatus now (Event.startDate e) (Event.endDate e)
                       (Event.status e)) e
             else e)) ∧
  (∀ eid, Events db !! eid = None → Events (listPage onPage now db).2 !! eid = None) ∧
  Registrations (listPage onPage now db).2 = Registrations db ∧
  Users (listPage onPage now db).2 = Users db ∧
  listRoute now (listRoute now db).2 = listRoute now db.
Proof.
  split; [|split; [|split; [done|split; [done|]]]].
  - intros eid e He. rewrite <- reconcile_fst. by rewrite listPage_lookup, He.
  - intros eid He. by rewrite listPage_lookup, He.
  - assert (Hlisted :
      Event.reconcile now <$>
        filter (λ kv, Event.isActive kv.2 = true) (Events (listRoute now db).2)
      = Event.reconcile now <$>
          filter (λ kv, Event.isActive kv.2 = true) (Events db)).
    { apply map_eq. intros k. rewrite !listed_lookup, listRoute_listPage, listPage_lookup.
      destruct (Events db !! k) as [e|]; [|done].
      cbn [fmap option_fmap option_map mbind option_bind]. rewrite andb_true_r.
      destruct (Event.isActive e) eqn:Ha.
      - by rewrite reconcile_isActive, Ha, reconcile_again.
      - by rewrite Ha. }
    unfold listRoute at 1. rewrite Hlisted. unfold listRoute. simpl. f_equal. f_equal.
    by rewrite (assoc_L (∪)), (idemp_L (∪)).
Qed.

Lemma listing_reconciles_witness :
  Events (listPage (λ _, true) 3000 Sample.both).2 !! 1%nat
    = Some (Event.set_status Event.Past Sample.listed) ∧
  Events (listPage (λ _, false) 3000 Sample.both).2 !! 1%nat = Some Sample.listed ∧
  Events (listPage (λ _, true) 3000 Sample.deleted).2 !! 1%nat
    = Some (Event.set_isActive false Sample.listed).
Proof.
  destruct (listing_reconciles (λ _, true) 3000 Sample.both) as [Hset _].
  destruct (listing_reconciles (λ _, false) 3000 Sample.both) as [Hoff _].
  destruct (listing_reconciles (λ _, true) 3000 Sample.deleted) as [Hkeep _].
  split; [apply (Hset 1%nat Sample.listed eq_refl)|].
  split; [apply (Hoff 1%nat Sample.listed eq_refl)|].
  apply (Hkeep 1%nat (Event.set_isActive false Sample.listed) eq_refl).
Defined.

(** ** Cancelling a registration more than once *)


Lemma cancels_cons t ts req db :
  cancels (t :: ts) req db = cancels ts req (deleteRegistration t req db).2.
Proof. reflexivity. Qed.

(** Extra X6. The cancellation route clears [isActive] and leaves the
    status, and it does not look at [isActive] before it takes one off
    the counter: when the owner of a confirmed registration cancels it
    [k] times, the counter of the event goes down by [k], stopping at
    zero. For a registration that is not confirmed the counter stays. The
    registration is still stored afterwards, inactive. *)
Theorem repeated_cancel (req : Request) (uid rid : ObjectId) (ts : list Date) :
  ∀ (t : Date) (db : Db) (r : Registration.t) (e : Event.t),
  callerId req db = Some uid →
  params_id req = Some rid →
  Registration.findById rid (Registrations db) = Some r →
  Registration.participant r = uid →
  Events db !! Registration.event r = Some e →
  Registration.findById rid (Registrations (cancels (t :: ts) req db))
    = Some (Registration.set_isActive false r) ∧
  countOf (Registration.event r) (cancels (t :: ts) req db)
    = Some (if bool_decide (Registration.status r = Registration.confirmed)
            then Z.max 0 (Event.currentParticipants e - (1 + Z.of_nat (length ts)))
            else Event.currentParticipants e).
Proof.
  induction ts as [|t' ts IH]; intros t db r e Hc Hp Hr Hu He.
  - rewrite cancels_cons. simpl.
    rewrite (deleteRegistration_accepts t req db uid rid r e Hc Hp Hr Hu He).
    cbn [snd]. case_bool_decide as Hst; simpl.
    + split; [apply findById_save with r; [done|]; simpl; by apply findById_id with (Registrations db)|].
      unfold countOf. simpl. rewrite lookup_insert_eq. simpl. by rewrite Z.sub_0_r || (f_equal; lia).
    + split; [apply findById_save with r; [done|]; simpl; by apply findById_id with (Registrations db)|].
      unfold countOf. simpl. by rewrite He.
  - rewrite cancels_cons.
    pose proof (deleteRegistration_accepts t req db uid rid r e Hc Hp Hr Hu He) as E.
    set (db1 := (deleteRegistration t req db).2) in *.
    assert (Hid : Registration._id r = rid) by (by apply findById_id with (Registrations db)).
    assert (Hc1 : callerId req db1 = Some uid).
    { unfold db1. rewrite E. cbn [snd]. by case_bool_decide. }
    assert (Hr1 : Registration.findById rid (Registrations db1)
                  = Some (Registration.set_isActive false r)).
    { unfold db1. rewrite E. cbn [snd].
      case_bool_decide; simpl; by apply findById_save with r. }
    destruct (decide (Registration.status r = Registration.confirmed)) as [Hst|Hst].
    + assert (He1 : Events db1 !! Registration.event r
                    = Some (Event.set_currentParticipants
                              (Z.max 0 (Event.currentParticipants e - 1)) e)).
      { unfold db1. rewrite E. cbn [snd]. rewrite (bool_decide_eq_true_2 _ Hst).
        simpl. apply lookup_insert_eq. }
      destruct (IH t' db1 _ _ Hc1 Hp Hr1 Hu He1) as [Hf Hn].
      split; [exact Hf|].
      cbn [Registration.event Registration.status Registration.set_isActive
           Event.currentParticipants Event.set_currentParticipants] in Hn. rewrite Hn.
      rewrite !(bool_decide_eq_true_2 _ Hst). simpl. f_equal. lia.
    + assert (He1 : Events db1 !! Registration.event r = Some e).
      { unfold db1. rewrite E. cbn [snd]. by rewrite (bool_decide_eq_false_2 _ Hst). }
      destruct (IH t' db1 _ _ Hc1 Hp Hr1 Hu He1) as [Hf Hn].
      split; [exact Hf|].
      cbn [Registration.event Registration.status Registration.set_isActive
           Event.currentParticipants Event.set_currentParticipants] in Hn. rewrite Hn.
      by rewrite !(bool_decide_eq_false_2 _ Hst).
Qed.

Lemma repeated_cancel_witness :
  let req := withId (Decoded Sample.alice) 1%nat in
  Registration.findById 1%nat
    (Registrations (cancels [10; 20; 30] req More.withConfirmed))
    = Some (Registration.set_isActive false More.confirmedReg) ∧
  countOf 1%nat (cancels [10; 20; 30] req More.withConfirmed) = Some 0 ∧
  countOf 1%nat (cancels [10] req More.withConfirmed) = Some 1.
Proof.
  intros req.
  destruct (repeated_cancel req Sample.alice 1%nat [20; 30] 10 More.withConfirmed
              More.confirmedReg More.counted eq_refl eq_refl eq_refl eq_refl eq_refl)
    as [Hf H3].
  destruct (repeated_cancel req Sample.alice 1%nat [] 10 More.withConfirmed
              More.confirmedReg More.counted eq_refl eq_refl eq_refl eq_refl eq_refl)
    as [_ H1].
  split; [exact Hf|]. split; [exact H3 | exact H1].
Defined.

(** ** One registration per user and event *)

Lemma findOne_None ev u l :
  Registration.findOne ev u l = None ↔ (ev, u) ∉ pairOf <$> l.
Proof.
  unfold Registration.findOne. induction l as [|x l IH]; csimpl.
  - split; [intros _; apply not_elem_of_nil | done].
  - rewrite not_elem_of_cons, <- IH.
    destruct (bool_decide (Registration.event x = ev)
              && bool_decide (Registration.participant x = u)) eqn:Hx.
    + apply andb_true_iff in Hx as [H1%bool_decide_eq_true H2%bool_decide_eq_true].
      split; [done|]. intros [Hne _]. exfalso. apply Hne. unfold pairOf. congruence.
    + split; [|tauto]. intros Hf. split; [|done]. unfold pairOf. intros [= H1 H2].
      by rewrite !bool_decide_eq_true_2 in Hx.
Qed.

Lemma save_pairs rid r r' l :
  NoDup (Registration._id <$> l) →
  Registration.findById rid l = Some r →
  Registration._id r' = rid →
  pairOf r' = pairOf r →
  pairOf <$> Registration.save r' l = pairOf <$> l.
Proof.
  intros Hnd Hf <- Hpair. induction l as [|x l IH]; [done|].
  csimpl in Hnd. apply NoDup_cons in Hnd as [Hx Hnd].
  unfold Registration.findById in *. simpl in Hf.
  change (Registration.save r' (x :: l))
    with ((if bool_decide (Registration._id x = Registration._id r') then r' else x)
            :: Registration.save r' l).
  csimpl. case_bool_decide as Hid.
  - injection Hf as <-. rewrite save_absent by (by rewrite <- Hid). by rewrite Hpair.
  - by rewrite IH.
Qed.

Lemma NoDup_fmap_eq {A B} (f : A → B) (l : list A) x y :
  NoDup (f <$> l) → x ∈ l → y ∈ l → f x = f y → x = y.
Proof.
  induction l as [|a l IH]; csimpl; intros Hnd Hx Hy Hf.
  - by apply elem_of_nil in Hx.
  - apply NoDup_cons in Hnd as [Ha Hnd].
    apply elem_of_cons in Hx as [->|Hx]; apply elem_of_cons in Hy as [->|Hy].
    + done.
    + exfalso. apply Ha. rewrite Hf. by apply list_elem_of_fmap_2.
    + exfalso. apply Ha. rewrite <- Hf. by apply list_elem_of_fmap_2.
    + by apply IH.
Qed.


Lemma ledgerUnique_save rid r r' l :
  ledgerUnique l →
  Registration.findById rid l = Some r →
  Registration._id r' = Registration._id r →
  pairOf r' = pairOf r →
  ledgerUnique (Registration.save r' l).
Proof.
  intros [Hid Hpair] Hf Hi Hp. split.
  - by rewrite save_ids.
  - rewrite (save_pairs rid r r' l); [done|done|done| |done].
    rewrite Hi. by apply findById_id with l.
Qed.

Lemma ledgerUnique_call call db :
  ledgerUnique (Registrations db) → ledgerUnique (Registrations (ledgerCall call db).2).
Proof.
  intros Hu. destruct call as [now req ev ty|req status notes|now req]; simpl.
  - unfold postRegistration, Registration.create.
    destruct (auth req db) as [x|c]; simpl; [done|].
    destruct (Events db !! ev) as [e|]; simpl; [|done].
    destruct (negb (Event.isActive e)); simpl; [done|].
    destruct (Event.isFull e); simpl; [done|].
    destruct (deadlinePassed now e); simpl; [done|].
    destruct (Registration.findOne ev c.1 (Registrations db)) eqn:Hone; simpl; [done|].
    destruct Hu as [Hid Hpair]. split; rewrite fmap_app; apply NoDup_app.
    + split; [done|]. split; [|apply NoDup_singleton].
      intros x Hx [->|[]%elem_of_nil]%elem_of_cons. by apply freshId_fresh in Hx.
    + split; [done|]. split; [|apply NoDup_singleton].
      intros x Hx [->|[]%elem_of_nil]%elem_of_cons. by apply findOne_None in Hone.
  - destruct (putStatus_effect req status notes db)
      as [-> | (rid & r & e & Hr & He & ->)]; [done|].
    cbv zeta. case_bool_decide; simpl;
      (apply ledgerUnique_save with rid r; [done|done| |]);
      try (by rewrite applyNotes_id);
      unfold pairOf, applyNotes; by repeat case_match.
  - destruct (deleteRegistration_effect now req db)
      as [-> | (rid & r & e & Hr & He & ->)]; [done|].
    cbv zeta. case_bool_decide; simpl; by apply ledgerUnique_save with rid r.
Qed.

(** Extra X7. The writing routes of the ledger keep the identifiers and
    the (event, participant) pairs of the stored registrations distinct:
    from a ledger where they are distinct (the empty one is), after any
    sequence of registrations, status updates and cancellations two
    stored registrations of the same user for the same event are one and
    the same record. *)
Theorem ledger_stays_unique (calls : list LedgerCall) (db : Db) :
  ledgerUnique (Registrations db) →
  ledgerUnique (Registrations (ledgerCalls calls db)) ∧
  ∀ r1 r2,
    r1 ∈ Registrations (ledgerCalls calls db) →
    r2 ∈ Registrations (ledgerCalls calls db) →
    Registration.event r1 = Registration.event r2 →
    Registration.participant r1 = Registration.participant r2 →
    r1 = r2.
Proof.
  intros Hu.
  assert (H : ledgerUnique (Registrations (ledgerCalls calls db))).
  { unfold ledgerCalls. revert db Hu.
    induction calls as [|call calls IH]; intros db Hu; simpl; [done|].
    apply IH. by apply ledgerUnique_call. }
  split; [done|]. intros r1 r2 H1 H2 He Hp.
  apply (NoDup_fmap_eq pairOf (Registrations (ledgerCalls calls db))); [apply H|done|done|].
  unfold pairOf. by rewrite He, Hp.
Qed.

Lemma ledger_stays_unique_witness :
  let alice := plain (Decoded Sample.alice) in
  let calls := [LPost 100 alice 1%nat Registration.Kind.participant;
                LCancel 150 (withId (Decoded Sample.alice) 1%nat);
                LPost 200 alice 1%nat Registration.Kind.coordinator;
                LPost 210 (plain (Decoded Sample.bob)) 1%nat Registration.Kind.participant] in
  ledgerUnique (Registrations (ledgerCalls calls (Sample.db 0 Event.Live))) ∧
  length (Registrations (ledgerCalls calls (Sample.db 0 Event.Live))) = 2%nat.
Proof.
  intros alice calls.
  destruct (ledger_stays_unique calls (Sample.db 0 Event.Live)) as [Hu _].
  - split; apply NoDup_nil_2.
  - split; [exact Hu | reflexivity].
Defined.

(** ** A run of status updates *)

Lemma adjustCount_bits old new e :
  confirmedBit old <= Event.currentParticipants e →
  Event.currentParticipants (adjustCount old new e)
  = Event.currentParticipants e - confirmedBit old + confirmedBit new.
Proof.
  unfold adjustCount, confirmedBit. repeat case_bool_decide; simpl; lia.
Qed.

Lemma statusUpdates_cons req s ss db :
  statusUpdates req (s :: ss) db = statusUpdates req ss (putStatus req s.1 s.2 db).2.
Proof. reflexivity. Qed.

(** Extra X8. However often the status of a registration is changed, the
    counter of its event moves by the difference between the last status
    and the first one only: one more when the registration ends up
    confirmed and was not, one less when it was and is no longer, the
    same otherwise. The registration carries the last status. The counter
    has to hold the unit of a confirmed registration at the start. *)
Theorem status_updates_telescope
  (req : Request) (c : Caller) (rid : ObjectId)
  (ss : list (Registration.Status * option string)) :
  ∀ (db : Db) (r : Registration.t) (e : Event.t),
  auth req db = Next c →
  requireFaculty c = Next tt →
  params_id req = Some rid →
  Registration.findById rid (Registrations db) = Some r →
  Events db !! Registration.event r = Some e →
  Event.createdBy e = c.1 ∨ User.role c.2 = User.admin →
  confirmedBit (Registration.status r) <= Event.currentParticipants e →
  (Registration.status <$>
     Registration.findById rid (Registrations (statusUpdates req ss db)))
    = Some (List.last (fst <$> ss) (Registration.status r)) ∧
  countOf (Registration.event r) (statusUpdates req ss db)
    = Some (Event.currentParticipants e
            - confirmedBit (Registration.status r)
            + confirmedBit (List.last (fst <$> ss) (Registration.status r))).
Proof.
  induction ss as [|[s n] ss IH]; intros db r e Ha Hf Hp Hr He Hown Hcp.
  - simpl. rewrite Hr. unfold countOf. rewrite He. simpl. split; [done|]. f_equal. lia.
  - rewrite statusUpdates_cons. cbn [fst snd].
    pose proof (putStatus_accepts req db c rid r e s n Ha Hf Hp Hr He Hown) as E.
    set (db1 := (putStatus req s n db).2) in *.
    set (r1 := applyNotes n (Registration.set_status s r)).
    assert (Hid : Registration._id r = rid) by (by apply findById_id with (Registrations db)).
    assert (Hr1 : Registration.findById rid (Registrations db1) = Some r1).
    { unfold db1. rewrite E. cbn [snd]. cbv zeta. fold r1.
      case_bool_decide; simpl; (apply findById_save with r; [done|]);
        unfold r1; by rewrite applyNotes_id. }
    assert (Hev1 : Registration.event r1 = Registration.event r)
      by (unfold r1; by rewrite applyNotes_event).
    assert (Hst1 : Registration.status r1 = s)
      by (unfold r1; by rewrite applyNotes_status).
    assert (Ha1 : auth req db1 = Next c).
    { unfold db1. rewrite E. cbn [snd]. cbv zeta. by case_bool_decide. }
    assert (He1 : ∃ e1, Events db1 !! Registration.event r1 = Some e1 ∧
                        Event.createdBy e1 = Event.createdBy e ∧
                        Event.currentParticipants e1
                        = Event.currentParticipants e
                          - confirmedBit (Registration.status r) + confirmedBit s).
    { rewrite Hev1. unfold db1. rewrite E. cbn [snd]. cbv zeta. fold r1.
      case_bool_decide as Hsame; simpl.
      - exists e. rewrite He, Hsame. split; [done|]. split; [done|]. lia.
      - exists (adjustCount (Registration.status r) s e). rewrite lookup_insert_eq.
        split; [done|]. split; [apply adjustCount_createdBy|]. by apply adjustCount_bits. }
    destruct He1 as (e1 & He1 & Hcb1 & Hcp1).
    destruct (IH db1 r1 e1 Ha1 Hf Hp Hr1 He1) as [Hs Hn].
    + by rewrite Hcb1.
    + rewrite Hst1, Hcp1. unfold confirmedBit in *. repeat case_bool_decide; lia.
    + rewrite Hst1, Hev1 in *.
      change (fst <$> (s, n) :: ss) with (s :: (fst <$> ss)).
      rewrite last_cons_default.
      split; [exact Hs|]. rewrite Hn. f_equal. lia.
Qed.

Lemma status_updates_telescope_witness :
  let req := withId (Decoded Sample.carol) 1%nat in
  let ss := [(Registration.confirmed, None); (Registration.rejected, Some "full");
             (Registration.confirmed, None); (Registration.confirmed, None);
             (Registration.cancelled, None); (Registration.confirmed, None)] in
  (Registration.status <$>
     Registration.findById 1%nat (Registrations (statusUpdates req ss Sample.withPending)))
    = Some Registration.confirmed ∧
  countOf 1%nat (statusUpdates req ss Sample.withPending) = Some (1 - 0 + 1).
Proof.
  intros req ss.
  exact (status_updates_telescope req
           (Sample.carol, User.mk User.faculty true []) 1%nat ss
           Sample.withPending Sample.pendingReg
           (Event.set_currentParticipants 1 (Sample.event 0 Event.Live))
           eq_refl eq_refl eq_refl eq_refl eq_refl (or_introl eq_refl)
           ltac:(unfold confirmedBit; simpl; lia)).
Defined.

(** ** What a soft delete closes *)

Lemma deleteEventRoute_accepts req db c eid e :
  auth req db = Next c →
  requireOwnershipOrAdmin c req db = Next tt →
  params_id req = Some eid →
  Events db !! eid = Some e →
  deleteEventRoute req db =
    (Json 200 "Event deleted successfully",
     saveEvent eid (Event.set_isActive false e) db).
Proof.
  intros Ha Ho Hp He. unfold deleteEventRoute. rewrite Ha. simpl. rewrite Ho. simpl.
  rewrite Hp. simpl. by rewrite He.
Qed.

(** The roster routes and the participants route answer the same
    whatever [isActive] of the event is. *)
Lemma roster_routes_ignore_isActive db eid e b :
  Events db !! eid = Some e →
  let db' := saveEvent eid (Event.set_isActive b e) db in
  (∀ now req, (registerRoute now req db').1 = (registerRoute now req db).1) ∧
  (∀ req, (unregisterRoute req db').1 = (unregisterRoute req db).1) ∧
  (∀ req, (participantsRoute req db').1 = (participantsRoute req db).1).
Proof.
  intros He db'. split; [|split].
  - intros now req. unfold registerRoute, canParticipateInEvent, registerHandler.
    change (auth req db') with (auth req db).
    destruct (auth req db) as [x|c]; simpl; [done|].
    destruct (params_eventId req) as [k|]; simpl; [|done].
    destruct (decide (eid = k)) as [<-|Hne].
    + rewrite lookup_insert_eq, He. simpl.
      change (Event.canUserRegister now c.1 (Event.set_isActive b e))
        with (Event.canUserRegister now c.1 e).
      destruct (Event.canUserRegister now c.1 e) eqn:Hcan; simpl; [|done].
      unfold Event.registerUser.
      change (Event.canUserRegister now c.1 (Event.set_isActive b e))
        with (Event.canUserRegister now c.1 e).
      by rewrite Hcan.
    + rewrite lookup_insert_ne by done.
      destruct (Events db !! k) as [e0|]; simpl; [|done].
      destruct (negb (Event.canUserRegister now c.1 e0)); simpl; [done|].
      by destruct (Event.registerUser now c.1 e0).
  - intros req. unfold unregisterRoute, isRegisteredForEvent, unregisterHandler.
    change (auth req db') with (auth req db).
    destruct (auth req db) as [x|c]; simpl; [done|].
    destruct (params_eventId req) as [k|]; simpl; [|done].
    destruct (decide (eid = k)) as [<-|Hne].
    + rewrite lookup_insert_eq, He. simpl.
      change (Event.findParticipant c.1 (Event.set_isActive b e))
        with (Event.findParticipant c.1 e).
      by destruct (Event.findParticipant c.1 e).
    + rewrite lookup_insert_ne by done.
      destruct (Events db !! k) as [e0|]; simpl; [|done].
      by destruct (Event.findParticipant c.1 e0).
  - intros req. unfold participantsRoute, requireOwnershipOrAdmin.
    change (auth req db') with (auth req db).
    destruct (auth req db) as [x|c]; simpl; [done|].
    destruct (params_id req) as [k|]; simpl.
    + destruct (decide (eid = k)) as [<-|Hne].
      * rewrite lookup_insert_eq, He. simpl.
        repeat case_bool_decide; simpl; done.
      * rewrite lookup_insert_ne by done.
        destruct (Events db !! k) as [e0|]; simpl; repeat case_bool_decide; simpl; done.
    + repeat case_bool_decide; simpl; done.
Qed.

(** Extra X9. After the soft delete of an event by a caller the delete
    route lets through, the detail route and the ledger registration
    answer 404 for it; the roster registration, the unregistration and
    the participants route do not look at [isActive] and answer every
    request as they did before the delete. *)
Theorem soft_delete_closes_ledger_only
  (reqd : Request) (db : Db) (c : Caller) (eid : ObjectId) (e : Event.t) :
  auth reqd db = Next c →
  requireOwnershipOrAdmin c reqd db = Next tt →
  params_id reqd = Some eid →
  Events db !! eid = Some e →
  let s := deleteEventRoute reqd db in
  s.1 = Json 200 "Event deleted successfully" ∧
  Events s.2 = <[eid := Event.set_isActive false e]> (Events db) ∧
  (∀ req, params_id req = Some eid →
     getEventRoute req s.2 = (Json 404 "Event not found", s.2)) ∧
  (∀ now req ty, is_Some (callerId req s.2) →
     postRegistration now req eid ty s.2 = (Json 404 "Event not found or inactive", s.2)) ∧
  (∀ now req, (registerRoute now req s.2).1 = (registerRoute now req db).1) ∧
  (∀ req, (unregisterRoute req s.2).1 = (unregisterRoute req db).1) ∧
  (∀ req, (participantsRoute req s.2).1 = (participantsRoute req db).1).
Proof.
  intros Ha Ho Hp He s.
  pose proof (deleteEventRoute_accepts reqd db c eid e Ha Ho Hp He) as E.
  subst s. rewrite E. cbn [fst snd].
  assert (He' : Events (saveEvent eid (Event.set_isActive false e) db) !! eid
                = Some (Event.set_isActive false e)) by apply lookup_insert_eq.
  split; [done|]. split; [done|]. split; [|split].
  - intros req Hreq. by apply getEventRoute_inactive with eid (Event.set_isActive false e).
  - intros now req ty [uid Hc]. apply postRegistration_missing with uid; [done|].
    right. by exists (Event.set_isActive false e).
  - by apply roster_routes_ignore_isActive.
Qed.

Lemma soft_delete_closes_ledger_only_witness :
  let s := deleteEventRoute (withId (Decoded Sample.carol) 1%nat) (Sample.db 0 Event.Live) in
  (postRegistration 100 (plain (Decoded Sample.alice)) 1%nat
     Registration.Kind.participant s.2).1 = Json 404 "Event not found or inactive" ∧
  (registerRoute 100 (withEventId (Decoded Sample.alice) 1%nat) s.2).1
    = Json 200 "Successfully registered for event".
Proof.
  intros s.
  destruct (soft_delete_closes_ledger_only (withId (Decoded Sample.carol) 1%nat)
              (Sample.db 0 Event.Live) (Sample.carol, User.mk User.faculty true [])
              1%nat (Sample.event 0 Event.Live) eq_refl eq_refl eq_refl eq_refl)
    as (_ & _ & _ & Hpost & Hreg & _).
  split.
  - fold s in Hpost. rewrite Hpost; [reflexivity|]. by eexists.
  - fold s in Hreg. rewrite Hreg. reflexivity.
Defined.

(** ** The registration routes as mounted *)


(** Extra X12. The middleware of the two roster routes reads
    [req.params.eventId]; the router mounts them on ['/:id/register'] and
    ['/:id/unregister']. Whatever the tokens, the identifiers and the
    store, a sequence of requests to the mounted routes leaves the store
    as it was, and each request is answered by the refusal of [auth] or
    by 400 'Event ID required', never with success. *)
Theorem mounted_routes_never_write (calls : list MountedCall) (db : Db) :
  (mountedCalls calls db).2 = db ∧
  (mountedCalls calls db).1 = (λ call, mountedAnswer call db) <$> calls ∧
  Forall (λ r, succeeded r = false) (mountedCalls calls db).1.
Proof.
  induction calls as [|call calls IH]; simpl; [by repeat split|].
  destruct (mountedCall_refuses call db) as [-> Hs].
  destruct (mountedCalls calls db) as [rs db2]. simpl in *.
  destruct IH as (-> & -> & Hall). split; [done|]. split; [done|]. by constructor.
Qed.

(** ** The counter against what stands behind it *)

(** A write that keeps the ledger, and of every event the length of the
    roster and the counter, keeps the counters backed. *)
Lemma backed_same_counts db db' :
  Registrations db' = Registrations db →
  (∀ eid e', Events db' !! eid = Some e' →
     ∃ e, Events db !! eid = Some e ∧
          length (Event.participants e') = length (Event.participants e) ∧
          Event.currentParticipants e' = Event.currentParticipants e) →
  backed db → backed db'.
Proof.
  intros Hr He [Hnd Hle]. split; [by rewrite Hr|].
  intros eid e' He'. destruct (He eid e' He') as (e & Hl & Hp & Hc).
  rewrite Hr, Hp, Hc. by apply Hle.
Qed.

Lemma backed_saveEvent db eid e e' :
  Events db !! eid = Some e →
  length (Event.participants e') = length (Event.participants e) →
  Event.currentParticipants e' = Event.currentParticipants e →
  backed db → backed (saveEvent eid e' db).
Proof.
  intros He Hp Hc. apply backed_same_counts; [done|]. simpl.
  intros k x. destruct (decide (eid = k)) as [<-|Hne].
  - rewrite lookup_insert_eq. intros [= <-]. eauto.
  - rewrite lookup_insert_ne by done. eauto.
Qed.

Lemma backed_attendance now req u db :
  backed db → backed (attendanceRoute now req u db).2.
Proof.
  intros H. unfold attendanceRoute.
  destruct (auth req db) as [r|c]; simpl; [done|].
  destruct (requireOwnershipOrAdmin c req db) as [r|[]]; simpl; [done|].
  destruct u as [u|]; simpl; [|done].
  destruct (params_id req) as [id|]; simpl; [|done].
  destruct (Events db !! id) as [e|] eqn:He; simpl; [|done].
  unfold Event.markAttendance.
  destruct (Event.findParticipant u e); simpl; [|done].
  apply backed_saveEvent with e; [done| |done|done].
  simpl. apply markFirst_length.
Qed.

Lemma backed_detail req db : backed db → backed (getEventRoute req db).2.
Proof.
  intros H. unfold getEventRoute.
  destruct (params_id req) as [id|]; simpl; [|done].
  destruct (Events db !! id) as [e|] eqn:He; simpl; [|done].
  destruct (negb (Event.isActive e)); simpl; [done|].
  by apply backed_saveEvent with e.
Qed.

Lemma backed_listing onPage now db : backed db → backed (listPage onPage now db).2.
Proof.
  apply backed_same_counts; [done|].
  intros eid e'. rewrite listPage_lookup.
  destruct (Events db !! eid) as [e|]; simpl; [|done].
  intros [= <-]. exists e. split; [done|].
  destruct (Event.isActive e && onPage (eid, e)); [|done].
  unfold Event.reconcile. simpl. by case_bool_decide.
Qed.

Lemma backed_deleteEvent req db : backed db → backed (deleteEventRoute req db).2.
Proof.
  intros H. unfold deleteEventRoute.
  destruct (auth req db) as [r|c]; simpl; [done|].
  destruct (requireOwnershipOrAdmin c req db) as [r|[]]; simpl; [done|].
  destruct (params_id req) as [id|]; simpl; [|done].
  destruct (Events db !! id) as [e|] eqn:He; simpl; [|done].
  by apply backed_saveEvent with e.
Qed.

Lemma backed_storeCalls calls : ∀ db, backed db → backed (storeCalls calls db).
Proof.
  unfold storeCalls. induction calls as [|call calls IH]; intros db H; simpl; [done|].
  apply IH. destruct call as [c|now req u|req|onPage now|req]; simpl.
  - apply (backed_calls [c] db H).
  - by apply backed_attendance.
  - by apply backed_detail.
  - by apply backed_listing.
  - by apply backed_deleteEvent.
Qed.

(** Extra X13. From a store in which the registrations have distinct
    identifiers and every counter is at least the roster entries plus the
    confirmed registrations of its event, every sequence of the routes
    that register, unregister, update a status, mark attendance, read or
    list events, or delete an event leaves such a store: no counter falls
    below what stands behind it, and none below zero. Two writing routes
    do not keep this. The cancellation of a registration lowers the
    counter and leaves the registration confirmed, and the update of an
    event writes the counter its body names. *)
Theorem counters_stay_backed (db : Db) (calls : list StoreCall) :
  NoDup (Registration._id <$> Registrations db) →
  (∀ eid e, Events db !! eid = Some e →
     Z.of_nat (length (Event.participants e)) + confirmedCount eid (Registrations db)
     <= Event.currentParticipants e) →
  let db' := storeCalls calls db in
  NoDup (Registration._id <$> Registrations db') ∧
  (∀ eid e, Events db' !! eid = Some e →
     Z.of_nat (length (Event.participants e)) + confirmedCount eid (Registrations db')
     <= Event.currentParticipants e ∧
     0 <= Event.currentParticipants e) ∧
  (∃ now req db0, backed db0 ∧ ¬ backed (deleteRegistration now req db0).2) ∧
  (∃ req body db0, backed db0 ∧ ¬ backed (EventUpdate.putEvent req body db0).2).
Proof.
  intros Hnd Hle db'. subst db'.
  destruct (backed_storeCalls calls db (conj Hnd Hle)) as [Hnd' Hle'].
  split; [done|]. split; [|split].
  - intros eid e He. specialize (Hle' eid e He).
    pose proof (confirmedCount_nonneg eid (Registrations (storeCalls calls db))). lia.
  - exists 300, (withId (Decoded Sample.alice) 1%nat),
      (mkDb {[ 1%nat := Event.set_currentParticipants 1 (Sample.event 0 Event.Live) ]}
            [More.confirmedReg] Sample.users).
    split.
    + split; [apply NoDup_singleton|]. simpl.
      intros eid e [<- <-]%lookup_singleton_Some. by vm_compute.
    + intros [_ H]. specialize (H 1%nat _ eq_refl). by vm_compute in H.
  - exists (withId (Decoded Sample.carol) 1%nat),
      (EventUpdate.withCurrentParticipants (-5)), (Sample.db 0 Event.Live).
    split.
    + split; [apply NoDup_nil_2|]. simpl.
      intros eid e [<- <-]%lookup_singleton_Some. by vm_compute.
    + intros [_ H]. specialize (H 1%nat _ eq_refl). by vm_compute in H.
Qed.

Lemma counters_stay_backed_witness :
  ∃ e, Events (storeCalls
                 [Counter (CRegister 1%nat
                             (ViaLedger 100 (Decoded Sample.alice)
                                Registration.Kind.participant));
                  Counter (CStatus (withId (Decoded Sample.carol) 1%nat)
                             Registration.confirmed None);
                  Attendance 150 (withId (Decoded Sample.carol) 1%nat) (Some Sample.alice);
                  Counter (CUnregister (withId (Decoded Sample.alice) 1%nat));
                  Counter (CStatus (withId (Decoded Sample.carol) 1%nat)
                             Registration.rejected None);
                  DeleteEvent (withId (Decoded Sample.root) 1%nat)]
                 (Sample.db 0 Event.Live)) !! 1%nat = Some e ∧
       0 <= Event.currentParticipants e.
Proof.
  match goal with |- ∃ e, Events (storeCalls ?c ?d) !! _ = _ ∧ _ =>
    pose (calls := c); pose (db := d) end.
  assert (He : is_Some (Events (storeCalls calls db) !! 1%nat))
    by (vm_compute; eexists; reflexivity).
  destruct He as [e He]. exists e. split; [exact He|].
  refine (proj2 (proj1 (proj2 (counters_stay_backed db calls _ _)) 1%nat e He)).
  - apply NoDup_nil_2.
  - simpl. intros eid x [<- <-]%lookup_singleton_Some. by vm_compute.
Defined.

(** ** Deactivating users *)

(** [auth] on a deactivated account. *)
Lemma auth_deactivated req db uid u :
  token req = Decoded uid →
  Users db !! uid = Some u →
  User.isActive u = false →
  auth req db = Respond (Json 401 "Account is deactivated. Please contact administrator.").
Proof. unfold auth. by intros -> -> ->. Qed.

Lemma auth_active req db uid u :
  token req = Decoded uid →
  Users db !! uid = Some u →
  User.isActive u = true →
  auth req db = Next (uid, u).
Proof. unfold auth. by intros -> -> ->. Qed.

(** Extra X14. The deactivation routes keep a faculty caller away from
    an admin account: [DELETE /api/users/:id] answers 403, and so do the
    admin-only [DELETE /api/auth/users/:id] and bulk update, however the
    path segment is spelled and whatever the flag. The profile update
    [PUT /api/users/:id] takes only [role] out of a faculty caller's
    body: with [isActive: false] it deactivates the admin, whom [auth]
    then refuses on every request. *)
Theorem faculty_deactivates_admin_by_update
  (canonical : bool) (req : Request) (acc : Accounts) (c : Caller) (tid : ObjectId)
  (t : User.t) (r : option Users.BodyRole) :
  auth req (store acc) = Next c →
  User.role c.2 = User.faculty →
  params_id req = Some tid →
  tid ≠ c.1 →
  Users (store acc) !! tid = Some t →
  User.role t = User.admin →
  Users.deleteUser canonical req acc
    = (Json 403 "Faculty cannot deactivate admin accounts", acc) ∧
  Users.authDeleteUser canonical req acc
    = (Json 403 "Only admins can deactivate users", acc) ∧
  (∀ ids flag, Users.bulkUpdateStatus req ids flag acc
               = (Users.Refused (Json 403 "Admin access required"), acc)) ∧
  let s := Users.putUser canonical req (Users.mkBody (Some false) r) acc in
  s.1 = Json 200 "User updated successfully" ∧
  Users (store s.2) = <[tid := Users.set_isActive false t]> (Users (store acc)) ∧
  ∀ req', token req' = Decoded tid →
    auth req' (store s.2)
    = Respond (Json 401 "Account is deactivated. Please contact administrator.").
Proof.
  intros Ha Hrole Hp Hne Ht Hadm.
  assert (Hself : Users.isSelf canonical req c = false).
  { unfold Users.isSelf. rewrite bool_decide_eq_false_2; [apply andb_false_r|].
    rewrite Hp. congruence. }
  split; [|split; [|split]].
  - unfold Users.deleteUser, requireFaculty. rewrite Ha. simpl. rewrite Hrole. simpl.
    rewrite Hself, Hp. simpl. rewrite Ht. simpl. rewrite Hadm.
    by rewrite !bool_decide_eq_true_2.
  - unfold Users.authDeleteUser. rewrite Ha. simpl. by rewrite Hrole.
  - intros ids flag. unfold Users.bulkUpdateStatus, requireAdmin. rewrite Ha. simpl.
    by rewrite Hrole.
  - unfold Users.putUser. rewrite Ha. simpl. rewrite Hself, Hrole. simpl.
    rewrite Hp. simpl. rewrite Ht. simpl. split; [done|]. split; [done|].
    intros req' Htok. apply auth_deactivated with tid (Users.set_isActive false t);
      [done| |done]. simpl. by rewrite lookup_insert_eq.
Qed.

Lemma faculty_deactivates_admin_by_update_witness :
  let acc := mkAccounts (Sample.db 0 Event.Live) ∅ in
  let req := withId (Decoded Sample.carol) Sample.root in
  let s := Users.putUser true req (Users.mkBody (Some false) None) acc in
  (Users.deleteUser true req acc).1
    = Json 403 "Faculty cannot deactivate admin accounts" ∧
  auth (plain (Decoded Sample.root)) (store s.2)
    = Respond (Json 401 "Account is deactivated. Please contact administrator.").
Proof.
  intros acc req s.
  destruct (faculty_deactivates_admin_by_update true req acc
              (Sample.carol, User.mk User.faculty true []) Sample.root
              (User.mk User.admin true []) None
              eq_refl eq_refl eq_refl ltac:(done) eq_refl eq_refl)
    as (Hdel & _ & _ & _ & _ & Hauth).
  split; [by rewrite Hdel | by apply Hauth].
Defined.

(** ** Who can lose access by their own request *)

Lemma callerId_Some req db uid :
  callerId req db = Some uid ↔
  token req = Decoded uid ∧ ∃ u, Users db !! uid = Some u ∧ User.isActive u = true.
Proof.
  unfold callerId, auth. split.
  - destruct (token req) as [| |v]; try done.
    destruct (Users db !! v) as [u|] eqn:Hu; try done.
    destruct (User.isActive u) eqn:Hact; simpl; [|done].
    intros [= <-]. eauto.
  - intros (-> & u & -> & ->). done.
Qed.

Lemma auth_Next req db uid u :
  auth req db = Next (uid, u) ↔
  token req = Decoded uid ∧ Users db !! uid = Some u ∧ User.isActive u = true.
Proof.
  unfold auth. split.
  - destruct (token req) as [| |v]; try done.
    destruct (Users db !! v) as [x|] eqn:Hx; try done.
    destruct (User.isActive x) eqn:Hact; simpl; [|done].
    by intros [= <- <-].
  - by intros (-> & -> & ->).
Qed.

Lemma updateMany_lookup ids flag users k :
  Users.updateMany ids flag users !! k
  = (λ u, if bool_decide (k ∈ ids) then Users.set_isActive flag u else u) <$> users !! k.
Proof.
  unfold Users.updateMany. rewrite lookup_union, lookup_fmap, map_lookup_filter.
  destruct (users !! k) as [u|]; simpl; [|done].
  case_guard as Hg; simpl in *.
  - by rewrite bool_decide_eq_true_2.
  - by rewrite bool_decide_eq_false_2.
Qed.

Lemma saveUser_other req db uid id u :
  callerId req db = Some uid → id ≠ uid →
  callerId req (Users.saveUser id u db) = Some uid.
Proof.
  rewrite !callerId_Some. intros (Ht & x & Hx & Hact) Hne. split; [done|].
  exists x. simpl. by rewrite lookup_insert_ne.
Qed.

Lemma saveUser_self req db uid u :
  token req = Decoded uid → User.isActive u = false →
  callerId req (Users.saveUser uid u db) = None.
Proof.
  intros Ht Hu. unfold callerId, auth. rewrite Ht. simpl.
  by rewrite lookup_insert_eq, Hu.
Qed.

(** Extra X15. [DELETE /api/users/:id] and [DELETE /api/auth/users/:id]
    refuse the caller's own identifier by comparing the path segment
    with [toString()] of it. When the segment is spelled that way, or
    names another user, the caller still passes [auth] after the
    request, as after every request to the reactivation route. The
    caller's identifier spelled otherwise (its digits in upper case)
    passes the comparison and is found by the lookup: a faculty member
    or an admin deactivates themselves by [DELETE /api/users/:id], an
    admin by [DELETE /api/auth/users/:id], and [auth] refuses them from
    then on. The profile update has no guard: a faculty member or an
    admin who sends [isActive: false] to their own identifier, in any
    spelling, is deactivated. *)
Theorem self_deactivation_guard
  (req : Request) (acc : Accounts) (uid : ObjectId) (u : User.t) :
  auth req (store acc) = Next (uid, u) →
  (∀ canonical, canonical = true ∨ params_id req ≠ Some uid →
     callerId req (store (Users.deleteUser canonical req acc).2) = Some uid ∧
     callerId req (store (Users.authDeleteUser canonical req acc).2) = Some uid) ∧
  callerId req (store (Users.reactivateUser req acc).2) = Some uid ∧
  (params_id req = Some uid →
     (User.role u ≠ User.participant →
        (Users.deleteUser false req acc).1 = Json 200 "User deactivated successfully" ∧
        callerId req (store (Users.deleteUser false req acc).2) = None) ∧
     (User.role u = User.admin →
        (Users.authDeleteUser false req acc).1
          = Json 200 "User deactivated successfully" ∧
        callerId req (store (Users.authDeleteUser false req acc).2) = None) ∧
     (User.role u ≠ User.participant → ∀ canonical,
        let s := Users.putUser canonical req (Users.mkBody (Some false) None) acc in
        s.1 = Json 200 "User updated successfully" ∧
        callerId req (store s.2) = None)).
Proof.
  intros Ha. pose proof Ha as (Htok & Hu & Hact)%auth_Next.
  assert (Hc : callerId req (store acc) = Some uid).
  { apply callerId_Some. eauto. }
  split; [|split].
  - intros canonical Hsp.
    assert (Hother : Users.isSelf canonical req (uid, u) = false →
                     ∀ id, params_id req = Some id → id ≠ uid).
    { unfold Users.isSelf. intros Hs id Hp ->. simpl in Hs.
      rewrite (bool_decide_eq_true_2 _ Hp), andb_true_r in Hs. subst canonical.
      by destruct Hsp. }
    split.
    + unfold Users.deleteUser. rewrite Ha. simpl.
      destruct (requireFaculty (uid, u)) as [x|[]]; simpl; [done|].
      destruct (Users.isSelf canonical req (uid, u)) eqn:Hself; simpl; [done|].
      destruct (params_id req) as [id|] eqn:Hp; simpl; [|done].
      destruct (Users (store acc) !! id) as [t|]; simpl; [|done].
      destruct (_ && _); simpl; [done|]. apply saveUser_other; [done|].
      by apply Hother.
    + unfold Users.authDeleteUser. rewrite Ha. simpl.
      destruct (negb _); simpl; [done|].
      destruct (Users.isSelf canonical req (uid, u)) eqn:Hself; simpl; [done|].
      destruct (params_id req) as [id|] eqn:Hp; simpl; [|done].
      destruct (Users (store acc) !! id) as [t|]; simpl; [|done].
      apply saveUser_other; [done|]. by apply Hother.
  - unfold Users.reactivateUser. rewrite Ha. simpl.
    destruct (requireAdmin (uid, u)) as [x|[]]; simpl; [done|].
    destruct (params_id req) as [id|]; simpl; [|done].
    destruct (Users (store acc) !! id) as [t|] eqn:Ht; simpl; [|done].
    apply callerId_Some. split; [done|]. simpl.
    destruct (decide (id = uid)) as [->|Hne].
    + rewrite lookup_insert_eq. eauto.
    + rewrite lookup_insert_ne by done. eauto.
  - intros Hp. split; [|split].
    + intros Hrole. unfold Users.deleteUser, requireFaculty. rewrite Ha. simpl.
      assert (bool_decide (User.role u = User.faculty)
              && bool_decide (User.role u = User.admin) = false) as Hfa
        by (by destruct (User.role u)).
      destruct (User.role u) eqn:Hr; [| |done]; simpl; rewrite Hp; simpl;
        rewrite Hu; simpl; rewrite ?Hr; simpl;
        (split; [done|]); by apply saveUser_self.
    + intros Hrole. unfold Users.authDeleteUser. rewrite Ha. simpl.
      rewrite Hrole. simpl. rewrite Hp. simpl. rewrite Hu. simpl.
      split; [done|]. by apply saveUser_self.
    + intros Hrole canonical s. subst s. unfold Users.putUser. rewrite Ha. simpl.
      destruct (User.role u) eqn:Hr; [| |done]; simpl;
        rewrite andb_false_r; simpl; rewrite Hp; simpl; rewrite Hu; simpl;
        (split; [done|]); by apply saveUser_self.
Qed.

Lemma self_deactivation_guard_witness :
  let acc := mkAccounts (Sample.db 0 Event.Live) ∅ in
  let req := withId (Decoded Sample.root) Sample.root in
  Users.deleteUser true req acc = (Json 400 "Cannot deactivate your own account", acc) ∧
  callerId req (store (Users.deleteUser true req acc).2) = Some Sample.root ∧
  (Users.deleteUser false req acc).1 = Json 200 "User deactivated successfully" ∧
  callerId req (store (Users.deleteUser false req acc).2) = None ∧
  callerId req (store (Users.authDeleteUser false req acc).2) = None.
Proof.
  intros acc req.
  destruct (self_deactivation_guard req acc Sample.root (User.mk User.admin true [])
              eq_refl) as (Hkeep & _ & Hself).
  destruct (Hkeep true (or_introl eq_refl)) as [Hdel _].
  destruct (Hself eq_refl) as (Hd & Ha & _).
  destruct (Hd ltac:(done)) as [Hd1 Hd2].
  destruct (Ha eq_refl) as [_ Ha2].
  split; [reflexivity|]. split; [exact Hdel|]. split; [exact Hd1|].
  split; [exact Hd2 | exact Ha2].
Defined.

(** ** The bulk status update *)

Local Ltac bulk_refused :=
  cbn [fst snd];
  split; [done|]; split; [done|]; split; [done|]; split; [done|];
  split; [intros ? ? Hup; discriminate Hup|].

(** Extra X16. [POST /api/users/bulk/update-status] writes nothing but
    [isActive] of users: events, registrations, roles and permissions
    are as before. Its flag is any value [isBoolean()] admits. When the
    route answers with a count, every listed user has the boolean the
    flag is cast to, every other user is as before, and the count is the
    number of users the list names, whether their flag changed or not.
    The guard for admins reads the flag as a condition. With [false] or
    0, a list that names an admin is refused as a whole and no admin
    document is touched. With the string 'false' or '0' the guard is
    skipped: an admin caller gets the count with the word for an
    activation, and every user of the list, admins and the caller
    included, is deactivated. *)
Theorem bulk_update_status
  (req : Request) (ids : list ObjectId) (flag : Users.Flag) (acc : Accounts) :
  let s := Users.bulkUpdateStatus req ids flag acc in
  Events (store s.2) = Events (store acc) ∧
  Registrations (store s.2) = Registrations (store acc) ∧
  permissions s.2 = permissions acc ∧
  (∀ uid, User.role <$> Users (store s.2) !! uid
          = User.role <$> Users (store acc) !! uid) ∧
  (∀ b n, s.1 = Users.Updated b n →
     b = Users.truthy flag ∧
     (∀ uid, uid ∈ ids →
        Users (store s.2) !! uid
        = Users.set_isActive (Users.cast flag) <$> Users (store acc) !! uid) ∧
     (∀ uid, uid ∉ ids → Users (store s.2) !! uid = Users (store acc) !! uid) ∧
     n = size (filter (λ kv, kv.1 ∈ ids) (Users (store acc)))) ∧
  (Users.truthy flag = false →
     ∀ uid u, Users (store acc) !! uid = Some u → User.role u = User.admin →
       Users (store s.2) !! uid = Some u ∧
       (uid ∈ ids → s.2 = acc ∧ ∀ b n, s.1 ≠ Users.Updated b n)) ∧
  (∀ c b, auth req (store acc) = Next c → User.role c.2 = User.admin →
          ids ≠ [] → flag = Users.JsonString b →
          s.1 = Users.Updated true
                  (size (filter (λ kv, kv.1 ∈ ids) (Users (store acc)))) ∧
          (b = false → c.1 ∈ ids → callerId req (store s.2) = None)).
Proof.
  intros s. subst s. unfold Users.bulkUpdateStatus.
  destruct (auth req (store acc)) as [x|c] eqn:Ha; simpl.
  { bulk_refused. split; [|done]. intros Hf uid u Hu Hadm. repeat split; done. }
  unfold requireAdmin. case_bool_decide as Hadmin; simpl; cycle 1.
  { bulk_refused. split.
    - intros Hf uid u Hu Hr. repeat split; done.
    - intros c' b [= <-]. done. }
  destruct ids as [|i ids].
  { bulk_refused. split; [|done]. intros Hf uid u Hu Hr. repeat split; done. }
  set (l := i :: ids).
  destruct (negb (Users.truthy flag)
            && negb (bool_decide (Users.adminsAmong l (store acc) = ∅))) eqn:Hguard.
  { bulk_refused. split.
    - intros Hf uid u Hu Hr. repeat split; done.
    - intros c' b _ _ _ ->. done. }
  cbn [fst snd Events Registrations Users store permissions].
  split; [done|]. split; [done|]. split; [done|]. split; [|split; [|split]].
  - intros uid. rewrite updateMany_lookup.
    destruct (Users (store acc) !! uid) as [u|]; simpl; [|done].
    by destruct (bool_decide (uid ∈ l)).
  - intros b n [= <- <-]. split; [done|]. split; [|split; [|done]].
    + intros uid Hin. rewrite updateMany_lookup. by rewrite bool_decide_eq_true_2.
    + intros uid Hin. rewrite updateMany_lookup.
      rewrite bool_decide_eq_false_2 by done.
      by destruct (Users (store acc) !! uid).
  - intros Hf uid u Hu Hr. rewrite Hf in Hguard. simpl in Hguard.
    apply negb_false_iff, bool_decide_eq_true in Hguard.
    assert (Hout : uid ∉ l).
    { intros Hin.
      assert (Users.adminsAmong l (store acc) !! uid = Some u) as Hx.
      { unfold Users.adminsAmong. apply map_lookup_filter_Some. by repeat split. }
      rewrite Hguard in Hx. by rewrite lookup_empty in Hx. }
    split; [|done]. rewrite updateMany_lookup, Hu. simpl.
    by rewrite bool_decide_eq_false_2.
  - intros c' b [= <-] _ _ ->. split; [done|]. intros -> Hin.
    destruct c as [cid cu]. apply auth_Next in Ha as (Htok & Hu & _).
    unfold callerId, auth. rewrite Htok. simpl in *.
    rewrite updateMany_lookup, bool_decide_eq_true_2 by done.
    by rewrite Hu.
Qed.

Lemma bulk_update_status_witness :
  let acc := mkAccounts (Sample.db 0 Event.Live) ∅ in
  let req := plain (Decoded Sample.root) in
  let ids := [Sample.alice; 99%nat; Sample.root] in
  Users.bulkUpdateStatus req ids (Users.JsonBool false) acc
    = (Users.Refused (Json 400 "Cannot deactivate admin accounts"), acc) ∧
  let s := Users.bulkUpdateStatus req ids (Users.JsonString false) acc in
  s.1 = Users.Updated true 2 ∧
  User.isActive <$> Users (store s.2) !! Sample.alice = Some false ∧
  User.isActive <$> Users (store s.2) !! Sample.root = Some false ∧
  callerId req (store s.2) = None.
Proof.
  intros acc req ids. split; [by vm_compute|]. intros s.
  pose proof (bulk_update_status req ids (Users.JsonString false) acc)
    as (_ & _ & _ & _ & Hup & _ & Hstr).
  fold s in Hup, Hstr.
  destruct (Hstr (Sample.root, User.mk User.admin true []) false
              eq_refl eq_refl ltac:(done) eq_refl) as [Hs Hself].
  assert (Hs2 : s.1 = Users.Updated true 2) by (rewrite Hs; by vm_compute).
  destruct (Hup true 2%nat Hs2) as (_ & Hin & _ & _).
  split; [exact Hs2|]. split; [|split].
  - rewrite Hin by (unfold ids; rewrite !elem_of_cons; auto). reflexivity.
  - rewrite Hin by (unfold ids; rewrite !elem_of_cons; auto). reflexivity.
  - apply Hself; [done|]. unfold ids. rewrite !elem_of_cons. auto.
Defined.

(** ** Deactivation and back *)

(** Extra X17. A deactivation by [DELETE /api/users/:id] saves the
    document of the user: it clears [isActive], and the pre-save hook
    sets the permissions of the user to those of the role. Events,
    registrations and the other users are as before, so the roster
    entries and the registrations of the user stay and keep their place
    in the counters. Until the reactivation [auth] refuses the user, and
    the registration routes answer 401 to them and write nothing. The
    reactivation by an admin gives back the store as it was, with the
    permissions of the user those of the role: the documents are the
    ones before the deactivation exactly when the user had the
    permissions of the role then. *)
Theorem deactivate_then_reactivate
  (canonical : bool) (reqd reqr : Request) (acc : Accounts) (c a : Caller)
  (tid : ObjectId) (t : User.t) :
  auth reqd (store acc) = Next c →
  requireFaculty c = Next tt →
  User.role c.2 = User.admin ∨ User.role t ≠ User.admin →
  params_id reqd = Some tid →
  tid ≠ c.1 →
  Users (store acc) !! tid = Some t →
  User.isActive t = true →
  auth reqr (store acc) = Next a →
  User.role a.2 = User.admin →
  a.1 ≠ tid →
  params_id reqr = Some tid →
  let s1 := Users.deleteUser canonical reqd acc in
  let s2 := Users.reactivateUser reqr s1.2 in
  let refusal := Json 401 "Account is deactivated. Please contact administrator." in
  let ofRole := Permissions.setRolePermissions (Permissions.roleName (User.role t)) in
  s1.1 = Json 200 "User deactivated successfully" ∧
  Events (store s1.2) = Events (store acc) ∧
  Registrations (store s1.2) = Registrations (store acc) ∧
  Users (store s1.2) = <[tid := Users.set_isActive false t]> (Users (store acc)) ∧
  permissions s1.2 = <[tid := ofRole]> (permissions acc) ∧
  (∀ req, token req = Decoded tid →
     (∀ now, registerRoute now req (store s1.2) = (refusal, store s1.2)) ∧
     unregisterRoute req (store s1.2) = (refusal, store s1.2) ∧
     (∀ now eid ty, postRegistration now req eid ty (store s1.2)
                    = (refusal, store s1.2)) ∧
     (∀ now, deleteRegistration now req (store s1.2) = (refusal, store s1.2))) ∧
  s2.1 = Json 200 "User reactivated successfully" ∧
  store s2.2 = store acc ∧
  permissions s2.2 = <[tid := ofRole]> (permissions acc) ∧
  (s2.2 = acc ↔ permissions acc !! tid = Some ofRole).
Proof.
  intros Ha Hf Hmay Hp Hne Ht Hact Har Hadm Hane Hpr s1 s2 refusal ofRole.
  assert (E1 : s1 = (Json 200 "User deactivated successfully",
                     Users.saveAccount tid (Users.set_isActive false t) acc)).
  { subst s1. unfold Users.deleteUser. rewrite Ha. simpl. rewrite Hf. simpl.
    unfold Users.isSelf.
    rewrite (bool_decide_eq_false_2 (params_id reqd = Some c.1))
      by (rewrite Hp; congruence).
    rewrite andb_false_r, Hp. simpl. rewrite Ht. simpl.
    destruct Hmay as [Hc|Hnt].
    - rewrite Hc. by simpl.
    - rewrite (bool_decide_eq_false_2 (User.role t = User.admin)) by done.
      by rewrite andb_false_r. }
  assert (Hauth : ∀ req, token req = Decoded tid →
                         auth req (store s1.2) = Respond refusal).
  { intros req Htok. rewrite E1.
    apply auth_deactivated with tid (Users.set_isActive false t); [done| |done].
    simpl. by rewrite lookup_insert_eq. }
  assert (Hsame : Users.saveUser tid (Users.set_isActive true (Users.set_isActive false t))
                    (Users.saveUser tid (Users.set_isActive false t) (store acc))
                  = store acc).
  { destruct (store acc) as [ev rs us]. unfold Users.saveUser. simpl in *. f_equal.
    rewrite insert_insert_eq. apply insert_id. rewrite Ht. f_equal.
    destruct t as [r b pe]. simpl in *. by subst b. }
  assert (E2 : s2 = (Json 200 "User reactivated successfully",
                     mkAccounts (store acc) (<[tid := ofRole]> (permissions acc)))).
  { subst s2. rewrite E1. cbn [snd]. unfold Users.reactivateUser.
    assert (auth reqr (store (Users.saveAccount tid (Users.set_isActive false t) acc))
            = Next a) as ->.
    { revert Har. unfold auth. destruct (token reqr) as [| |v]; try done. simpl.
      destruct (decide (tid = v)) as [->|Hv].
      - rewrite Ht, Hact. simpl. intros [= <-]. by destruct Hane.
      - by rewrite lookup_insert_ne. }
    simpl. unfold requireAdmin. rewrite Hadm. simpl. rewrite Hpr. simpl.
    rewrite lookup_insert_eq. simpl. f_equal.
    unfold Users.saveAccount. cbn [store permissions]. rewrite Hsame. f_equal.
    by rewrite insert_insert_eq. }
  split; [by rewrite E1|]. split; [by rewrite E1|]. split; [by rewrite E1|].
  split; [by rewrite E1|]. split; [by rewrite E1|]. split.
  { intros req Htok. specialize (Hauth req Htok).
    unfold registerRoute, unregisterRoute, postRegistration, deleteRegistration.
    rewrite Hauth. done. }
  rewrite E2. cbn [fst snd store permissions].
  split; [done|]. split; [done|]. split; [done|]. split.
  - intros Heq. rewrite <- Heq at 1. simpl. apply lookup_insert_eq.
  - intros Hsync. destruct acc as [st ps]. simpl in *. f_equal. by apply insert_id.
Qed.

Lemma deactivate_then_reactivate_witness :
  let inSync := mkAccounts Sample.both
                  {[ Sample.alice := Permissions.setRolePermissions "participant" ]} in
  let stale := mkAccounts Sample.both
                 {[ Sample.alice := Permissions.setRolePermissions "admin" ]} in
  let reqd := withId (Decoded Sample.carol) Sample.alice in
  let reqr := withId (Decoded Sample.root) Sample.alice in
  let s1 := Users.deleteUser true reqd inSync in
  postRegistration 100 (plain (Decoded Sample.alice)) 1%nat
    Registration.Kind.participant (store s1.2)
    = (Json 401 "Account is deactivated. Please contact administrator.", store s1.2) ∧
  countOf 1%nat (store s1.2) = Some 1 ∧
  (Users.reactivateUser reqr s1.2).2 = inSync ∧
  (Users.reactivateUser reqr (Users.deleteUser true reqd stale).2).2 = inSync.
Proof.
  intros inSync stale reqd reqr s1.
  destruct (deactivate_then_reactivate true reqd reqr inSync
              (Sample.carol, User.mk User.faculty true [])
              (Sample.root, User.mk User.admin true [])
              Sample.alice (User.mk User.participant true [])
              eq_refl eq_refl ltac:(right; done) eq_refl ltac:(done) eq_refl eq_refl
              eq_refl eq_refl ltac:(done) eq_refl)
    as (_ & Hev & _ & _ & _ & Hreq & _ & _ & _ & Hback).
  split; [apply Hreq; reflexivity|]. split; [|split].
  - unfold countOf. fold s1 in Hev. rewrite Hev. reflexivity.
  - by apply Hback.
  - by vm_compute.
Defined.

(** ** The finders by status and the listing *)

Lemma newStatus_cases now start end_ stored :
  (end_ < now ∧ Event.newStatus now start end_ stored = Event.Past) ∨
  (now <= end_ ∧ now < start ∧ Event.newStatus now start end_ stored = Event.Upcoming) ∨
  (start <= now ∧ now <= end_ ∧ Event.newStatus now start end_ stored = Event.Live).
Proof.
  unfold Event.newStatus.
  destruct (end_ <? now) eqn:H1; [left; split; [lia|done]|right].
  destruct (now <? start) eqn:H2; [left; repeat split; [lia|lia]|right].
  assert ((start <=? now) && (now <=? end_) = true) as -> by lia.
  repeat split; lia.
Qed.

(** Extra X18. The finders test the stored status together with the
    dates. For an active event on the page of a listing at [now], the
    listing has stored the phase of [now], and the event is then found by
    exactly the finder of that phase. An event whose stored status is not
    the phase of [now] (its dates in order) is found by none of the three:
    an event that ended while stored as Live is neither ongoing nor
    completed until a listing has passed over it. *)
Theorem finders_follow_listing
  (onPage : ObjectId * Event.t → bool) (now : Date) (db : Db)
  (eid : ObjectId) (e : Event.t) :
  Events db !! eid = Some e →
  Event.isActive e = true →
  let phase := Event.newStatus now (Event.startDate e) (Event.endDate e) (Event.status e) in
  let db' := (listPage onPage now db).2 in
  (onPage (eid, e) = true →
     (is_Some (Finders.findUpcoming now db' !! eid) ↔ phase = Event.Upcoming) ∧
     (is_Some (Finders.findOngoing now db' !! eid) ↔ phase = Event.Live) ∧
     (is_Some (Finders.findCompleted now db' !! eid) ↔ phase = Event.Past)) ∧
  (Event.startDate e <= Event.endDate e → Event.status e ≠ phase →
     Finders.findUpcoming now db !! eid = None ∧
     Finders.findOngoing now db !! eid = None ∧
     Finders.findCompleted now db !! eid = None).
Proof.
  intros He Hact phase db'. split.
  - intros Hon.
    assert (He' : Events db' !! eid = Some (Event.set_status phase e)).
    { subst db'. rewrite listPage_lookup, He. cbn [fmap option_fmap option_map].
      rewrite Hact, Hon. cbn [andb]. by rewrite reconcile_fst. }
    unfold Finders.findUpcoming, Finders.findOngoing, Finders.findCompleted.
    unfold is_Some. setoid_rewrite map_lookup_filter_Some. rewrite He'.
    destruct (newStatus_cases now (Event.startDate e) (Event.endDate e) (Event.status e))
      as [[H1 Hph]|[(H1 & H2 & Hph)|(H1 & H2 & Hph)]];
      fold phase in Hph; simpl;
      (split; [|split]); split;
      try (intros (x & [= <-] & Hx); simpl in Hx; destruct Hx as (? & ?); try lia;
           try congruence; naive_solver);
      try (intros Hph'; first [congruence | eexists; split; [done|]; simpl;
                              repeat split; try lia; try congruence]).
  - intros Hord Hstale.
    unfold Finders.findUpcoming, Finders.findOngoing, Finders.findCompleted.
    rewrite !map_lookup_filter_None. rewrite He.
    destruct (newStatus_cases now (Event.startDate e) (Event.endDate e) (Event.status e))
      as [[H1 Hph]|[(H1 & H2 & Hph)|(H1 & H2 & Hph)]];
      fold phase in Hph;
      (split; [|split]); right; intros x [= <-]; simpl; intros Hx;
      destruct Hx as (? & ?); try lia; naive_solver congruence.
Qed.

Lemma finders_follow_listing_witness :
  let db := Sample.db 0 Event.Live in
  Finders.findOngoing 3000 db !! 1%nat = None ∧
  Finders.findCompleted 3000 db !! 1%nat = None ∧
  is_Some (Finders.findCompleted 3000 (listPage (λ _, true) 3000 db).2 !! 1%nat).
Proof.
  intros db.
  destruct (finders_follow_listing (λ _, true) 3000 db 1%nat (Sample.event 0 Event.Live)
              eq_refl eq_refl) as [Hon Hstale].
  destruct (Hstale ltac:(simpl; lia) ltac:(done)) as (_ & H1 & H2).
  destruct (Hon eq_refl) as (_ & _ & H3).
  split; [exact H1|]. split; [exact H2|]. by apply H3.
Defined.

(** ** Status names outside the enum *)

Lemma statusName_enum s :
  statusName s ∉ ["published"; "ongoing"; "upcoming"; "completed"].
Proof.
  rewrite !not_elem_of_cons. destruct s; simpl; repeat split; try done;
    apply not_elem_of_nil.
Qed.

(** Extra X19. The stored status is one of 'Past', 'Upcoming' and
    'Live'. The featured query asks for 'published', 'ongoing' or
    'upcoming' and matches no document of any store; the total of the
    completed route counts 'published' and 'completed' and is zero, while
    [findCompleted] beside it lists every active Past event that ended;
    the publish route assigns 'published', which the validation of
    [save()] rejects, so it never answers with success and never
    writes. *)
Theorem status_names_outside_enum (now : Date) (req : Request) (db : Db) :
  featuredQuery now db = ∅ ∧
  completedTotal now db = 0%nat ∧
  (∀ eid e, Events db !! eid = Some e → Event.isActive e = true →
            Event.status e = Event.Past → Event.endDate e < now →
            Finders.findCompleted now db !! eid = Some e) ∧
  (publishRoute req db).2 = db ∧
  succeeded (publishRoute req db).1 = false ∧
  (∀ c eid e, auth req db = Next c → requireOwnershipOrAdmin c req db = Next tt →
              params_id req = Some eid → Events db !! eid = Some e →
              (publishRoute req db).1 = Json 500 "Server error publishing event").
Proof.
  pose proof statusName_enum as Hn.
  split; [|split; [|split; [|split; [|split]]]].
  - unfold featuredQuery. apply map_empty_filter_2. intros k e _ (_ & Hin & _).
    simpl in Hin. apply (Hn (Event.status e)).
    rewrite !elem_of_cons in *. naive_solver.
  - unfold completedTotal. apply map_size_empty_iff, map_empty_filter_2.
    intros k e _ (_ & Hin & _). simpl in Hin. apply (Hn (Event.status e)).
    rewrite !elem_of_cons in *. naive_solver.
  - intros eid e He Hact Hst Hend. unfold Finders.findCompleted.
    apply map_lookup_filter_Some. by repeat split.
  - unfold publishRoute. destruct (auth req db) as [x|c]; simpl; [done|].
    destruct (requireOwnershipOrAdmin c req db) as [x|[]]; simpl; [done|].
    destruct (params_id req) as [id|]; simpl; [|done].
    destruct (Events db !! id) as [e|]; simpl; [|done].
    by destruct (Event.status e).
  - unfold publishRoute, auth, requireOwnershipOrAdmin.
    destruct (token req) as [| |uid]; simpl; try done.
    destruct (Users db !! uid) as [u|]; simpl; [|done].
    destruct (negb (User.isActive u)); simpl; [done|].
    destruct (params_id req) as [id|]; simpl.
    + destruct (Events db !! id) as [e|]; simpl.
      * repeat case_bool_decide; simpl; try done; by destruct (Event.status e).
      * by repeat case_bool_decide.
    + by repeat case_bool_decide.
  - intros c eid e Ha Ho Hp He. unfold publishRoute. rewrite Ha. simpl. rewrite Ho. simpl.
    rewrite Hp. simpl. rewrite He. simpl. by destruct (Event.status e).
Qed.

Lemma status_names_outside_enum_witness :
  let db := Sample.db 0 Event.Past in
  completedTotal 3000 db = 0%nat ∧
  Finders.findCompleted 3000 db !! 1%nat = Some (Sample.event 0 Event.Past) ∧
  (publishRoute (withId (Decoded Sample.carol) 1%nat) db).1
    = Json 500 "Server error publishing event".
Proof.
  intros db.
  destruct (status_names_outside_enum 3000 (withId (Decoded Sample.carol) 1%nat) db)
    as (_ & Htot & Hfind & _ & _ & Hpub).
  split; [exact Htot|]. split.
  - apply Hfind; [reflexivity|reflexivity|reflexivity|simpl; lia].
  - by apply (Hpub (Sample.carol, User.mk User.faculty true []) 1%nat
                (Sample.event 0 Event.Past)).
Defined.

(** ** The submission of feedback *)

Lemma save_attended r l :
  Registration.attended r = false →
  Forall (λ x, Registration.attended x = false) l →
  Forall (λ x, Registration.attended x = false) (Registration.save r l).
Proof.
  intros Hr Hl. unfold Registration.save. apply Forall_fmap.
  eapply Forall_impl; [exact Hl|]. intros x Hx. simpl. by case_bool_decide.
Qed.

Lemma findById_Forall (P : Registration.t → Prop) rid l r :
  Forall P l → Registration.findById rid l = Some r → P r.
Proof.
  intros Hl Hf. apply find_some in Hf as [Hin _].
  rewrite Forall_forall in Hl. by apply Hl, list_elem_of_In.
Qed.

Lemma ledgerCall_attended call db :
  Forall (λ x, Registration.attended x = false) (Registrations db) →
  Forall (λ x, Registration.attended x = false) (Registrations (ledgerCall call db).2).
Proof.
  intros Hl. destruct call as [now req ev ty|req status notes|now req]; simpl.
  - destruct (postRegistration_effect now req ev ty db) as [-> | (uid & e & _ & ->)];
      [done|].
    simpl. apply Forall_app. split; [done|]. by repeat constructor.
  - destruct (putStatus_effect req status notes db)
      as [-> | (rid & r & e & Hr & _ & ->)]; [done|].
    pose proof (findById_Forall _ _ _ _ Hl Hr) as Hatt.
    cbv zeta. case_bool_decide; simpl; apply save_attended; try done;
      unfold applyNotes; by repeat case_match.
  - destruct (deleteRegistration_effect now req db)
      as [-> | (rid & r & e & Hr & _ & ->)]; [done|].
    pose proof (findById_Forall _ _ _ _ Hl Hr) as Hatt.
    cbv zeta. case_bool_decide; simpl; by apply save_attended.
Qed.

(** Extra X20. No feedback is ever created. The route asks for an event
    whose status is 'completed', a name outside the enum of the stored
    status: a caller whose body passes the validation chain, for an
    active event, gets 400 'Feedback can only be submitted for completed
    events', and whatever the request and the outcome of the validation
    the collection is left as it was. The test behind it needs a
    registration with [attended: true], which the routes of the ledger
    never set: after any sequence of them from a ledger without one, no
    registration passes. *)
Theorem feedback_never_accepted
  (req : Request) (errors : list string) (b : Feedback.Body) (db : Db)
  (feedbacks : list Feedback.t) :
  (Feedback.postFeedback req errors b db feedbacks).2 = feedbacks ∧
  (∀ f, (Feedback.postFeedback req errors b db feedbacks).1 ≠ Feedback.Created f) ∧
  (∀ c eid e, auth req db = Next c → errors = [] →
              Feedback.b_eventId b = Some eid →
              Events db !! eid = Some e → Event.isActive e = true →
              (Feedback.postFeedback req errors b db feedbacks).1
              = Feedback.Plain
                  (Json 400 "Feedback can only be submitted for completed events")) ∧
  (∀ calls, Forall (λ r, Registration.attended r = false) (Registrations db) →
            ∀ ev u, Feedback.attendedRegistration ev u
                      (Registrations (ledgerCalls calls db)) = None).
Proof.
  split; [|split; [|split]].
  - unfold Feedback.postFeedback. destruct (auth req db) as [x|c]; [done|].
    destruct errors, (Feedback.b_eventId b) as [eid|]; try done.
    destruct (Events db !! eid) as [e|]; [|done].
    destruct (negb (Event.isActive e)); [done|]. by destruct (Event.status e).
  - intros f. unfold Feedback.postFeedback. destruct (auth req db) as [x|c]; [done|].
    destruct errors, (Feedback.b_eventId b) as [eid|]; try done.
    destruct (Events db !! eid) as [e|]; [|done].
    destruct (negb (Event.isActive e)); [done|]. by destruct (Event.status e).
  - intros c eid e Ha Herr Hid He Hact. unfold Feedback.postFeedback.
    rewrite Ha, Herr, Hid, He, Hact. by destruct (Event.status e).
  - intros calls Hl ev u.
    assert (Hall : Forall (λ r, Registration.attended r = false)
                     (Registrations (ledgerCalls calls db))).
    { revert db Hl. unfold ledgerCalls.
      induction calls as [|call calls IH]; intros db Hl; simpl; [done|].
      by apply IH, ledgerCall_attended. }
    unfold Feedback.attendedRegistration.
    induction Hall as [|r l Hr _ IH]; simpl; [done|].
    by rewrite Hr, andb_false_r.
Qed.

Lemma feedback_never_accepted_witness :
  let b := Feedback.mkBody (Some 1%nat) 5 "A very good workshop."
             (Feedback.mkCategories 5 4 4 5) None None in
  Feedback.postFeedback (plain (Decoded Sample.alice)) [] b (Sample.db 0 Event.Past) []
  = (Feedback.Plain (Json 400 "Feedback can only be submitted for completed events"), []).
Proof.
  intros b.
  destruct (feedback_never_accepted (plain (Decoded Sample.alice)) [] b
              (Sample.db 0 Event.Past) []) as (Hst & _ & Hans & _).
  apply injective_projections; [|exact Hst].
  by apply (Hans (Sample.alice, User.mk User.participant true []) 1%nat
              (Sample.event 0 Event.Past)).
Defined.

(** ** Permissions and the two ways to change a role *)

Lemma permissionsOf_saveAccount uid u acc :
  permissionsOf uid (Users.saveAccount uid u acc)
  = Permissions.setRolePermissions (Permissions.roleName (User.role u)).
Proof. unfold permissionsOf, Users.saveAccount. simpl. by rewrite lookup_insert_eq. Qed.

Lemma permissionsOf_update id body u acc :
  permissionsOf id (Auth.update id body u acc)
  = Auth.write (Auth.permissions body) (permissionsOf id acc).
Proof.
  unfold Auth.update, Auth.setPermissions.
  destruct (Auth.permissions body); [done|..];
    unfold permissionsOf at 1; simpl; by rewrite lookup_insert_eq.
Qed.

Lemma authPutUser_accepts req body acc c tid t :
  auth req (store acc) = Next c →
  User.role c.2 = User.admin
    ∨ Permissions.can (permissionsOf c.1 acc) "manage:users" = true
      ∧ Auth.role body ≠ Some (Auth.Named User.admin) →
  Auth.role body ≠ Some Auth.Unlisted →
  Auth.role body ≠ Some Auth.Coordinator →
  params_id req = Some tid →
  Users (store acc) !! tid = Some t →
  Auth.putUser req body acc
  = (Json 200 "User updated successfully", Auth.update tid body t acc).
Proof.
  intros Ha Hmay Hu Hc Hp Ht. unfold Auth.putUser. rewrite Ha.
  assert (negb (Permissions.can (permissionsOf c.1 acc) "manage:users")
          && negb (bool_decide (User.role c.2 = User.admin)) = false) as ->.
  { destruct Hmay as [Hadm|[Hcan _]].
    - rewrite (bool_decide_eq_true_2 _ Hadm). apply andb_false_r.
    - by rewrite Hcan. }
  rewrite (bool_decide_eq_false_2 _ Hu).
  assert (bool_decide (Auth.role body = Some (Auth.Named User.admin))
          && negb (bool_decide (User.role c.2 = User.admin)) = false) as ->.
  { destruct Hmay as [Hadm|[_ Hna]].
    - rewrite (bool_decide_eq_true_2 _ Hadm). apply andb_false_r.
    - by rewrite (bool_decide_eq_false_2 _ Hna). }
  rewrite (bool_decide_eq_false_2 _ Hc), Hp. simpl. by rewrite Ht.
Qed.

(** Extra X21. [PUT /api/auth/users/:id] writes with
    [findByIdAndUpdate], which runs no hook, and passes the whole body
    to [$set]. The permissions of the user afterwards are the stored
    ones with the members written that the body names, whatever role the
    body assigns: a change of role alone leaves the user with the new
    role and the permissions of the old one, and a [permissions] key
    gives the user the permissions it holds. They stay until the next
    [save()] of the document, for instance at the next login of the
    user, when the hook gives the permissions of the role.
    [PUT /api/users/:id] saves the document, and the permissions follow
    the new role at once. *)
Theorem role_change_keeps_permissions
  (req : Request) (acc : Accounts) (c : Caller) (tid : ObjectId) (t : User.t)
  (body : Auth.Body) :
  auth req (store acc) = Next c →
  User.role c.2 = User.admin →
  params_id req = Some tid →
  Users (store acc) !! tid = Some t →
  Auth.role body ≠ Some Auth.Unlisted →
  Auth.role body ≠ Some Auth.Coordinator →
  let viaAuth := Auth.putUser req body acc in
  let t' := Auth.set body t in
  viaAuth.1 = Json 200 "User updated successfully" ∧
  Users (store viaAuth.2) !! tid = Some t' ∧
  permissionsOf tid viaAuth.2
    = Auth.write (Auth.permissions body) (permissionsOf tid acc) ∧
  (Auth.permissions body = Auth.Absent → permissions viaAuth.2 = permissions acc) ∧
  (∀ p, Auth.permissions body = Auth.Whole p → permissionsOf tid viaAuth.2 = p) ∧
  (User.isActive t' = true →
     permissionsOf tid (Auth.login (Some tid) true viaAuth.2).2
     = Permissions.setRolePermissions (Permissions.roleName (User.role t'))) ∧
  (∀ canonical r,
     let viaUsers :=
       Users.putUser canonical req (Users.mkBody None (Some (Users.InEnum r))) acc in
     viaUsers.1 = Json 200 "User updated successfully" ∧
     Users (store viaUsers.2) !! tid = Some (Users.set_role r t) ∧
     permissionsOf tid viaUsers.2
     = Permissions.setRolePermissions (Permissions.roleName r)).
Proof.
  intros Ha Hadm Hp Ht Hun Hco viaAuth t'.
  assert (E1 : viaAuth = (Json 200 "User updated successfully",
                          Auth.update tid body t acc)).
  { subst viaAuth. by apply authPutUser_accepts with c; [|left|..]. }
  rewrite E1. cbn [fst snd]. split; [done|]. split.
  { simpl. by rewrite lookup_insert_eq. }
  split; [apply permissionsOf_update|]. split.
  { intros Hk. unfold Auth.update, Auth.setPermissions. by rewrite Hk. }
  split.
  { intros p Hk. by rewrite permissionsOf_update, Hk. }
  split.
  { intros Hact. unfold Auth.login. simpl. rewrite lookup_insert_eq. simpl.
    fold t'. rewrite Hact. simpl. by rewrite permissionsOf_saveAccount. }
  intros canonical r.
  assert (E2 : Users.putUser canonical req
                 (Users.mkBody None (Some (Users.InEnum r))) acc
               = (Json 200 "User updated successfully",
                  Users.saveAccount tid (Users.set_role r t) acc)).
  { unfold Users.putUser. rewrite Ha. simpl.
    rewrite (bool_decide_eq_true_2 _ Hadm). rewrite andb_false_r. simpl.
    rewrite Hp. simpl. rewrite Ht. simpl. by rewrite Hadm. }
  rewrite E2. cbn [fst snd]. split; [done|]. split.
  { simpl. by rewrite lookup_insert_eq. }
  by rewrite permissionsOf_saveAccount.
Qed.

Lemma role_change_keeps_permissions_witness :
  let acc := mkAccounts (Sample.db 0 Event.Live) ∅ in
  let promote := Auth.mkBody None (Some (Auth.Named User.admin)) Auth.Absent None in
  let grant := Auth.mkBody None None
                 (Auth.Members None (Some true) None None None) None in
  let s := Auth.putUser (withId (Decoded Sample.root) Sample.carol) promote acc in
  let g := Auth.putUser (withId (Decoded Sample.root) Sample.alice) grant acc in
  (User.role <$> Users (store s.2) !! Sample.carol = Some User.admin ∧
   Permissions.can (permissionsOf Sample.carol s.2) "manage:users" = false ∧
   Permissions.can
     (permissionsOf Sample.carol (Auth.login (Some Sample.carol) true s.2).2)
     "manage:users" = true) ∧
  (User.role <$> Users (store g.2) !! Sample.alice = Some User.participant ∧
   Permissions.can (permissionsOf Sample.alice g.2) "manage:users" = true).
Proof.
  intros acc promote grant s g. split.
  - destruct (role_change_keeps_permissions
                (withId (Decoded Sample.root) Sample.carol) acc
                (Sample.root, User.mk User.admin true []) Sample.carol
                (User.mk User.faculty true []) promote
                eq_refl eq_refl eq_refl eq_refl ltac:(done) ltac:(done))
      as (_ & Hrole & Hperm & _ & _ & Hlogin & _).
    fold s in Hrole, Hperm, Hlogin.
    split; [by rewrite Hrole|]. split; [by rewrite Hperm|]. by rewrite Hlogin.
  - destruct (role_change_keeps_permissions
                (withId (Decoded Sample.root) Sample.alice) acc
                (Sample.root, User.mk User.admin true []) Sample.alice
                (User.mk User.participant true []) grant
                eq_refl eq_refl eq_refl eq_refl ltac:(done) ltac:(done))
      as (_ & Hrole & Hperm & _).
    fold g in Hrole, Hperm.
    split; [by rewrite Hrole | by rewrite Hperm].
Defined.

(** ** What a demoted admin can still do *)

Lemma auth_saveUser_other req db a tid u :
  auth req db = Next a → a.1 ≠ tid → auth req (Users.saveUser tid u db) = Next a.
Proof.
  destruct a as [aid au]. rewrite !auth_Next. intros (Ht & Hu & Hact) Hne.
  split; [done|]. split; [|done]. simpl in *. by rewrite lookup_insert_ne.
Qed.

Lemma deleteUser_accepts canonical req acc c tid t :
  auth req (store acc) = Next c →
  requireFaculty c = Next tt →
  User.role c.2 = User.admin ∨ User.role t ≠ User.admin →
  params_id req = Some tid →
  tid ≠ c.1 →
  Users (store acc) !! tid = Some t →
  Users.deleteUser canonical req acc
  = (Json 200 "User deactivated successfully",
     Users.saveAccount tid (Users.set_isActive false t) acc).
Proof.
  intros Ha Hf Hmay Hp Hne Ht. unfold Users.deleteUser. rewrite Ha. simpl.
  rewrite Hf. simpl. unfold Users.isSelf.
  rewrite (bool_decide_eq_false_2 (params_id req = Some c.1))
    by (rewrite Hp; congruence).
  rewrite andb_false_r, Hp. simpl. rewrite Ht. simpl.
  destruct Hmay as [Hc|Hnt].
  - rewrite Hc. by simpl.
  - rewrite (bool_decide_eq_false_2 (User.role t = User.admin)) by done.
    by rewrite andb_false_r.
Qed.

Lemma reactivateUser_accepts req acc a tid t :
  auth req (store acc) = Next a →
  User.role a.2 = User.admin →
  params_id req = Some tid →
  Users (store acc) !! tid = Some t →
  Users.reactivateUser req acc
  = (Json 200 "User reactivated successfully",
     Users.saveAccount tid (Users.set_isActive true t) acc).
Proof.
  intros Ha Hadm Hp Ht. unfold Users.reactivateUser, requireAdmin. rewrite Ha. simpl.
  rewrite Hadm. simpl. rewrite Hp. simpl. by rewrite Ht.
Qed.

Lemma authPutUser_refuses req body acc uid u :
  auth req (store acc) = Next (uid, u) →
  User.role u ≠ User.admin →
  Permissions.can (permissionsOf uid acc) "manage:users" = false →
  Auth.putUser req body acc
  = (Json 403 "You do not have permission to update users", acc).
Proof.
  intros Ha Hr Hcan. unfold Auth.putUser. rewrite Ha. simpl. rewrite Hcan.
  by rewrite (bool_decide_eq_false_2 (User.role u = User.admin)).
Qed.

Lemma manageUsers_of_role r :
  r ≠ User.admin →
  Permissions.can (Permissions.setRolePermissions (Permissions.roleName r))
    "manage:users" = false.
Proof. by destruct r. Qed.

(** Extra X22. [PUT /api/auth/users/:id] lets a caller through who is an
    admin or has the permission 'manage:users'. An admin whose role was
    taken by that same route keeps the permission: [requireAdmin] refuses
    them, yet their own requests to the route still update any user, the
    role 'admin' apart, and can deactivate the admin who demoted them.
    The permission lasts until their document is next saved: after a
    login, after a request of their own to [PUT /api/users/:id] on their
    document, or after an admin has deactivated and reactivated them by
    [DELETE /api/users/:id] and [POST /api/users/:id/reactivate], the
    route answers them 403. *)
Theorem demoted_admin_keeps_user_management
  (req reqt : Request) (acc : Accounts) (c : Caller) (tid vid : ObjectId)
  (t : User.t) (r : User.Role) (body : Auth.Body) :
  auth req (store acc) = Next c →
  User.role c.2 = User.admin →
  params_id req = Some tid →
  Users (store acc) !! tid = Some t →
  User.isActive t = true →
  permissionsOf tid acc = Permissions.setRolePermissions "admin" →
  r ≠ User.admin →
  token reqt = Decoded tid →
  params_id reqt = Some vid →
  Auth.role body = None ∨ (∃ r', Auth.role body = Some (Auth.Named r') ∧ r' ≠ User.admin) →
  let demotion := Auth.mkBody None (Some (Auth.Named r)) Auth.Absent None in
  let acc1 := (Auth.putUser req demotion acc).2 in
  let refused acc2 :=
    Auth.putUser reqt body acc2
    = (Json 403 "You do not have permission to update users", acc2) in
  requireAdmin (tid, Users.set_role r t) = Respond (Json 403 "Admin access required") ∧
  auth reqt (store acc1) = Next (tid, Users.set_role r t) ∧
  (∀ v, Users (store acc1) !! vid = Some v →
        Auth.putUser reqt body acc1
        = (Json 200 "User updated successfully", Auth.update vid body v acc1)) ∧
  Auth.putUser reqt
    (Auth.mkBody (Auth.isActive body) (Some (Auth.Named User.admin))
       (Auth.permissions body) (Auth.participatedEvents body)) acc1
    = (Json 403 "Only admins can assign admin role", acc1) ∧
  refused (Auth.login (Some tid) true acc1).2 ∧
  (∀ reqs, token reqs = Decoded tid → params_id reqs = Some tid →
     refused (Users.putUser true reqs (Users.mkBody None None) acc1).2) ∧
  (∀ canonical reqa a, auth reqa (store acc1) = Next a → User.role a.2 = User.admin →
     a.1 ≠ tid → params_id reqa = Some tid →
     refused (Users.reactivateUser reqa (Users.deleteUser canonical reqa acc1).2).2).
Proof.
  intros Ha Hadm Hp Ht Hact Hperm Hr Htok Hpt Hbody demotion acc1 refused.
  set (t1 := Users.set_role r t).
  assert (E1 : acc1 = Auth.update tid demotion t acc).
  { subst acc1. by rewrite (authPutUser_accepts req _ acc c tid t Ha (or_introl Hadm)). }
  assert (Ht1 : Users (store acc1) !! tid = Some t1).
  { rewrite E1. simpl. by rewrite lookup_insert_eq. }
  assert (Hat : auth reqt (store acc1) = Next (tid, t1)).
  { by apply auth_active. }
  assert (Hcan : Permissions.can (permissionsOf tid acc1) "manage:users" = true).
  { rewrite E1, permissionsOf_update. simpl. by rewrite Hperm. }
  assert (Hnot : User.role t1 ≠ User.admin) by done.
  assert (Hsaved : ∀ acc0 u, User.role u = r → User.isActive u = true →
            refused (Users.saveAccount tid u acc0)).
  { intros acc0 u Hru Hau. unfold refused. apply authPutUser_refuses with tid u.
    - apply auth_active; [done| |done]. simpl. by rewrite lookup_insert_eq.
    - by rewrite Hru.
    - rewrite permissionsOf_saveAccount, Hru. by apply manageUsers_of_role. }
  split; [|split; [done|split; [|split; [|split; [|split]]]]].
  - unfold requireAdmin. simpl. by rewrite bool_decide_eq_false_2.
  - intros v Hv. apply (authPutUser_accepts reqt body acc1 (tid, t1) vid v);
      try done.
    + right. split; [done|]. destruct Hbody as [->|(r' & -> & Hr')]; congruence.
    + destruct Hbody as [->|(r' & -> & Hr')]; congruence.
    + destruct Hbody as [->|(r' & -> & Hr')]; congruence.
  - unfold Auth.putUser. rewrite Hat. cbn [fst snd]. rewrite Hcan. simpl.
    by rewrite (bool_decide_eq_false_2 (r = User.admin)).
  - unfold Auth.login. simpl. rewrite Ht1. simpl. rewrite Hact. simpl.
    by apply Hsaved.
  - intros reqs Htoks Hps.
    assert (Hput : Users.putUser true reqs (Users.mkBody None None) acc1
                   = (Json 200 "User updated successfully",
                      Users.saveAccount tid t1 acc1)).
    { unfold Users.putUser.
      rewrite (auth_active reqs (store acc1) tid t1 Htoks Ht1 Hact). simpl.
      unfold Users.isSelf. simpl. rewrite (bool_decide_eq_true_2 _ Hps). simpl.
      rewrite Hps. simpl. rewrite Ht1. simpl. by destruct r. }
    rewrite Hput. by apply Hsaved.
  - intros canonical reqa a Haa Haadm Hane Hpa.
    assert (Hdel : Users.deleteUser canonical reqa acc1
                   = (Json 200 "User deactivated successfully",
                      Users.saveAccount tid (Users.set_isActive false t1) acc1)).
    { apply (deleteUser_accepts canonical reqa acc1 a tid t1 Haa);
        [unfold requireFaculty; by rewrite Haadm | by left | done | congruence | done]. }
    rewrite Hdel. cbn [snd].
    rewrite (reactivateUser_accepts reqa _ a tid (Users.set_isActive false t1)); cycle 1.
    + by apply auth_saveUser_other.
    + done.
    + done.
    + simpl. by rewrite lookup_insert_eq.
    + by apply Hsaved.
Qed.

Lemma demoted_admin_keeps_user_management_witness :
  let acc := mkAccounts (Sample.db 0 Event.Live)
               {[ Sample.root := Permissions.setRolePermissions "admin" ]} in
  let req := withId (Decoded Sample.root) Sample.root in
  let reqt := withId (Decoded Sample.root) Sample.carol in
  let off := Auth.mkBody (Some false) None Auth.Absent None in
  let acc1 := (Auth.putUser req
                 (Auth.mkBody None (Some (Auth.Named User.participant)) Auth.Absent None)
                 acc).2 in
  (Auth.putUser reqt off acc1).1 = Json 200 "User updated successfully" ∧
  (Auth.putUser reqt off (Auth.login (Some Sample.root) true acc1).2).1
    = Json 403 "You do not have permission to update users" ∧
  (Auth.putUser reqt off
     (Users.putUser true req (Users.mkBody None None) acc1).2).1
    = Json 403 "You do not have permission to update users".
Proof.
  intros acc req reqt off acc1.
  destruct (demoted_admin_keeps_user_management req reqt acc
              (Sample.root, User.mk User.admin true []) Sample.root Sample.carol
              (User.mk User.admin true []) User.participant off
              eq_refl eq_refl eq_refl eq_refl eq_refl eq_refl ltac:(done)
              eq_refl eq_refl (or_introl eq_refl))
    as (_ & _ & Hput & _ & Hlogin & Hsave & _).
  fold acc1 in Hput, Hlogin, Hsave. split; [|split].
  - by rewrite (Hput (User.mk User.faculty true []) eq_refl).
  - by rewrite Hlogin.
  - by rewrite (Hsave req eq_refl eq_refl).
Defined.

(** ** The table of permissions *)

Lemma can_table role action :
  Permissions.can (Permissions.setRolePermissions role) action = true ↔
  (role = "admin"
   ∧ action ∈ ["create:events"; "manage:users"; "manage:faculty"; "view:analytics";
               "manage:feedback"])
  ∨ (role = "faculty" ∧ action ∈ ["create:events"; "view:analytics"; "manage:feedback"])
  ∨ (role = "coordinator" ∧ action = "create:events").
Proof.
  unfold Permissions.can, Permissions.permissionMap, Permissions.setRolePermissions.
  rewrite !elem_of_cons, !elem_of_nil.
  repeat case_bool_decide; simpl; subst; naive_solver.
Qed.

(** Extra X23. What [can] grants: nothing for an action outside the five
    of its map, whatever the permissions stored; nothing for a role other
    than 'admin', 'faculty' and 'coordinator'; and what 'coordinator' may
    do 'faculty' may, and what 'faculty' may do 'admin' may. For a user
    saved with their role, [requirePermission('create:events')] lets
    through exactly the callers [requireFaculty] lets through, and
    [requirePermission('manage:users')] exactly those of
    [requireAdmin]. *)
Theorem permissions_of_roles :
  (∀ p action,
     action ∉ ["create:events"; "manage:users"; "manage:faculty"; "view:analytics";
               "manage:feedback"] →
     Permissions.can p action = false) ∧
  (∀ role action,
     role ∉ ["admin"; "faculty"; "coordinator"] →
     Permissions.can (Permissions.setRolePermissions role) action = false) ∧
  (∀ action,
     (Permissions.can (Permissions.setRolePermissions "coordinator") action = true →
      Permissions.can (Permissions.setRolePermissions "faculty") action = true) ∧
     (Permissions.can (Permissions.setRolePermissions "faculty") action = true →
      Permissions.can (Permissions.setRolePermissions "admin") action = true)) ∧
  (∀ (c : Caller) acc,
     permissionsOf c.1 acc
       = Permissions.setRolePermissions (Permissions.roleName (User.role c.2)) →
     (requirePermission "create:events" c acc = Next tt ↔ requireFaculty c = Next tt) ∧
     (requirePermission "manage:users" c acc = Next tt ↔ requireAdmin c = Next tt)).
Proof.
  split; [|split; [|split]].
  - intros p action. rewrite !not_elem_of_cons. intros (H1 & H2 & H3 & H4 & H5 & _).
    unfold Permissions.can, Permissions.permissionMap.
    by rewrite !bool_decide_eq_false_2.
  - intros role action. rewrite !not_elem_of_cons. intros (H1 & H2 & H3 & _).
    apply not_true_is_false. rewrite can_table. naive_solver.
  - intros action. rewrite !can_table, !elem_of_cons, !elem_of_nil. naive_solver.
  - intros [uid u] acc Hsync. unfold requirePermission, requireFaculty, requireAdmin.
    rewrite Hsync. simpl. destruct (User.role u); simpl; split; split; done.
Qed.

Lemma permissions_of_roles_witness :
  Permissions.can (Permissions.setRolePermissions "admin") "delete:events" = false ∧
  Permissions.can (Permissions.setRolePermissions "student") "create:events" = false.
Proof.
  destruct permissions_of_roles as (Hact & Hrole & _).
  split.
  - apply Hact. rewrite !not_elem_of_cons. repeat split; try done. apply not_elem_of_nil.
  - apply Hrole. rewrite !not_elem_of_cons. repeat split; try done. apply not_elem_of_nil.
Defined.

(** ** The pages of the registrations of an event *)

Lemma insertByDate_Permutation r l : Ledger.insertByDate r l ≡ₚ r :: l.
Proof.
  induction l as [|x l IH]; simpl; [done|].
  destruct (_ <? _); [done|]. rewrite IH. apply Permutation_swap.
Qed.

Lemma sortByDate_Permutation l : Ledger.sortByDate l ≡ₚ l.
Proof.
  unfold Ledger.sortByDate. induction l as [|x l IH]; simpl; [done|].
  by rewrite insertByDate_Permutation, IH.
Qed.

(** Consecutive slices of one length, put together. *)
Lemma concat_slices {A} (L k : nat) (l : list A) :
  concat ((λ i, take L (drop (i * L) l)) <$> seq 0 k) = take (k * L) l.
Proof.
  induction k as [|k IH]; [done|].
  rewrite seq_S, fmap_app, concat_app, IH. simpl. rewrite app_nil_r.
  rewrite take_take_drop. f_equal. lia.
Qed.

Lemma ceilDiv_spec total limit :
  let n := Ledger.ceilDiv total limit in
  (total ≤ n * Pos.to_nat limit)%nat ∧
  ∀ p, (p < n ↔ p * Pos.to_nat limit < total)%nat.
Proof.
  unfold Ledger.ceilDiv. pose proof (Pos2Nat.is_pos limit) as HL.
  set (L := Pos.to_nat limit) in *.
  pose proof (Nat.div_mod_eq (total + L - 1) L) as Hdm.
  pose proof (Nat.mod_upper_bound (total + L - 1) L ltac:(lia)) as Hm.
  set (q := ((total + L - 1) / L)%nat) in *.
  set (m := ((total + L - 1) mod L)%nat) in *.
  split; [nia|]. intros p. split; intros H; nia.
Qed.

(** Extra X24. For a caller the route lets through, the pages of
    [GET /api/registrations/event/:eventId] of one [limit], from the first
    to [totalPages], put one after the other are the registrations the
    filter matches, each of them once, the latest first; every page holds
    at most [limit] of them, reports the same totals, and says [hasNext]
    exactly when its number is below [totalPages]. *)
Theorem pages_cover_listing
  (req : Request) (limit : positive) (status : option Registration.Status)
  (db : Db) (eid : ObjectId) (e : Event.t) :
  Ledger.access req db "Not authorized to view this event's registrations"
    = Next (eid, e) →
  let all := Ledger.found eid status db in
  let n := Ledger.ceilDiv (length all) limit in
  concat ((λ i, Ledger.pageOf
                  (Ledger.eventRegistrations req (Pos.of_nat i) limit status db))
            <$> seq 1 n) = all ∧
  all ≡ₚ List.filter (Ledger.matches eid status) (Registrations db) ∧
  ∀ page, ∃ p,
    Ledger.eventRegistrations req page limit status db = Ledger.Listed p ∧
    Ledger.totalRegistrations p = length all ∧
    Ledger.totalPages p = n ∧
    (length (Ledger.registrations p) ≤ Pos.to_nat limit)%nat ∧
    Ledger.hasNext p = bool_decide (Pos.to_nat page < n)%nat ∧
    Ledger.hasPrev p = bool_decide (1 < Pos.to_nat page)%nat.
Proof.
  intros Hacc all n.
  pose proof (Pos2Nat.is_pos limit) as HL.
  destruct (ceilDiv_spec (length all) limit) as [Hcover Hlt]. fold n in Hcover, Hlt.
  split; [|split].
  - rewrite <- fmap_S_seq, <- list_fmap_compose.
    transitivity (take (n * Pos.to_nat limit) all); [|by apply take_ge].
    rewrite <- concat_slices. f_equal. apply list_fmap_ext. intros _ i _. simpl.
    unfold Ledger.eventRegistrations. rewrite Hacc. simpl.
    rewrite Nat2Pos.id by done. fold all. do 2 f_equal. lia.
  - apply sortByDate_Permutation.
  - intros page. unfold Ledger.eventRegistrations. rewrite Hacc. fold all.
    eexists. split; [reflexivity|]. simpl. split; [done|]. split; [done|].
    rewrite length_take, length_drop. split; [lia|]. split; [|done].
    apply bool_decide_ext. rewrite Hlt. nia.
Qed.

Lemma pages_cover_listing_witness :
  let reg i u d := Registration.mk i 1%nat u Registration.Kind.participant
                     Registration.pending d false None true in
  let db := setRegistrations
              [reg 1%nat Sample.alice 100; reg 2%nat Sample.bob 300;
               reg 3%nat Sample.root 200] Sample.both in
  let req := withEventId (Decoded Sample.carol) 1%nat in
  let page i := Ledger.pageOf (Ledger.eventRegistrations req i 2 None db) in
  page 1%positive ++ page 2%positive
  = [reg 2%nat Sample.bob 300; reg 3%nat Sample.root 200; reg 1%nat Sample.alice 100].
Proof.
  intros reg db req page.
  destruct (pages_cover_listing req 2 None db 1%nat Sample.listed eq_refl) as [Hcat _].
  rewrite <- (app_nil_r (page 2%positive)). exact Hcat.
Defined.

(** ** The statistics of the registrations of an event *)

Lemma sumCounts_sum {A} (l : list (A * nat)) :
  Ledger.sumCounts l = sum_list (snd <$> l).
Proof.
  unfold Ledger.sumCounts.
  assert (∀ a, fold_left (λ sum stat, (sum + stat.2)%nat) l a
               = (a + sum_list (snd <$> l))%nat) as H.
  { induction l as [|x l IH]; intros a; csimpl; [lia|]. rewrite IH. destruct x; simpl. lia. }
  by rewrite H.
Qed.

Lemma sum_nonzero {A} (l : list (A * nat)) :
  sum_list (snd <$> List.filter (λ kc, negb (Nat.eqb kc.2 0)) l) = sum_list (snd <$> l).
Proof.
  induction l as [|[k c] l IH]; [done|].
  cbn [List.filter snd]. destruct (Nat.eqb_spec c 0) as [->|Hc]; cbn [negb];
    rewrite ?fmap_cons, ?sum_list_with_cons; cbn [snd]; simpl in *; lia.
Qed.

Lemma groupBy_status_sum l :
  Ledger.sumCounts
    (Ledger.groupBy Registration.status
       [Registration.pending; Registration.confirmed; Registration.rejected;
        Registration.cancelled] l) = length l.
Proof.
  rewrite sumCounts_sum. unfold Ledger.groupBy. rewrite sum_nonzero.
  induction l as [|r l IH]; [done|]. cbn in *.
  destruct (Registration.status r);
    repeat case_bool_decide; try done; cbn [length]; lia.
Qed.

Lemma groupBy_kind_sum l :
  Ledger.sumCounts
    (Ledger.groupBy Registration.registrationType
       [Registration.Kind.participant; Registration.Kind.coordinator] l) = length l.
Proof.
  rewrite sumCounts_sum. unfold Ledger.groupBy. rewrite sum_nonzero.
  induction l as [|r l IH]; [done|]. cbn in *.
  destruct (Registration.registrationType r);
    repeat case_bool_decide; try done; cbn [length]; lia.
Qed.

Lemma groupBy_elem {A} `{EqDecision A} (key : Registration.t → A) values l v c :
  (v, c) ∈ Ledger.groupBy key values l ↔
  v ∈ values ∧ c = length (List.filter (λ r, bool_decide (key r = v)) l) ∧ c ≠ 0%nat.
Proof.
  unfold Ledger.groupBy. rewrite list_elem_of_In, filter_In, <- list_elem_of_In.
  rewrite list_elem_of_fmap. simpl. rewrite negb_true_iff, Nat.eqb_neq.
  split.
  - intros [(w & [= -> ->] & Hw) Hc]. done.
  - intros (Hv & -> & Hc). split; [|done]. by exists v.
Qed.

Lemma List_filter_sublist {A} (f : A → bool) (l : list A) :
  sublist (List.filter f l) l.
Proof.
  induction l as [|x l IH]; simpl; [done|].
  destruct (f x); by constructor.
Qed.

Lemma filter_length_mono {A} (f g : A → bool) (l : list A) :
  (∀ x, f x = true → g x = true) →
  (length (List.filter f l) ≤ length (List.filter g l))%nat.
Proof.
  intros Hfg. induction l as [|x l IH]; simpl; [done|].
  destruct (f x) eqn:Hf; [rewrite (Hfg x Hf)|destruct (g x)]; simpl; lia.
Qed.

Lemma activeOf_le eid l :
  (length (Ledger.activeOf eid l)
   ≤ length (List.filter (Ledger.matches eid None) l))%nat.
Proof.
  apply filter_length_mono. intros r. unfold Ledger.matches. simpl.
  rewrite !andb_true_iff. tauto.
Qed.

(** Extra X25. The statistics of an event count its registrations with
    [isActive] only: the total is their number, and the counts by status
    and the counts by type each add up to it; a status is listed once,
    with the number of active registrations that have it, and only when
    there is one. The listing of the same event counts the cancelled
    registrations too, so its total is never below this one, and the
    counter of the event is reported beside them as it is stored. *)
Theorem stats_count_active
  (req : Request) (db : Db) (eid : ObjectId) (e : Event.t) :
  Ledger.access req db "Not authorized to view this event's statistics"
    = Next (eid, e) →
  ∃ s, Ledger.eventStats req db = Ledger.Counted s ∧
       Ledger.statsTotal s = length (Ledger.activeOf eid (Registrations db)) ∧
       Ledger.sumCounts (Ledger.typeBreakdown s) = Ledger.statsTotal s ∧
       (∀ st c, (st, c) ∈ Ledger.statusBreakdown s ↔
                c ≠ 0%nat ∧
                c = length (List.filter
                              (λ r, bool_decide (Registration.status r = st))
                              (Ledger.activeOf eid (Registrations db)))) ∧
       NoDup (Ledger.statusBreakdown s).*1 ∧
       (Ledger.statsTotal s ≤ length (Ledger.found eid None db))%nat ∧
       Ledger.currentParticipants s = Event.currentParticipants e.
Proof.
  intros Hacc. unfold Ledger.eventStats. rewrite Hacc. eexists. split; [reflexivity|].
  cbn [Ledger.statsTotal Ledger.typeBreakdown Ledger.statusBreakdown
       Ledger.currentParticipants].
  rewrite groupBy_status_sum, groupBy_kind_sum.
  split; [done|]. split; [done|]. split; [|split; [|split; [|done]]].
  - intros st c. rewrite groupBy_elem. split; [naive_solver|].
    intros [Hc ->]. split; [|done].
    rewrite !elem_of_cons. destruct st; auto.
  - unfold Ledger.groupBy.
    eapply sublist_NoDup; [|apply fmap_sublist, List_filter_sublist].
    rewrite <- list_fmap_compose. simpl.
    repeat (apply NoDup_cons; split; [rewrite ?elem_of_cons, ?elem_of_nil; naive_solver|]).
    apply NoDup_nil_2.
  - unfold Ledger.found. rewrite (Permutation_length (sortByDate_Permutation _)).
    apply activeOf_le.
Qed.

Lemma stats_count_active_witness :
  let gone := Registration.mk 2%nat 1%nat Sample.bob Registration.Kind.participant
                Registration.confirmed 200 false None false in
  let db := setRegistrations [Sample.pendingReg; gone] Sample.both in
  ∃ s, Ledger.eventStats (withEventId (Decoded Sample.carol) 1%nat) db = Ledger.Counted s ∧
       Ledger.statsTotal s = 1%nat ∧
       Ledger.statusBreakdown s = [(Registration.pending, 1%nat)] ∧
       length (Ledger.found 1%nat None db) = 2%nat.
Proof.
  intros gone db.
  destruct (stats_count_active (withEventId (Decoded Sample.carol) 1%nat) db 1%nat
              Sample.listed eq_refl) as (s & Hs & Htot & _).
  exists s. split; [exact Hs|]. split; [by rewrite Htot|].
  split; [|reflexivity]. by injection Hs as <-.
Defined.

(** ** What the update of an event can write *)

Lemma putEvent_accepts req b db c eid e :
  auth req db = Next c →
  requireOwnershipOrAdmin c req db = Next tt →
  params_id req = Some eid →
  Events db !! eid = Some e →
  EventUpdate.maxParticipants b = None →
  EventUpdate.status b = None →
  EventUpdate.putEvent req b db
  = (Json 200 "Event updated successfully",
     saveEvent eid (EventUpdate.set b None e) db).
Proof.
  intros Ha Ho Hp He Hm Hs. unfold EventUpdate.putEvent.
  rewrite Ha. simpl. rewrite Ho. simpl. rewrite Hm, Hs. simpl.
  rewrite Hp. simpl. by rewrite He.
Qed.

Lemma ownership_saveEvent c req db eid e e' :
  Events db !! eid = Some e →
  Event.createdBy e' = Event.createdBy e →
  Event.organizers e' = Event.organizers e →
  Event.moderators e' = Event.moderators e →
  requireOwnershipOrAdmin c req (saveEvent eid e' db) = requireOwnershipOrAdmin c req db.
Proof.
  intros He H1 H2 H3. unfold requireOwnershipOrAdmin.
  destruct (bool_decide (User.role c.2 = User.admin)); [done|].
  destruct (params_id req) as [rid|]; [|done]. simpl.
  destruct (decide (eid = rid)) as [<-|Hne].
  - by rewrite lookup_insert_eq, He, H1, H2, H3.
  - by rewrite lookup_insert_ne.
Qed.

(** Extra X26. [PUT /api/events/:id] hands the body to [$set] as it
    comes, for a caller [requireOwnershipOrAdmin] lets through. With
    [isActive: true] it undoes the soft delete: the store is the one
    before the delete. With [currentParticipants] it writes the counter,
    whatever the roster and the ledger hold: after a reset to zero a
    registration that was refused for a full event is accepted. *)
Theorem update_overwrites_delete_and_counter
  (req : Request) (db : Db) (c : Caller) (eid : ObjectId) (e : Event.t) :
  auth req db = Next c →
  requireOwnershipOrAdmin c req db = Next tt →
  params_id req = Some eid →
  Events db !! eid = Some e →
  Event.isActive e = true →
  let deleted := (deleteEventRoute req db).2 in
  let reset := (EventUpdate.putEvent req (EventUpdate.withCurrentParticipants 0) db).2 in
  getEventRoute req deleted = (Json 404 "Event not found", deleted) ∧
  EventUpdate.putEvent req (EventUpdate.withIsActive true) deleted
    = (Json 200 "Event updated successfully", db) ∧
  (∀ k, countOf eid (EventUpdate.putEvent req (EventUpdate.withCurrentParticipants k) db).2
        = Some k) ∧
  (∀ now reqp uid ty,
     callerId reqp db = Some uid →
     Event.isFull e = true →
     deadlinePassed now e = false →
     Registration.findOne eid uid (Registrations db) = None →
     postRegistration now reqp eid ty db = (Json 400 "Event is full", db) ∧
     (postRegistration now reqp eid ty reset).1 = Json 201 "Registration successful").
Proof.
  intros Ha Ho Hp He Hact deleted reset.
  assert (Ed : deleted = saveEvent eid (Event.set_isActive false e) db).
  { subst deleted. by rewrite (deleteEventRoute_accepts req db c eid e). }
  assert (Er : ∀ k, (EventUpdate.putEvent req (EventUpdate.withCurrentParticipants k) db).2
                    = saveEvent eid (Event.set_currentParticipants k e) db).
  { intros k. rewrite (putEvent_accepts req _ db c eid e) by done.
    simpl. by destruct e. }
  split; [|split; [|split]].
  - apply getEventRoute_inactive with eid (Event.set_isActive false e); [done| |done].
    rewrite Ed. apply lookup_insert_eq.
  - rewrite (putEvent_accepts req _ deleted c eid (Event.set_isActive false e)); try done.
    + f_equal. rewrite Ed. unfold saveEvent. simpl. destruct db as [ev rs us]. simpl in *.
      f_equal. rewrite insert_insert_eq. apply insert_id. rewrite He. f_equal.
      destruct e. simpl in *. by subst.
    + by rewrite Ed.
    + rewrite Ed. by rewrite (ownership_saveEvent c req db eid e).
    + rewrite Ed. apply lookup_insert_eq.
  - intros k. rewrite Er. unfold countOf. simpl. by rewrite lookup_insert_eq.
  - intros now reqp uid ty Hc Hfull Hd Hone. split.
    + by apply postRegistration_full with uid e.
    + subst reset. rewrite Er.
      rewrite (postRegistration_accepts now reqp _ uid eid ty
                 (Event.set_currentParticipants 0 e)); try done.
      * apply lookup_insert_eq.
      * apply isFull_true in Hfull. apply isFull_false_room. simpl. lia.
Qed.

Lemma update_overwrites_delete_and_counter_witness :
  let req := withId (Decoded Sample.carol) 1%nat in
  let reset := (EventUpdate.putEvent req (EventUpdate.withCurrentParticipants 0)
                  Sample.full).2 in
  EventUpdate.putEvent req (EventUpdate.withIsActive true)
    (deleteEventRoute req Sample.full).2
    = (Json 200 "Event updated successfully", Sample.full) ∧
  (postRegistration 100 (plain (Decoded Sample.alice)) 1%nat
     Registration.Kind.participant Sample.full).1 = Json 400 "Event is full" ∧
  (postRegistration 100 (plain (Decoded Sample.alice)) 1%nat
     Registration.Kind.participant reset).1 = Json 201 "Registration successful".
Proof.
  intros req reset.
  destruct (update_overwrites_delete_and_counter req Sample.full
              (Sample.carol, User.mk User.faculty true []) 1%nat
              (Event.set_currentParticipants 1 (Sample.event 1 Event.Live))
              eq_refl eq_refl eq_refl eq_refl eq_refl)
    as (_ & Hback & _ & Hfull).
  destruct (Hfull 100 (plain (Decoded Sample.alice)) Sample.alice
              Registration.Kind.participant eq_refl eq_refl eq_refl eq_refl)
    as [H1 H2].
  split; [exact Hback|]. split; [by rewrite H1|exact H2].
Defined.

(** ** What the rate limiter keeps *)

Lemma limiter_keeps maxRequests windowMs now ip requests :
  let requests' := (RateLimit.limiter maxRequests windowMs now ip requests).2 in
  dom requests' = dom requests ∪ {[ip]} ∧
  (map_Forall (λ _ e, 1 <= RateLimit.count e <= Z.max 1 maxRequests) requests →
   map_Forall (λ _ e, 1 <= RateLimit.count e <= Z.max 1 maxRequests) requests').
Proof.
  unfold RateLimit.limiter.
  destruct (requests !! ip) as [u|] eqn:Hu; simpl.
  - assert (Hdom : dom requests ∪ {[ip]} = dom requests).
    { apply elem_of_dom_2 in Hu. set_solver. }
    destruct (RateLimit.resetTime u <? now); simpl.
    + split; [set_solver|]. intros Hall. apply map_Forall_insert_2; [simpl; lia|done].
    + destruct (Z.leb_spec maxRequests (RateLimit.count u)) as [Hle|Hlt]; simpl.
      * split; [set_solver|done].
      * split; [set_solver|]. intros Hall. pose proof (Hall _ _ Hu) as Hc. simpl in Hc.
        apply map_Forall_insert_2; [simpl; lia|done].
  - split; [set_solver|]. intros Hall. apply map_Forall_insert_2; [simpl; lia|done].
Qed.

(** Extra X27. The limiter writes an entry for every address it sees
    and never removes one: after any requests the addresses of the map
    are the ones it had and the ones that sent a request, expired windows
    included. Each counter stays between one and the limit (one, when the
    limit is below one). *)
Theorem limiter_never_forgets
  (maxRequests windowMs : Z) (reqs : list (string * Date))
  (requests : gmap string RateLimit.Entry) :
  let requests' := (RateLimit.serve maxRequests windowMs reqs requests).2 in
  dom requests' = dom requests ∪ list_to_set reqs.*1 ∧
  (size requests ≤ size requests')%nat ∧
  (map_Forall (λ _ e, 1 <= RateLimit.count e <= Z.max 1 maxRequests) requests →
   map_Forall (λ _ e, 1 <= RateLimit.count e <= Z.max 1 maxRequests) requests').
Proof.
  revert requests. induction reqs as [|[ip now] reqs IH]; intros requests.
  - simpl. split; [set_solver|]. split; [done|done].
  - rewrite serve_cons. cbn [fst snd].
    destruct (limiter_keeps maxRequests windowMs now ip requests) as [Hd Hc].
    destruct (IH (RateLimit.limiter maxRequests windowMs now ip requests).2)
      as (IHd & IHs & IHc).
    split; [|split].
    + rewrite IHd, Hd. csimpl. set_solver.
    + etrans; [|exact IHs]. rewrite <- !size_dom. apply subseteq_size.
      rewrite Hd. set_solver.
    + intros H. by apply IHc, Hc.
Qed.

Lemma limiter_never_forgets_witness :
  let requests' :=
    (RateLimit.serve 2 1000 [("10.0.0.1", 0); ("10.0.0.2", 5); ("10.0.0.1", 9000)] ∅).2 in
  dom requests' = {["10.0.0.1"; "10.0.0.2"]} ∧
  map_Forall (λ _ e, 1 <= RateLimit.count e <= 2) requests'.
Proof.
  intros requests'.
  destruct (limiter_never_forgets 2 1000
              [("10.0.0.1", 0); ("10.0.0.2", 5); ("10.0.0.1", 9000)] ∅) as (Hd & _ & Hc).
  fold requests' in Hd, Hc. split.
  - rewrite Hd. csimpl. set_solver.
  - apply Hc. apply map_Forall_empty.
Defined.

(** ** Organizers and moderators *)

(** Extra X28. An organizer or a moderator of an event who is neither
    its creator nor an admin passes [requireOwnershipOrAdmin]: the routes
    of the event itself serve them, so they read the roster, update the
    event and soft-delete it. The routes of the ledger test the creator
    and the admin role only: the registrations of the same event, its
    statistics and the status of one of its registrations are refused to
    them with 403, by [requireFaculty] already when their role is
    participant. *)
Theorem organizers_manage_event_not_ledger
  (tok : Token) (db : Db) (c : Caller) (eid rid : ObjectId) (e : Event.t)
  (r : Registration.t) :
  auth (plain tok) db = Next c →
  User.role c.2 ≠ User.admin →
  Event.createdBy e ≠ c.1 →
  c.1 ∈ Event.organizers e ∨ c.1 ∈ Event.moderators e →
  Events db !! eid = Some e →
  Registration.findById rid (Registrations db) = Some r →
  Registration.event r = eid →
  let refusal (m : string) :=
    if bool_decide (User.role c.2 = User.faculty) then Json 403 m
    else Json 403 "Faculty or admin access required" in
  (participantsRoute (withId tok eid) db).1 = JsonParticipants (Event.participants e) ∧
  (EventUpdate.putEvent (withId tok eid) EventUpdate.empty db).1
    = Json 200 "Event updated successfully" ∧
  deleteEventRoute (withId tok eid) db
    = (Json 200 "Event deleted successfully",
       saveEvent eid (Event.set_isActive false e) db) ∧
  (∀ page limit status,
     Ledger.eventRegistrations (withEventId tok eid) page limit status db
     = Ledger.NoListing (refusal "Not authorized to view this event's registrations")) ∧
  Ledger.eventStats (withEventId tok eid) db
    = Ledger.NoStats (refusal "Not authorized to view this event's statistics") ∧
  (∀ status notes,
     putStatus (withId tok rid) status notes db
     = (refusal "Not authorized to update this registration", db)).
Proof.
  intros Ha Hna Hnc Hom He Hr Hev refusal.
  assert (Hauth : ∀ req, token req = tok → auth req db = Next c).
  { intros req <-. revert Ha. unfold auth. by simpl. }
  assert (Hown : requireOwnershipOrAdmin c (withId tok eid) db = Next tt).
  { unfold requireOwnershipOrAdmin. rewrite (bool_decide_eq_false_2 _ Hna). simpl.
    rewrite He, (bool_decide_eq_false_2 _ Hnc).
    destruct Hom as [Ho|Hm].
    - by rewrite (bool_decide_eq_true_2 _ Ho).
    - rewrite (bool_decide_eq_true_2 _ Hm). by case_bool_decide. }
  assert (Hfac : requireFaculty c
                 = if bool_decide (User.role c.2 = User.faculty) then Next tt
                   else Respond (Json 403 "Faculty or admin access required")).
  { unfold requireFaculty. by rewrite (bool_decide_eq_false_2 _ Hna). }
  assert (Hacc : ∀ m, Ledger.access (withEventId tok eid) db m = Respond (refusal m)).
  { intros m. unfold Ledger.access. rewrite (Hauth (withEventId tok eid) eq_refl). simpl. rewrite Hfac.
    subst refusal. simpl. case_bool_decide; simpl; [|done].
    rewrite He. simpl.
    by rewrite (bool_decide_eq_false_2 _ Hnc), (bool_decide_eq_false_2 _ Hna). }
  split; [|split; [|split; [|split; [|split]]]].
  - unfold participantsRoute. rewrite (Hauth (withId tok eid) eq_refl). simpl. rewrite Hown. simpl.
    by rewrite He.
  - by rewrite (putEvent_accepts (withId tok eid) _ db c eid e
                  (Hauth (withId tok eid) eq_refl)).
  - by apply deleteEventRoute_accepts with c; [apply Hauth|..].
  - intros page limit status. unfold Ledger.eventRegistrations. by rewrite Hacc.
  - unfold Ledger.eventStats. by rewrite Hacc.
  - intros status notes. unfold putStatus. rewrite (Hauth (withId tok rid) eq_refl). simpl. rewrite Hfac.
    subst refusal. simpl. case_bool_decide; simpl; [|done].
    rewrite Hr. simpl. rewrite Hev, He.
    by rewrite (bool_decide_eq_false_2 _ Hnc), (bool_decide_eq_false_2 _ Hna).
Qed.

Lemma organizers_manage_event_not_ledger_witness :
  let e := Event.mk 1000 2000 0 1 (Some 500) Event.Live true Sample.carol
             [Sample.carol] [Sample.bob] [Participant.fresh Sample.alice 100] 0 1 0 in
  let db := saveEvent 1%nat e Sample.both in
  let tok := Decoded Sample.bob in
  (deleteEventRoute (withId tok 1%nat) db).1 = Json 200 "Event deleted successfully" ∧
  Ledger.eventStats (withEventId tok 1%nat) db
    = Ledger.NoStats (Json 403 "Faculty or admin access required").
Proof.
  intros e db tok.
  destruct (organizers_manage_event_not_ledger tok db
              (Sample.bob, User.mk User.participant true []) 1%nat 1%nat e
              Sample.pendingReg eq_refl ltac:(done) ltac:(done)
              ltac:(right; apply list_elem_of_singleton; reflexivity)
              (lookup_insert_eq _ _ _) eq_refl eq_refl)
    as (_ & _ & Hdel & _ & Hstats & _).
  split; [by rewrite Hdel | exact Hstats].
Defined.
